(** * D-notebook-ai: the retrieval and context-assembly core

    A shallow embedding of the retrieval pipeline of
    [src/services/geminiService.js], of the chat hook's context window
    ([src/hooks/useChatSystem.js]) and of the persistent chunk store
    ([storeDocumentChunks], [performVectorSearch]), with the properties the
    design document states about them; and, beyond those, of the storage
    loop of [processDocumentsForRAG], the keyword searches, the
    performance metrics, the query variations, the storage quota and the
    error messages for the user, with properties read off the code.

    Conventions of the embedding:
    - a JavaScript string is a [string]: one character per UTF-16 code unit;
    - a JavaScript number holding an embedding component or a similarity
      score is a binary64 [float], as in the engine;
    - counters, indices, page numbers and HTTP status codes are [nat] or [Z];
    - delays are rationals ([Q], milliseconds);
    - an [async] function that may reject is a function into [Outcome];
    - external collaborators (embedding provider, vector store, LLM) are
      [Section] variables: every theorem holds for all of their behaviours.

    Part I holds the embedding, Part II the vocabulary of the
    specification and sample inputs, Part III the lemmas and theorems. *)

From Stdlib Require Import ZArith List String Ascii Bool Lia.
From Stdlib Require Import QArith Qminmax Lqa Floats DecimalString.
From stdpp Require Import gmap strings list sorting.

Open Scope string_scope.
Open Scope list_scope.

#[local] Set Warnings "-clear-no-such-hyp".

(** * Part I: the embedding *)

(** ** JavaScript strings *)

Module JsString.

(** [hay.includes(needle)] *)
Fixpoint includes (hay needle : string) : bool :=
  String.prefix needle hay ||
  match hay with
  | EmptyString => false
  | String _ rest => includes rest needle
  end.

Definition lowerChar (c : ascii) : ascii :=
  let n := nat_of_ascii c in
  if (65 <=? n)%nat && (n <=? 90)%nat then ascii_of_nat (n + 32) else c.

Definition upperChar (c : ascii) : ascii :=
  let n := nat_of_ascii c in
  if (97 <=? n)%nat && (n <=? 122)%nat then ascii_of_nat (n - 32) else c.

Fixpoint mapChars (f : ascii -> ascii) (s : string) : string :=
  match s with
  | EmptyString => EmptyString
  | String c rest => String (f c) (mapChars f rest)
  end.

(** [s.toLowerCase()], on the ASCII letters: the needles this program
    searches a lowered string for contain no other letter. *)
Definition toLowerCase : string -> string := mapChars lowerChar.

(** The canonicalisation a regular expression with the [i] flag (and no
    [u] flag) applies to pattern and input: ASCII letters to upper case. *)
Definition canonicalize : string -> string := mapChars upperChar.

(** The template literal of an integer. *)
Definition ofZ (z : Z) : string := NilZero.string_of_int (Z.to_int z).

(** [parts.join(sep)] *)
Definition join (sep : string) (parts : list string) : string :=
  String.concat sep parts.

(** A string is truthy when it is not empty. *)
Definition truthy (s : string) : bool := negb (String.eqb s "").

(** The line feed. *)
Definition nl : string := String (ascii_of_nat 10) EmptyString.

End JsString.

(** ** Ordinary JavaScript objects used as dictionaries of strings *)

Module JsObject.

(** The own properties, in creation order. *)
Definition t : Type := list (string * string).

Definition empty : t := [].

(** The members every object literal inherits from [Object.prototype];
    each of them reads as a truthy value. *)
Definition prototypeNames : list string :=
  [ "constructor"; "__proto__"; "hasOwnProperty"; "isPrototypeOf";
    "propertyIsEnumerable"; "toLocaleString"; "toString"; "valueOf";
    "__defineGetter__"; "__defineSetter__"; "__lookupGetter__";
    "__lookupSetter__" ].

Definition hasOwn (o : t) (k : string) : bool :=
  existsb (fun p => String.eqb (fst p) k) o.

Definition ownLookup (o : t) (k : string) : option string :=
  snd <$> List.find (fun p => String.eqb (fst p) k) o.

(** The truthiness of [o[k]]: an own property if there is one, else the
    inherited member. *)
Definition readTruthy (o : t) (k : string) : bool :=
  match ownLookup o k with
  | Some v => JsString.truthy v
  | None => existsb (String.eqb k) prototypeNames
  end.

(** [o[k] = v] for a string [v]. Assigning a string to [__proto__] is
    ignored by the inherited setter. *)
Definition set (o : t) (k v : string) : t :=
  if String.eqb k "__proto__" then o
  else if hasOwn o k
  then List.map (fun p => if String.eqb (fst p) k then (k, v) else p) o
  else o ++ [(k, v)].

(** A key is an array index when it is the canonical decimal form of an
    integer below 2^32 - 1. *)
Definition arrayIndex (k : string) : option N :=
  match NilEmpty.uint_of_string k with
  | Some u =>
      let n := N.of_uint u in
      if String.eqb (NilZero.string_of_uint (N.to_uint n)) k && (n <? 4294967295)%N
      then Some n else None
  | None => None
  end.

Fixpoint insertByIndex (x : N * string) (l : list (N * string)) : list (N * string) :=
  match l with
  | [] => [x]
  | y :: rest => if (fst x <=? fst y)%N then x :: l else y :: insertByIndex x rest
  end.

Definition sortByIndex (l : list (N * string)) : list (N * string) :=
  List.fold_right insertByIndex [] l.

(** [Object.values(o)]: array-index keys first, in ascending numeric
    order, then the other keys in creation order. *)
Definition values (o : t) : list string :=
  let indexed := omap (fun p => (fun n => (n, snd p)) <$> arrayIndex (fst p)) o in
  let named := List.filter (fun p => negb (bool_decide (is_Some (arrayIndex (fst p))))) o in
  (snd <$> sortByIndex indexed) ++ (snd <$> named).

End JsObject.

(** ** Promises *)

(** What an [Error] thrown in this program carries, as far as the retry
    wrapper inspects it: [error.status], [error.response.status] and
    [error.message]. *)
Record ErrorObj := {
  err_status : option Z;
  err_response_status : option Z;
  err_message : option string
}.

(** [new Error(msg)] *)
Definition newError (msg : string) : ErrorObj :=
  {| err_status := None; err_response_status := None; err_message := Some msg |}.

(** The settlement of a promise. *)
Inductive Outcome (T : Type) : Type :=
| Resolved (v : T)
| Rejected (e : ErrorObj).

Arguments Resolved {T} v.
Arguments Rejected {T} e.

(** ** Documents (LangChain [Document]) and citations *)

(** A page number as the PDF extractor or a database row holds it: a
    number or a string. *)
Inductive PageVal :=
| PNum (n : Z)
| PStr (s : string).

Definition pageTruthy (p : PageVal) : bool :=
  match p with
  | PNum n => negb (n =? 0)%Z
  | PStr s => JsString.truthy s
  end.

Definition pageToString (p : PageVal) : string :=
  match p with
  | PNum n => JsString.ofZ n
  | PStr s => s
  end.

Record Metadata := {
  source : option string;
  document_title : option string;
  page : option PageVal;
  pageNumber : option PageVal
}.

(** [pageContent] is always a string on a LangChain [Document]; rows read
    back from the database may carry their text in [content] instead. *)
Record Doc := {
  pageContent : string;
  content : option string;
  metadata : option Metadata
}.

Record Citation := {
  cite_source : string;
  cite_page : option PageVal;
  cite_text : string
}.

(** ** Deduplication of retrieved chunks ([deduplicateDocuments]) *)

(** [doc.pageContent.substring(0, 100)] *)
Definition contentId (doc : Doc) : string := substring 0 100 (pageContent doc).

(** The body of [docs.forEach(doc => ...)] threaded over the list:
    [uniqueDocs] is the [Map], [result] the array being pushed to. *)
Fixpoint dedupLoop (docs : list Doc) (uniqueDocs : gmap string Doc)
    (result : list Doc) : list Doc :=
  match docs with
  | [] => result
  | doc :: rest =>
      match uniqueDocs !! contentId doc with
      | Some _ => dedupLoop rest uniqueDocs result
      | None => dedupLoop rest (<[contentId doc := doc]> uniqueDocs) (result ++ [doc])
      end
  end.

Definition deduplicateDocuments (docs : list Doc) : list Doc :=
  dedupLoop docs ∅ [].

(** ** Conversation history ([formatChatHistory], [getContextMessages]) *)

Record Message := {
  role : string;
  msg_content : string
}.

(** A turn in the format the Gemini chat API takes. *)
Record GeminiTurn := {
  turn_role : string;
  turn_parts : list string
}.

Definition isUserOrAssistant (msg : Message) : bool :=
  String.eqb (role msg) "user" || String.eqb (role msg) "assistant".

Definition toGeminiTurn (msg : Message) : GeminiTurn :=
  {| turn_role := if String.eqb (role msg) "user" then "user" else "model";
     turn_parts := [msg_content msg] |}.

(** [conversationHistory] is [None] when the argument is not an array. *)
Definition formatChatHistory (conversationHistory : option (list Message))
    : list GeminiTurn :=
  match conversationHistory with
  | None => []
  | Some [] => []
  | Some msgs => List.map toGeminiTurn (List.filter isUserOrAssistant msgs)
  end.

Definition MAX_CONTEXT_MESSAGES : nat := 10.

(** [l.slice(-n)] for a positive [n] *)
Definition sliceLast {A : Type} (n : nat) (l : list A) : list A :=
  drop (length l - n) l.

(** The chat hook's [getContextMessages], whose result is what the hook
    passes to [queryWithRAG] as the conversation history. *)
Definition getContextMessages (messages : list Message) : list Message :=
  sliceLast MAX_CONTEXT_MESSAGES (List.filter isUserOrAssistant messages).

(** ** Context assembly ([formatContextFromDocs]) *)

(** [a || b] on optional strings *)
Definition orString (a b : option string) : option string :=
  match a with
  | Some s => if JsString.truthy s then a else b
  | None => b
  end.

(** [a || b] on optional page numbers *)
Definition orPage (a b : option PageVal) : option PageVal :=
  match a with
  | Some p => if pageTruthy p then a else b
  | None => b
  end.

(** [doc.metadata?.field] *)
Definition meta {A : Type} (field : Metadata -> option A) (doc : Doc) : option A :=
  metadata doc ≫= field.

Definition docSource (doc : Doc) : string :=
  match orString (orString (meta source doc) (meta document_title doc))
                 (Some "Unknown Source") with
  | Some s => s
  | None => "Unknown Source"
  end.

Definition docPage (doc : Doc) : option PageVal :=
  orPage (meta page doc) (meta pageNumber doc).

Definition isTruthyPage (p : option PageVal) : bool :=
  match p with
  | Some v => pageTruthy v
  | None => false
  end.

Definition citationText (doc : Doc) : string :=
  match docPage doc with
  | Some p =>
      if pageTruthy p
      then docSource doc +:+ " (halaman " +:+ pageToString p +:+ ")"
      else docSource doc
  | None => docSource doc
  end.

(** [doc.pageContent?.substring(0, 200) || doc.content?.substring(0, 200) || ""] *)
Definition excerpt (doc : Doc) : string :=
  let a := substring 0 200 (pageContent doc) in
  if JsString.truthy a then a
  else match content doc with
       | Some c => substring 0 200 c
       | None => ""
       end.

(** The template literal of [doc.pageContent || doc.content] *)
Definition blockBody (doc : Doc) : string :=
  if JsString.truthy (pageContent doc) then pageContent doc
  else match content doc with
       | Some c => c
       | None => "undefined"
       end.

Definition citationOf (doc : Doc) : Citation :=
  {| cite_source := docSource doc; cite_page := docPage doc; cite_text := excerpt doc |}.

Definition contextBlock (idx : nat) (doc : Doc) : string :=
  "--- Dokumen #" +:+ JsString.ofZ (Z.of_nat idx + 1) +:+ ": " +:+ citationText doc
  +:+ " ---" +:+ JsString.nl +:+ blockBody doc +:+ JsString.nl.

(** [citations] is [None] when the second argument is not an array. The
    result pairs the returned context with the citations array as the
    call leaves it. *)
Definition formatContextFromDocs (docs : list Doc) (citations : option (list Citation))
    : string * option (list Citation) :=
  match docs with
  | [] => ("", citations)
  | _ =>
      (JsString.join (JsString.nl +:+ JsString.nl) (imap contextBlock docs),
       (fun cs => cs ++ List.map citationOf docs) <$> citations)
  end.

(** ** The references section ([ensureReferences]) *)

Definition referencePatterns : list string :=
  [ JsString.nl +:+ JsString.nl +:+ "REFERENSI:";
    JsString.nl +:+ JsString.nl +:+ "REFERENCI:";
    JsString.nl +:+ JsString.nl +:+ "SUMBER:";
    JsString.nl +:+ JsString.nl +:+ "REFERENCES:" ].

(** The test of the case-insensitive regular expression
    [\n\nREFEREN[CS]I:|\n\nSUMBER:|\n\nREFERENCES:]. *)
Definition hasReferencesSection (response : string) : bool :=
  existsb (JsString.includes (JsString.canonicalize response)) referencePatterns.

Definition sourceKey (citation : Citation) : string :=
  cite_source citation +:+
  (if isTruthyPage (cite_page citation)
   then " (halaman " +:+ from_option pageToString "" (cite_page citation) +:+ ")"
   else "").

Definition referenceLine (idx : nat) (key : string) : string :=
  "[" +:+ JsString.ofZ (Z.of_nat idx + 1) +:+ "] " +:+ key.

(** The [citations.forEach((citation, idx) => ...)] loop. *)
Fixpoint collectSources (citations : list Citation) (idx : nat)
    (uniqueSources : JsObject.t) : JsObject.t :=
  match citations with
  | [] => uniqueSources
  | citation :: rest =>
      let key := sourceKey citation in
      collectSources rest (S idx)
        (if JsObject.readTruthy uniqueSources key then uniqueSources
         else JsObject.set uniqueSources key (referenceLine idx key))
  end.

Definition ensureReferences (response : string) (citations : option (list Citation))
    : string :=
  if negb (JsString.truthy response) then ""
  else if hasReferencesSection response then response
  else match citations with
       | Some (c :: cs) =>
           response +:+ JsString.nl +:+ JsString.nl +:+ "REFERENSI:" +:+ JsString.nl
           +:+ JsString.join JsString.nl
                 (JsObject.values (collectSources (c :: cs) 0 JsObject.empty))
       | _ => response
       end.

(** ** Embedding vectors and cosine similarity ([cosineSimilarity]) *)

Definition EXPECTED_DIMENSIONS : nat := 1536.

(** An argument of [cosineSimilarity]: an array of numbers, or anything
    that fails [Array.isArray] (null, undefined, a number, an object). *)
Inductive VectorArg :=
| ArrayOf (v : list float)
| NotArray.

(** The [for] loop over [i < vec1.length], run once the lengths are known
    to be equal: the three accumulators after the remaining components. *)
Fixpoint accumulate (vec1 vec2 : list float) (acc : float * float * float)
    : float * float * float :=
  match vec1, vec2 with
  | a :: rest1, b :: rest2 =>
      let '(dotProduct, mag1, mag2) := acc in
      accumulate rest1 rest2 (dotProduct + a * b, mag1 + a * a, mag2 + b * b)%float
  | _, _ => acc
  end.

Definition cosineSimilarity (vec1 vec2 : VectorArg) : float :=
  match vec1, vec2 with
  | ArrayOf v1, ArrayOf v2 =>
      if negb (length v1 =? length v2)%nat then 0%float
      else
        let '(dotProduct, sq1, sq2) := accumulate v1 v2 (0, 0, 0)%float in
        let mag1 := PrimFloat.sqrt sq1 in
        let mag2 := PrimFloat.sqrt sq2 in
        if (mag1 =? 0)%float || (mag2 =? 0)%float then 0%float
        else (dotProduct / (mag1 * mag2))%float
  | _, _ => 0%float
  end.

(** [new Array(1536).fill(0)], the placeholder for a failed embedding. *)
Definition zeroEmbedding : list float := repeat 0%float EXPECTED_DIMENSIONS.

(** ** The persistent chunk store ([storeDocumentChunks], [performVectorSearch]) *)

(** A value found in an embedding array handed to the store. *)
Inductive JsValue :=
| VNumber (x : float)
| VString (s : string)
| VBoolean (b : bool)
| VNull
| VUndefined.

(** [typeof val !== 'number' || isNaN(val) || !isFinite(val)] *)
Definition isInvalidValue (val : JsValue) : bool :=
  match val with
  | VNumber x => PrimFloat.is_nan x || negb (PrimFloat.is_finite x)
  | _ => true
  end.

(** One entry of the [embeddings] argument: a falsy value (null,
    undefined), an array, or another object, given by its
    [Object.values]. *)
Inductive EmbeddingCell :=
| CellFalsy
| CellArray (vals : list JsValue)
| CellObject (vals : list JsValue).

Definition zeroVector : list JsValue := repeat (VNumber 0%float) EXPECTED_DIMENSIONS.

(** [while (v.length < EXPECTED_DIMENSIONS) v.push(0)], with the number of
    iterations left as the recursion argument. *)
Fixpoint pushZeros (missing : nat) (v : list JsValue) : list JsValue :=
  match missing with
  | O => v
  | S k => pushZeros k (v ++ [VNumber 0%float])
  end.

(** The callback of [embeddings.map(...)] in [storeDocumentChunks]. *)
Definition processEmbedding (embedding : EmbeddingCell) : list JsValue :=
  match embedding with
  | CellFalsy => zeroVector
  | CellArray embArray | CellObject embArray =>
      if existsb isInvalidValue embArray then zeroVector
      else if (length embArray =? EXPECTED_DIMENSIONS)%nat then embArray
      else if (EXPECTED_DIMENSIONS <? length embArray)%nat
           then take EXPECTED_DIMENSIONS embArray
           else pushZeros (EXPECTED_DIMENSIONS - length embArray) embArray
  end.

(** The repair of an [embeddings] argument that is missing ([None]) or
    whose length differs from the number of chunks. *)
Definition alignEmbeddings (nChunks : nat) (embeddings : option (list EmbeddingCell))
    : list EmbeddingCell :=
  let rebuild (validEmbeddings : list EmbeddingCell) :=
    List.map (fun i => match validEmbeddings !! i with
                       | Some CellFalsy | None => CellArray zeroVector
                       | Some cell => cell
                       end) (seq 0 nChunks) in
  match embeddings with
  | Some es => if (length es =? nChunks)%nat then es else rebuild es
  | None => rebuild []
  end.

Record ChunkInput (MetadataObj : Type) := {
  chunk_content : option string;
  chunk_pageContent : option string;
  chunk_metadata : option MetadataObj
}.

Arguments chunk_content {MetadataObj} _.
Arguments chunk_pageContent {MetadataObj} _.
Arguments chunk_metadata {MetadataObj} _.

(** A row handed to the [document_chunks] upsert. [row_embedding] is
    [processedEmbeddings[index]], absent when that index is out of range. *)
Record UpsertRow := {
  row_document_id : string;
  row_user_id : string;
  row_chunk_index : nat;
  row_content : string;
  row_metadata : string;
  row_embedding : option (list JsValue)
}.

(** [upsertData.slice(i, i + 100)] for [i = 0, 100, ...] while
    [i < upsertData.length]. *)
Fixpoint upsertBatchesFrom (fuel i : nat) (upsertData : list UpsertRow)
    : list (list UpsertRow) :=
  match fuel with
  | O => []
  | S fuel' =>
      if (i <? length upsertData)%nat
      then take 100 (drop i upsertData) :: upsertBatchesFrom fuel' (i + 100) upsertData
      else []
  end.

Section ChunkStore.

(** Sanitisation of text and metadata, defined elsewhere in the service. *)
Context {MetadataObj : Type}.
Variable sanitizeString : string -> string.
Variable stringifyMetadata : option MetadataObj -> string.

Definition upsertData (documentId userId : string)
    (chunks : list (ChunkInput MetadataObj)) (embeddings : option (list EmbeddingCell))
    : list UpsertRow :=
  let processedEmbeddings :=
    List.map processEmbedding (alignEmbeddings (length chunks) embeddings) in
  imap (fun index chunk =>
          {| row_document_id := documentId;
             row_user_id := userId;
             row_chunk_index := index;
             row_content :=
               sanitizeString
                 (from_option id ""
                    (orString (orString (chunk_content chunk) (chunk_pageContent chunk))
                              (Some "")));
             row_metadata := stringifyMetadata (chunk_metadata chunk);
             row_embedding := processedEmbeddings !! index |})
       chunks.

(** [storeDocumentChunks] up to the batches it builds for the database:
    [userId] is the signed-in user if any, [chunks] is [None] for a
    missing argument. What it then sends and what the database answers
    is the matter of [storeDocumentChunksRequests]. *)
Definition storeDocumentChunks (userId : option string) (documentId : string)
    (chunks : option (list (ChunkInput MetadataObj)))
    (embeddings : option (list EmbeddingCell)) : Outcome (list (list UpsertRow)) :=
  match userId with
  | None => Rejected (newError "User not logged in")
  | Some uid =>
      match chunks with
      | None => Resolved []
      | Some [] => Resolved []
      | Some cs =>
          let data := upsertData documentId uid cs embeddings in
          Resolved (upsertBatchesFrom (length data) 0 data)
      end
  end.

End ChunkStore.

(** The query embedding argument of [performVectorSearch]. *)
Inductive QueryArg :=
| QueryArray (vals : list JsValue)
| QueryNotArray.

(** The requests [performVectorSearch] sends, with the vector each
    carries. *)
Inductive SearchCall :=
| RpcMatchDocuments (query_embedding : list JsValue) (match_count : nat)
| RpcQuerySql (params : list JsValue) (limit : nat)
| TextSearch (rawQuery : list JsValue).

Definition normalizeQueryEmbedding (queryEmbedding : list JsValue) : list JsValue :=
  if (length queryEmbedding =? EXPECTED_DIMENSIONS)%nat then queryEmbedding
  else if (EXPECTED_DIMENSIONS <? length queryEmbedding)%nat
       then take EXPECTED_DIMENSIONS queryEmbedding
       else pushZeros (EXPECTED_DIMENSIONS - length queryEmbedding) queryEmbedding.

Section VectorSearch.

Context {Row : Type}.
(** The database: the [match_documents] function, the direct SQL query
    and the keyword search of last resort. *)
Variable rpcMatchDocuments : list JsValue -> list string -> nat -> Outcome (list Row).
Variable rpcQuerySql : string -> list JsValue -> list string -> nat -> Outcome (list Row).
Variable performTextSearch : list JsValue -> list string -> nat -> list Row.

(** The result and the requests sent, in order. *)
Definition performVectorSearch (userId : option string) (queryEmbedding : QueryArg)
    (documentIds : list string) (limit : nat) : Outcome (list Row) * list SearchCall :=
  match userId with
  | None => (Rejected (newError "User not logged in"), [])
  | Some uid =>
      match queryEmbedding with
      | QueryNotArray =>
          (Rejected (newError "Query embedding must be a non-empty array of numbers"), [])
      | QueryArray q =>
          let processedEmbedding := normalizeQueryEmbedding q in
          if existsb isInvalidValue processedEmbedding
          then (Rejected (newError "Embedding vector contains invalid values"), [])
          else
            match rpcMatchDocuments processedEmbedding documentIds limit with
            | Resolved data => (Resolved data, [RpcMatchDocuments processedEmbedding limit])
            | Rejected _ =>
                match rpcQuerySql uid processedEmbedding documentIds limit with
                | Resolved data =>
                    (Resolved data,
                     [RpcMatchDocuments processedEmbedding limit;
                      RpcQuerySql processedEmbedding limit])
                | Rejected _ =>
                    (Resolved (performTextSearch q documentIds limit),
                     [RpcMatchDocuments processedEmbedding limit;
                      RpcQuerySql processedEmbedding limit;
                      TextSearch q])
                end
            end
      end
  end.

End VectorSearch.

(** ** Retry with backoff ([retryWithAdvancedBackoff]) *)

Record RetryOptions := {
  maxRetries : nat;
  initialDelay : Q;
  maxDelay : Q;
  retryStatusCodes : list Z
}.

(** The defaults of the destructured [options]. *)
Definition defaultRetryOptions : RetryOptions :=
  {| maxRetries := 5; initialDelay := 1000; maxDelay := 10000;
     retryStatusCodes := [429; 500; 502; 503; 504]%Z |}.

(** [status && retryStatusCodes.includes(status)] *)
Definition statusListed (codes : list Z) (status : option Z) : bool :=
  match status with
  | Some s => negb (s =? 0)%Z && existsb (Z.eqb s) codes
  | None => false
  end.

(** [error.message && test(error.message)] *)
Definition messageHas (test : string -> bool) (error : ErrorObj) : bool :=
  match err_message error with
  | Some m => JsString.truthy m && test m
  | None => false
  end.

(** The chain of [if]/[else if] that sets [shouldRetry]. *)
Definition shouldRetry (codes : list Z) (error : ErrorObj) : bool :=
  if statusListed codes (err_status error) then true
  else if statusListed codes (err_response_status error) then true
  else if messageHas (fun m => existsb (fun code => JsString.includes m (JsString.ofZ code)) codes)
                     error then true
  else if messageHas (fun m => JsString.includes m "failed to fetch") error then true
  else if messageHas (fun m =>
            JsString.includes (JsString.toLowerCase m) "service unavailable"
            || JsString.includes (JsString.toLowerCase m) "resource exhausted"
            || JsString.includes (JsString.toLowerCase m) "deadline exceeded") error then true
  else false.

(** How a run of the wrapper ends: with the operation's value, or throwing
    [lastError], which is still [undefined] ([None]) if no attempt was made. *)
Inductive RetryResult (T : Type) : Type :=
| Returned (v : T)
| Threw (lastError : option ErrorObj).

Arguments Returned {T} v.
Arguments Threw {T} lastError.

(** A run: its end, the number of invocations of the operation, and the
    delays waited, in order. *)
Record RetryRun (T : Type) : Type := {
  run_result : RetryResult T;
  run_calls : nat;
  run_delays : list Q
}.

Arguments run_result {T} _.
Arguments run_calls {T} _.
Arguments run_delays {T} _.

(** [Math.min(maxDelay, initialDelay * Math.pow(2, attempt))] *)
Definition exponentialDelay (opts : RetryOptions) (attempt : nat) : Q :=
  Qmin (maxDelay opts) (initialDelay opts * inject_Z (2 ^ Z.of_nat attempt)).

(** [0.8 + Math.random() * 0.4], for the value [r] drawn. *)
Definition jitterFactor (r : Q) : Q := 0.8 + r * 0.4.

Section Retry.

Context {T : Type}.
(** The operation, as the outcome of its invocation number [attempt]
    (from 0), and the values [Math.random()] returns at each attempt. It
    throws error objects only. *)
Variable fn : nat -> Outcome T.
Variable random : nat -> Q.
Variable opts : RetryOptions.

(** The [for] loop from [attempt] on, with [remaining = maxRetries -
    attempt] iterations left. *)
Fixpoint retryFrom (remaining attempt : nat) (lastError : option ErrorObj) : RetryRun T :=
  match remaining with
  | O => {| run_result := Threw lastError; run_calls := 0; run_delays := [] |}
  | S remaining' =>
      match fn attempt with
      | Resolved v => {| run_result := Returned v; run_calls := 1; run_delays := [] |}
      | Rejected error =>
          if shouldRetry (retryStatusCodes opts) error then
            let jitter := (exponentialDelay opts attempt * jitterFactor (random attempt))%Q in
            let rest := retryFrom remaining' (S attempt) (Some error) in
            {| run_result := run_result rest;
               run_calls := S (run_calls rest);
               run_delays := jitter :: run_delays rest |}
          else {| run_result := Threw (Some error); run_calls := 1; run_delays := [] |}
      end
  end.

Definition retryWithAdvancedBackoff : RetryRun T :=
  retryFrom (maxRetries opts) 0 None.

End Retry.

(** ** Batched embedding of chunks ([processDocumentChunksInBatches]) *)

Record BatchConfig := {
  initialBatchSize : nat;
  minBatchSize : nat;
  retryDelayMs : Q
}.

Definition defaultBatchConfig : BatchConfig :=
  {| initialBatchSize := 10; minBatchSize := 2; retryDelayMs := 1000 |}.

(** The options of the embedding calls in this function. *)
Definition chunkRetryOptions : RetryOptions :=
  {| maxRetries := 5; initialDelay := 1000; maxDelay := 12000;
     retryStatusCodes := [429; 500; 502; 503; 504]%Z |}.

(** A chunk is an object on the heap: the array [enhancedDocs] holds
    references, and [indexOf] compares references. *)
Definition ref : Type := nat.

(** [enhancedDocs.indexOf(doc)], -1 when absent. *)
Fixpoint indexOfFrom (i : Z) (l : list ref) (doc : ref) : Z :=
  match l with
  | [] => (-1)%Z
  | x :: rest => if (x =? doc)%nat then i else indexOfFrom (i + 1)%Z rest doc
  end.

Definition indexOf (l : list ref) (doc : ref) : Z := indexOfFrom 0 l doc.

Record BatchState := {
  currentBatchSize : nat;
  consecutiveFailures : nat;
  consecutiveSuccesses : nat;
  queue : list ref;
  results : gmap Z (list float)
}.

Section BatchEmbedding.

(** The heap: the text of the chunk behind a reference. *)
Variable chunkText : ref -> string.
(** The embedding provider: the outcome of the call number [attempt] made
    with [text] for the chunk [doc] during loop iteration [iteration]. *)
Variable embedQuery : forall (text : string) (iteration : nat) (doc : ref) (attempt : nat),
  Outcome (list float).
Variable random : nat -> Q.
(** Whether the [try] block of loop iteration [iteration] throws before
    storing its results. Embedding failures never make it throw: each is
    caught by the [.catch] of its own promise. *)
Variable tryBlockThrows : nat -> bool.
Variable config : BatchConfig.
Variable enhancedDocs : list ref.

(** One element of [batch.map(...)]: the retried call with its [.catch]
    that substitutes the zero vector. *)
Definition embedChunk (iteration : nat) (doc : ref) : Z * list float :=
  match run_result
          (retryWithAdvancedBackoff
             (fun attempt =>
                match embedQuery (chunkText doc) iteration doc attempt with
                | Resolved embedding => Resolved (indexOf enhancedDocs doc, embedding)
                | Rejected e => Rejected e
                end)
             random chunkRetryOptions) with
  | Returned r => r
  | Threw _ => (indexOf enhancedDocs doc, zeroEmbedding)
  end.

(** The adjustment of the batch size at the top of the loop body. *)
Definition adjustBatchSize (st : BatchState) : BatchState :=
  if (0 <? consecutiveFailures st)%nat then
    {| currentBatchSize := Nat.max (minBatchSize config) (currentBatchSize st / 2);
       consecutiveFailures := 0;
       consecutiveSuccesses := consecutiveSuccesses st;
       queue := queue st;
       results := results st |}
  else if (3 <=? consecutiveSuccesses st)%nat then
    {| currentBatchSize := Nat.min (initialBatchSize config) (currentBatchSize st + 1);
       consecutiveFailures := consecutiveFailures st;
       consecutiveSuccesses := 0;
       queue := queue st;
       results := results st |}
  else st.

(** [batchEmbeddings.forEach(({index, embedding}) => results.set(index, embedding))] *)
Definition storeResults (batchEmbeddings : list (Z * list float))
    (res : gmap Z (list float)) : gmap Z (list float) :=
  List.fold_left (fun m r => <[fst r := snd r]> m) batchEmbeddings res.

(** One iteration of [while (queue.length > 0)]. *)
Definition batchStep (iteration : nat) (st0 : BatchState) : BatchState :=
  let st := adjustBatchSize st0 in
  let batchSize := Nat.min (currentBatchSize st) (length (queue st)) in
  let batch := take batchSize (queue st) in
  let remaining := drop batchSize (queue st) in
  if tryBlockThrows iteration then
    let failures := S (consecutiveFailures st) in
    {| currentBatchSize :=
         if (3 <=? failures)%nat then minBatchSize config else currentBatchSize st;
       consecutiveFailures := failures;
       consecutiveSuccesses := consecutiveSuccesses st;
       queue := remaining ++ batch;
       results := results st |}
  else
    {| currentBatchSize := currentBatchSize st;
       consecutiveFailures := 0;
       consecutiveSuccesses := S (consecutiveSuccesses st);
       queue := remaining;
       results := storeResults (List.map (embedChunk iteration) batch) (results st) |}.

(** The [while] loop, with [fuel] bounding its iterations. *)
Fixpoint batchLoop (fuel iteration : nat) (st : BatchState) : option (gmap Z (list float)) :=
  match fuel with
  | O => None
  | S fuel' =>
      match queue st with
      | [] => Some (results st)
      | _ => batchLoop fuel' (S iteration) (batchStep iteration st)
      end
  end.

Definition initialBatchState : BatchState :=
  {| currentBatchSize := initialBatchSize config;
     consecutiveFailures := 0;
     consecutiveSuccesses := 0;
     queue := enhancedDocs;
     results := ∅ |}.

(** [enhancedDocs.map((_, index) => results.get(index) || zeros)] *)
Definition finalEmbeddings (res : gmap Z (list float)) : list (list float) :=
  imap (fun index _ => from_option id zeroEmbedding (res !! Z.of_nat index)) enhancedDocs.

(** [None] when [fuel] iterations do not empty the queue. *)
Definition processDocumentChunksInBatches (fuel : nat) : option (list (list float)) :=
  finalEmbeddings <$> batchLoop fuel 0 initialBatchState.

End BatchEmbedding.

(** ** Asynchronous computations that call collaborators and may throw *)

(** The calls to external collaborators a query makes. *)
Inductive Event :=
| EvSessionAccess (sessionId : string)
| EvMemorySearch (variation : string) (k : nat)
| EvMmrSearch (firstVariation : option string) (k fetchK : nat)
| EvEmbedQuery (text : string)
| EvVectorSearch (queryEmbedding : list float) (limit : nat)
| EvFallbackSearch (text : string)
| EvLlmCall (prompt : string) (history : list GeminiTurn)
| EvTrackPerformance (query : string) (success : bool).

(** An asynchronous computation appends the calls it makes to the log
    and settles. *)
Definition Async (A : Type) : Type := list Event -> Outcome A * list Event.

Definition ret {A : Type} (a : A) : Async A := fun log => (Resolved a, log).

Definition throw {A : Type} (e : ErrorObj) : Async A := fun log => (Rejected e, log).

Definition bind {A B : Type} (m : Async A) (k : A -> Async B) : Async B :=
  fun log =>
    match m log with
    | (Resolved a, log') => k a log'
    | (Rejected e, log') => (Rejected e, log')
    end.

(** [try { m } catch (e) { handler(e) }] *)
Definition tryCatch {A : Type} (m : Async A) (handler : ErrorObj -> Async A) : Async A :=
  fun log =>
    match m log with
    | (Resolved a, log') => (Resolved a, log')
    | (Rejected e, log') => handler e log'
    end.

(** [try { m } finally { cleanup }], for a cleanup that does not throw. *)
Definition tryFinally {A : Type} (m : Async A) (cleanup : Outcome A -> list Event) : Async A :=
  fun log =>
    let '(r, log') := m log in (r, log' ++ cleanup r).

(** A call to a collaborator: logged, then settled as the collaborator
    answers. *)
Definition call {A : Type} (ev : Event) (answer : Outcome A) : Async A :=
  fun log => (answer, log ++ [ev]).

Notation "'let*' x ':=' m 'in' k" := (bind m (fun x => k))
  (at level 10, x name, m at level 100, k at level 200).

Definition run {A : Type} (m : Async A) : Outcome A * list Event := m [].

(** ** The retriever and the answer generator *)

(** The in-memory vector store, as far as the retriever uses it. *)
Record VectorStore := {
  similaritySearch : string -> nat -> Outcome (list Doc);
  maximalMarginalRelevance : option string -> nat -> nat -> Outcome (list Doc)
}.

Record AIConfig := {
  temperature : Q;
  maxOutputTokens : nat;
  topP : Q;
  topK : nat;
  model : string;
  responseStyle : string;
  showThinkingProcess : bool
}.

Record QueryResult := {
  text : string;
  thinkingProcess : option string;
  usedConfig : AIConfig;
  citations : list Citation;
  sessionId : option string
}.

(** The options of the query-embedding call in
    [getRelevantDocsFromDatabase]. *)
Definition queryRetryOptions : RetryOptions :=
  {| maxRetries := 6; initialDelay := 1000; maxDelay := 15000;
     retryStatusCodes := [429; 500; 502; 503; 504]%Z |}.

(** What awaiting the model gives, as far as the query reads it: the
    text, read with [result.response ? result.response.text() :
    result.text()], a call that may throw. *)
Record GeminiResult := {
  response_text : Outcome string
}.

Definition noDocumentsMessage : string :=
  "Tidak ada dokumen yang diproses. Silakan unggah minimal 1 file PDF terlebih dahulu.".

Definition noRelevantInformationMessage : string :=
  "Tidak dapat menemukan informasi yang relevan dalam dokumen yang diunggah. "
  +:+ "Silakan coba pertanyaan lain atau unggah dokumen yang sesuai.".

Definition referenceInstructions : string :=
  JsString.nl +:+ JsString.nl
  +:+ "Selalu akhiri respons Anda dengan bagian REFERENSI yang menyebutkan dokumen asal "
  +:+ "dan halaman (jika ada). Format referensi harus seperti ini:"
  +:+ JsString.nl +:+ JsString.nl +:+ "REFERENSI:" +:+ JsString.nl
  +:+ "[1] Nama File A (halaman X)" +:+ JsString.nl +:+ "[2] Nama File B (halaman Y)".

Section Retrieval.

(** Module state read by a query. *)
Variable vectorStore : option VectorStore.
Variable currentSessionId : option string.
(** The embedding provider built from the API key (the outcome of its
    call number [attempt] for a text), and the module-level one. *)
Variable embedQuery : string -> nat -> Outcome (list float).
Variable moduleEmbeddings : option (string -> Outcome (list float)).
Variable random : nat -> Q.
(** The persistent tier and the conversion of its rows to documents. *)
Context {Row : Type}.
Variable vectorSearch : list float -> list string -> nat -> Outcome (list Row).
Variable rowsToDocuments : list Row -> Outcome (list Doc).
Variable fallbackNonVectorSearch : string -> list Doc.
(** The LLM. *)
Variable generateContent : string -> list GeminiTurn -> Outcome GeminiResult.
(** Prompt building and answer post-processing that no property below
    depends on. *)
Variable isMathQuery : string -> bool.
Variable generateQueryVariations : string -> bool -> list string.
Variable buildSystemPrompt : bool -> bool -> string -> string.
Variable addMathInstructions : string.
Variable extractThinkingProcess : string -> bool -> string * option string.

(** The [for ... of queryVariations] loop of [getRelevantDocsFromMemory]. *)
Fixpoint tryVariations (store : VectorStore) (variations : list string)
    (allRelevantDocs : list Doc) : Async (list Doc) :=
  match variations with
  | [] => ret allRelevantDocs
  | variation :: rest =>
      let* found :=
        tryCatch (call (EvMemorySearch variation 7) (similaritySearch store variation 7))
                 (fun _ => ret [])
      in
      match found with
      | [] => tryVariations store rest allRelevantDocs
      | _ =>
          let all' := allRelevantDocs ++ found in
          if (5 <=? length all')%nat then ret all'
          else tryVariations store rest all'
      end
  end.

Definition getRelevantDocsFromMemory (queryVariations : list string) : Async (list Doc) :=
  match vectorStore with
  | None => ret []
  | Some store =>
      let* allRelevantDocs := tryVariations store queryVariations [] in
      let* allRelevantDocs :=
        match allRelevantDocs with
        | [] =>
            tryCatch
              (let* mmrResults :=
                 call (EvMmrSearch (head queryVariations) 5 20)
                      (maximalMarginalRelevance store (head queryVariations) 5 20) in
               ret (allRelevantDocs ++ mmrResults))
              (fun _ => ret allRelevantDocs)
        | _ => ret allRelevantDocs
        end in
      ret (deduplicateDocuments allRelevantDocs)
  end.

(** [getRelevantDocsFromDatabase(query, apiKey)] with the default
    [documentIds = []] and [limit = 10]; [hasApiKey] tells whether the
    key is truthy. *)
Definition getRelevantDocsFromDatabase (query : string) (hasApiKey : bool) : Async (list Doc) :=
  tryCatch
    (let* queryEmbedding :=
       if hasApiKey then
         call (EvEmbedQuery query)
              (Resolved
                 match run_result (retryWithAdvancedBackoff (embedQuery query) random
                                                            queryRetryOptions) with
                 | Returned v => Some v
                 | Threw _ => None
                 end)
       else
         match moduleEmbeddings with
         | Some provider =>
             tryCatch (let* v := call (EvEmbedQuery query) (provider query) in ret (Some v))
                      (fun _ => ret None)
         | None => ret None
         end in
     match queryEmbedding with
     | None => call (EvFallbackSearch query) (Resolved (fallbackNonVectorSearch query))
     | Some v =>
         let* rows := call (EvVectorSearch v 10) (vectorSearch v [] 10) in
         match rows with
         | [] => ret []
         | _ => fun log => (rowsToDocuments rows, log)
         end
     end)
    (fun _ => ret []).

(** [generateResponseFromGemini]: a failure of the model is rethrown
    with its message prefixed. With or without history the model is
    called once. *)
Definition generateResponseFromGemini (prompt : string) (chatHistory : list GeminiTurn)
    : Async GeminiResult :=
  tryCatch (call (EvLlmCall prompt chatHistory) (generateContent prompt chatHistory))
           (fun error =>
              throw (newError ("Failed to generate response: "
                               +:+ from_option id "Unknown error"
                                     (orString (err_message error) None)))).

Definition promptFor (query context : string) (math : bool) (config : AIConfig) : string :=
  buildSystemPrompt math (showThinkingProcess config) (responseStyle config)
  +:+ JsString.nl +:+ "Gunakan informasi berikut untuk membantu menjawab: " +:+ JsString.nl
  +:+ context +:+ JsString.nl +:+ JsString.nl
  +:+ "Pertanyaan: " +:+ query
  +:+ (if math then addMathInstructions else "")
  +:+ referenceInstructions.

(** The retrieval steps of [queryWithRAG]: the in-memory tier over the
    query variations, then, when it gave fewer than 3 documents, the
    persistent tier with the query itself. *)
Definition retrieveRelevantDocs (query : string) (hasApiKey : bool) : Async (list Doc) :=
  let queryVariations := generateQueryVariations query (isMathQuery query) in
  let* relevantDocs :=
    tryCatch (getRelevantDocsFromMemory queryVariations) (fun _ => ret []) in
  if (length relevantDocs <? 3)%nat then
    tryCatch
      (let* dbDocs := getRelevantDocsFromDatabase query hasApiKey in
       ret (deduplicateDocuments (relevantDocs ++ dbDocs)))
      (fun _ => ret relevantDocs)
  else ret relevantDocs.

(** [queryWithRAG]; [config] is the merged configuration, and
    [conversationHistory] is [None] when the argument is not an array. *)
Definition queryWithRAG (query : string) (hasApiKey : bool) (config : AIConfig)
    (conversationHistory : option (list Message)) : Async QueryResult :=
  tryFinally
    (tryCatch
       (let* _ :=
          match currentSessionId with
          | Some sid => call (EvSessionAccess sid) (Resolved tt)
          | None => ret tt
          end in
        match vectorStore with
        | None => throw (newError noDocumentsMessage)
        | Some _ =>
            let math := isMathQuery query in
            let* relevantDocs := retrieveRelevantDocs query hasApiKey in
            match relevantDocs with
            | [] => throw (newError noRelevantInformationMessage)
            | _ =>
                let '(context, cited) := formatContextFromDocs relevantDocs (Some []) in
                let chatHistory := formatChatHistory conversationHistory in
                let* result :=
                  generateResponseFromGemini (promptFor query context math config)
                                             chatHistory in
                let* responseText := fun log => (response_text result, log) in
                let '(finalResponse, thinking) :=
                  extractThinkingProcess responseText (showThinkingProcess config) in
                ret {| text := ensureReferences finalResponse cited;
                       thinkingProcess := thinking;
                       usedConfig := config;
                       citations := from_option id [] cited;
                       sessionId := currentSessionId |}
            end
        end)
       (fun error =>
          throw (newError ("Failed to query: "
                           +:+ from_option id "undefined" (err_message error)))))
    (fun r => [EvTrackPerformance query (match r with Resolved _ => true | Rejected _ => false end)]).

End Retrieval.

(** ** The storage loop of [processDocumentsForRAG] *)

(** The metadata of a chunk as [createOptimizedChunks] leaves it, as far
    as the storage loop reads it; [meta_position] is the field the loop
    adds. *)
Record ChunkMetadata := {
  meta_documentId : string;
  meta_chunkIndex : nat;
  meta_position : option nat
}.

Record EnhancedDoc := {
  enhanced_pageContent : string;
  enhanced_metadata : ChunkMetadata
}.

(** [batchDocs.map((doc, idx) => ({ content: doc.pageContent,
    metadata: { ...doc.metadata, position: i + idx } }))] *)
Definition chunksForStorage (i : nat) (batchDocs : list EnhancedDoc)
    : list (ChunkInput ChunkMetadata) :=
  imap (fun idx doc =>
          {| chunk_content := Some (enhanced_pageContent doc);
             chunk_pageContent := None;
             chunk_metadata :=
               Some {| meta_documentId := meta_documentId (enhanced_metadata doc);
                       meta_chunkIndex := meta_chunkIndex (enhanced_metadata doc);
                       meta_position := Some (i + idx) |} |})
       batchDocs.

(** The embeddings of a batch as the argument of [storeDocumentChunks]. *)
Definition embeddingCells (batchEmbeddings : list (list float)) : list EmbeddingCell :=
  List.map (fun v => CellArray (List.map VNumber v)) batchEmbeddings.

(** One call of [storeDocumentChunks]: the document id it was given and
    the rows it handed to the upsert. The call then deletes the rows of
    that document whose [chunk_index] is not below the number of rows. *)
Record StoreCall := {
  call_documentId : string;
  call_rows : list UpsertRow
}.

Section DocumentStorage.

Variable sanitizeString : string -> string.
Variable stringifyMetadata : option ChunkMetadata -> string.
(** The signed-in user, if any. *)
Variable userId : option string.
(** [processDocumentChunksInBatches] on the batch that starts at
    position [i]. *)
Variable embedBatch : nat -> list EnhancedDoc -> Outcome (list (list float)).

(** The body of the loop after the embeddings are there:
    [storeDocumentChunks(chunksForStorage[0].metadata.documentId,
    chunksForStorage, batchEmbeddings)]. *)
Definition storeBatch (i : nat) (batchDocs : list EnhancedDoc)
    (batchEmbeddings : list (list float)) : Outcome StoreCall :=
  match chunksForStorage i batchDocs with
  | [] => Rejected (newError "Cannot read properties of undefined (reading 'metadata')")
  | first :: rest =>
      let documentId := from_option meta_documentId "undefined" (chunk_metadata first) in
      match storeDocumentChunks sanitizeString stringifyMetadata userId documentId
              (Some (first :: rest)) (Some (embeddingCells batchEmbeddings)) with
      | Resolved batches => Resolved {| call_documentId := documentId;
                                        call_rows := concat batches |}
      | Rejected e => Rejected e
      end
  end.

(** [for (let i = 0; i < enhancedDocs.length; i += 50)], from [i] on:
    the calls of [storeDocumentChunks] completed, and how the loop ends. *)
Fixpoint storeChunkBatchesFrom (fuel i : nat) (enhancedDocs : list EnhancedDoc)
    : list StoreCall * Outcome unit :=
  match fuel with
  | O => ([], Resolved tt)
  | S fuel' =>
      if (i <? length enhancedDocs)%nat then
        let batchDocs := take 50 (drop i enhancedDocs) in
        match embedBatch i batchDocs with
        | Rejected e => ([], Rejected e)
        | Resolved batchEmbeddings =>
            match storeBatch i batchDocs batchEmbeddings with
            | Rejected e => ([], Rejected e)
            | Resolved call =>
                let '(calls, r) := storeChunkBatchesFrom fuel' (i + 50) enhancedDocs in
                (call :: calls, r)
            end
        end
      else ([], Resolved tt)
  end.

Definition storeChunkBatches (enhancedDocs : list EnhancedDoc) : list StoreCall * Outcome unit :=
  storeChunkBatchesFrom (length enhancedDocs) 0 enhancedDocs.

End DocumentStorage.

(** The table [document_chunks], whose rows are unique in
    [(document_id, chunk_index)]: the conflict target of the upsert. *)
Abbreviation ChunkTable := (gmap (string * nat) UpsertRow).

(** [upsert(batch, { onConflict: 'document_id, chunk_index',
    ignoreDuplicates: false })], when it succeeds. *)
Definition upsertRows (rows : list UpsertRow) (table : ChunkTable) : ChunkTable :=
  List.fold_left (fun t row => <[(row_document_id row, row_chunk_index row) := row]> t)
                 rows table.

(** [delete().eq('document_id', documentId).gte('chunk_index', from)] *)
Definition deleteChunksFrom (documentId : string) (from : nat) (table : ChunkTable)
    : ChunkTable :=
  filter (fun entry => ~ (entry.1.1 = documentId /\ from <= entry.1.2)) table.

(** The table after a call of [storeDocumentChunks] whose requests all
    succeed. *)
Definition applyStoreCall (table : ChunkTable) (call : StoreCall) : ChunkTable :=
  deleteChunksFrom (call_documentId call) (length (call_rows call))
                   (upsertRows (call_rows call) table).

(** ** Batched embedding with a fixed batch size ([processEmbeddingsInBatches]) *)

(** The options of the embedding calls in this function. *)
Definition embeddingRetryOptions : RetryOptions :=
  {| maxRetries := 5; initialDelay := 1000; maxDelay := 10000;
     retryStatusCodes := [429; 500; 502; 503; 504]%Z |}.

Section FixedBatches.

(** The embedding provider: the outcome of the call number [attempt] made
    with [text] for the chunk at position [position]; and the values of
    [Math.random()] during the attempts for that chunk. *)
Variable embedQuery : forall (text : string) (position attempt : nat), Outcome (list float).
Variable random : nat -> nat -> Q.

(** One element of [batchTexts.map(async (text, batchIdx) => ...)]: the
    retried call, and the zero vector from its [catch]. *)
Definition embedText (position : nat) (text : string) : list float :=
  match run_result (retryWithAdvancedBackoff (embedQuery text position) (random position)
                                             embeddingRetryOptions) with
  | Returned embedding => embedding
  | Threw _ => zeroEmbedding
  end.

(** [for (let i = 0; i < chunks.length; i += 3)], from [i] on. Logging
    and timers apart, the [try] block of a batch only awaits promises
    that have their own [catch], so that it does not throw. *)
Fixpoint processEmbeddingsFrom (fuel i : nat) (chunks : list Doc)
    (allEmbeddings : list (list float)) : list (list float) :=
  match fuel with
  | O => allEmbeddings
  | S fuel' =>
      if (i <? length chunks)%nat then
        let batch := take 3 (drop i chunks) in
        let batchTexts := List.map pageContent batch in
        let batchResults := imap (fun batchIdx text => embedText (i + batchIdx) text)
                                 batchTexts in
        processEmbeddingsFrom fuel' (i + 3) chunks (allEmbeddings ++ batchResults)
      else allEmbeddings
  end.

Definition processEmbeddingsInBatches (chunks : list Doc) : list (list float) :=
  processEmbeddingsFrom (length chunks) 0 chunks [].

End FixedBatches.

(** ** Retry on every error ([retryWithBackoff]) *)

Section SimpleRetry.

Context {T : Type}.
(** The operation, as the outcome of its invocation number [attempt]
    (from 0), and the values [Math.random()] returns. *)
Variable operation : nat -> Outcome T.
Variable random : nat -> Q.

(** [Math.pow(2, attempt) * 1000 + Math.random() * 1000], for the value
    [r] drawn. *)
Definition backoffDelay (attempt : nat) (r : Q) : Q :=
  inject_Z (2 ^ Z.of_nat attempt) * 1000 + r * 1000.

(** The [for] loop from [attempt] on, with [remaining = maxRetries -
    attempt] iterations left. *)
Fixpoint retryWithBackoffFrom (remaining attempt : nat) (lastError : option ErrorObj)
    : RetryRun T :=
  match remaining with
  | O => {| run_result := Threw lastError; run_calls := 0; run_delays := [] |}
  | S remaining' =>
      match operation attempt with
      | Resolved v => {| run_result := Returned v; run_calls := 1; run_delays := [] |}
      | Rejected error =>
          let rest := retryWithBackoffFrom remaining' (S attempt) (Some error) in
          {| run_result := run_result rest;
             run_calls := S (run_calls rest);
             run_delays := backoffDelay attempt (random attempt) :: run_delays rest |}
      end
  end.

Definition retryWithBackoff (maxRetries : nat) : RetryRun T :=
  retryWithBackoffFrom maxRetries 0 None.

End SimpleRetry.

(** ** Sanitisation of stored text ([sanitizeString]) *)

(** A code unit in [\u0000-\u001F] or [\u007F-\u009F]. The line and
    paragraph separators of the same character class, like the
    surrogates the next two replacements of [sanitizeString] look for,
    lie above the code units a [string] holds here. *)
Definition isControlChar (c : ascii) : bool :=
  let n := nat_of_ascii c in
  (n <=? 31)%nat || ((127 <=? n)%nat && (n <=? 159)%nat).

Definition isHexDigit (c : ascii) : bool :=
  let n := nat_of_ascii c in
  ((48 <=? n)%nat && (n <=? 57)%nat)
  || ((97 <=? n)%nat && (n <=? 102)%nat)
  || ((65 <=? n)%nat && (n <=? 70)%nat).

Definition backslash : ascii := ascii_of_nat 92.

(** [.replace(/\\u[0-9a-fA-F]{4}/g, '')]: the matches are found from left
    to right and what a removal brings together is not looked at again. *)
Fixpoint removeUnicodeEscapes (s : string) : string :=
  match s with
  | EmptyString => EmptyString
  | String c tail =>
      match tail with
      | String u (String h1 (String h2 (String h3 (String h4 rest)))) =>
          if Ascii.eqb c backslash && Ascii.eqb u "u"
             && isHexDigit h1 && isHexDigit h2 && isHexDigit h3 && isHexDigit h4
          then removeUnicodeEscapes rest
          else String c (removeUnicodeEscapes tail)
      | _ => String c (removeUnicodeEscapes tail)
      end
  end.

(** [sanitizeString] on a text whose code units are all below 256, as a
    [string] holds them: the first replacement finds the control
    characters, the second and the third find nothing, the fourth removes
    the escape sequences. [Utf16.sanitizeString] below is the function
    on every text, and agrees with this one on such texts. *)
Definition sanitizeString (str : string) : string :=
  removeUnicodeEscapes
    (JsString.mapChars (fun c => if isControlChar c then " "%char else c) str).

(** The same function on all of UTF-16: a text as the list of its code
    units. *)
Module Utf16.

(** [\u0000-\u001F\u007F-\u009F\u2028\u2029] *)
Definition isControlUnit (u : N) : bool :=
  ((u <=? 0x1F) || ((0x7F <=? u) && (u <=? 0x9F)) || (u =? 0x2028) || (u =? 0x2029))%N.

(** [\uD800-\uDFFF\uFFFE\uFFFF] *)
Definition isProblematicUnit (u : N) : bool :=
  (((0xD800 <=? u) && (u <=? 0xDFFF)) || (u =? 0xFFFE) || (u =? 0xFFFF))%N.

(** [\uD800-\uDBFF] and [\uDC00-\uDFFF] *)
Definition isHighSurrogate (u : N) : bool := ((0xD800 <=? u) && (u <=? 0xDBFF))%N.

Definition isLowSurrogate (u : N) : bool := ((0xDC00 <=? u) && (u <=? 0xDFFF))%N.

(** [0-9a-fA-F] *)
Definition isHexUnit (u : N) : bool :=
  (((48 <=? u) && (u <=? 57)) || ((97 <=? u) && (u <=? 102)) || ((65 <=? u) && (u <=? 70)))%N.

(** The space, the question mark, the backslash and the letter u. *)
Definition space : N := 32.
Definition questionMark : N := 63.
Definition backslashUnit : N := 92.
Definition letterU : N := 117.

(** [.replace(/[\uD800-\uDBFF][\uDC00-\uDFFF]/g, '?')] *)
Fixpoint replaceSurrogatePairs (s : list N) : list N :=
  match s with
  | [] => []
  | high :: tail =>
      match tail with
      | low :: rest =>
          if isHighSurrogate high && isLowSurrogate low
          then questionMark :: replaceSurrogatePairs rest
          else high :: replaceSurrogatePairs tail
      | [] => [high]
      end
  end.

(** [.replace(/\\u[0-9a-fA-F]{4}/g, '')] *)
Fixpoint removeUnicodeEscapes (s : list N) : list N :=
  match s with
  | [] => []
  | c :: tail =>
      match tail with
      | u :: h1 :: h2 :: h3 :: h4 :: rest =>
          if (c =? backslashUnit)%N && (u =? letterU)%N
             && isHexUnit h1 && isHexUnit h2 && isHexUnit h3 && isHexUnit h4
          then removeUnicodeEscapes rest
          else c :: removeUnicodeEscapes tail
      | _ => c :: removeUnicodeEscapes tail
      end
  end.

(** The four replacements of [sanitizeString], in their order. *)
Definition sanitizeString (str : list N) : list N :=
  removeUnicodeEscapes
    (replaceSurrogatePairs
       (List.filter (fun u => negb (isProblematicUnit u))
          (List.map (fun u => if isControlUnit u then space else u) str))).

(** The code units of a text that holds none above 255. *)
Definition ofString (s : string) : list N :=
  List.map N_of_ascii (list_ascii_of_string s).

End Utf16.

(** ** Keyword search ([performTextSearch], [fallbackNonVectorSearch]) *)

(** [\w] *)
Definition isWordChar (c : ascii) : bool :=
  let n := nat_of_ascii c in
  ((48 <=? n)%nat && (n <=? 57)%nat)
  || ((65 <=? n)%nat && (n <=? 90)%nat)
  || (n =? 95)%nat
  || ((97 <=? n)%nat && (n <=? 122)%nat).

(** [\s], among the code units a [string] holds here: tab, line feed,
    vertical tab, form feed, carriage return, space, no-break space. *)
Definition isWhiteSpace (c : ascii) : bool :=
  let n := nat_of_ascii c in
  ((9 <=? n)%nat && (n <=? 13)%nat) || (n =? 32)%nat || (n =? 160)%nat.

(** [s.split(/\s+/)], scanning [s] with the word read so far; [inSeparator]
    tells whether the last character read was white space. A separator
    at either end leaves an empty string there. *)
Fixpoint splitRuns (s word : string) (inSeparator : bool) : list string :=
  match s with
  | EmptyString => [word]
  | String c rest =>
      if isWhiteSpace c
      then if inSeparator then splitRuns rest "" true else word :: splitRuns rest "" true
      else splitRuns rest (word +:+ String c "") false
  end.

Definition splitWhiteSpace (s : string) : list string := splitRuns s "" false.

Definition stopWords : list string :=
  ["and"; "the"; "for"; "with"; "yang"; "dari"; "atau"; "dan"; "adalah"].

(** [query.toLowerCase().replace(/[^\w\s]/g, ' ').split(/\s+/)
      .filter(word => word.length > 2 && !stopWords.includes(word))].
    The letters outside ASCII, which [toLowerCase] leaves alone here, are
    no word characters: the replacement turns them into spaces either
    way. *)
Definition searchKeywords (query : string) : list string :=
  List.filter
    (fun word => (2 <? String.length word)%nat && negb (existsb (String.eqb word) stopWords))
    (splitWhiteSpace
       (JsString.mapChars (fun c => if isWordChar c || isWhiteSpace c then c else " "%char)
                          (JsString.toLowerCase query))).

(** [`content.ilike.%${keyword}%`] *)
Definition ilikeFilter (keyword : string) : string := "content.ilike.%" +:+ keyword +:+ "%".

(** A row of [document_chunks] as the keyword searches select it.
    [chunk_row_metadata] is [None] for [null] and for a JSON string, whose
    spread has no named field. *)
Record ChunkRow := {
  chunk_row_id : string;
  chunk_row_content : string;
  chunk_row_document_id : string;
  chunk_row_metadata : option Metadata
}.

(** What awaiting a database request gives: [{ data, error }]. *)
Inductive DbReply (A : Type) : Type :=
| DbData (data : option (list A))
| DbError (error : ErrorObj).

Arguments DbData {A} data.
Arguments DbError {A} error.

(** [[...new Set(ids)]] *)
Fixpoint uniqueInOrder (seen ids : list string) : list string :=
  match ids with
  | [] => []
  | id :: rest =>
      if existsb (String.eqb id) seen then uniqueInOrder seen rest
      else id :: uniqueInOrder (seen ++ [id]) rest
  end.

(** What [documentMap[id] || 'Unknown Document'] reads: a title, or the
    member of that name inherited from [Object.prototype]. *)
Inductive TitleValue :=
| TitleText (title : string)
| TitleInherited (member : string).

Definition titleOf (documentMap : JsObject.t) (id : string) : TitleValue :=
  match JsObject.ownLookup documentMap id with
  | Some title => TitleText (if JsString.truthy title then title else "Unknown Document")
  | None =>
      if existsb (String.eqb id) JsObject.prototypeNames then TitleInherited id
      else TitleText "Unknown Document"
  end.

Record TextSearchHit := {
  hit_item : ChunkRow;
  hit_document_title : TitleValue;
  hit_similarity : float
}.

(** The requests of [performTextSearch]. An empty [documentIds] adds no
    filter on the document. *)
Inductive TextSearchRequest :=
| SelectChunks (userId : string) (documentIds : list string) (orFilter : string) (limit : nat)
| SelectTitles (ids : list string).

Definition floatOfNat (n : nat) : float :=
  PrimFloat.of_uint63 (Uint63.of_Z (Z.of_nat n)).

(** The literal [0.05], which denotes the binary64 number nearest to it. *)
Definition fiveHundredths : float := 0x1.999999999999ap-5%float.

Section TextSearch.

(** The database: the chunk query, and the titles of the documents
    found ([None] when [data] is [null]). Either may reject. *)
Variable selectChunks : string -> list string -> string -> nat -> Outcome (DbReply ChunkRow).
Variable selectTitles : list string -> Outcome (option (list (string * string))).

(** [data.map((item, index) => ({ ...item, document_title: ...,
    similarity: 0.5 - (index * 0.05) }))] *)
Definition attachTitles (documents : option (list (string * string))) (data : list ChunkRow)
    : list TextSearchHit :=
  let documentMap :=
    List.fold_left (fun m doc => JsObject.set m (fst doc) (snd doc))
                   (from_option id [] documents) JsObject.empty in
  imap (fun index item =>
          {| hit_item := item;
             hit_document_title := titleOf documentMap (chunk_row_document_id item);
             hit_similarity := (0.5 - floatOfNat index * fiveHundredths)%float |})
       data.

(** The rows returned and the requests sent; whatever is thrown inside
    the [try] block ends in [return []]. *)
Definition performTextSearch (userId : option string) (queryText : string)
    (documentIds : list string) (limit : nat)
    : list TextSearchHit * list TextSearchRequest :=
  match userId with
  | None => ([], [])
  | Some uid =>
      match searchKeywords queryText with
      | [] => ([], [])
      | keywords =>
          let filterQuery := JsString.join " or " (List.map ilikeFilter (take 3 keywords)) in
          let request := SelectChunks uid documentIds filterQuery limit in
          match selectChunks uid documentIds filterQuery limit with
          | Rejected _ => ([], [request])
          | Resolved (DbError _) => ([], [request])
          | Resolved (DbData None) => ([], [request])
          | Resolved (DbData (Some [])) => ([], [request])
          | Resolved (DbData (Some data)) =>
              let ids := uniqueInOrder [] (List.map chunk_row_document_id data) in
              match selectTitles ids with
              | Rejected _ => ([], [request; SelectTitles ids])
              | Resolved documents =>
                  (attachTitles documents data, [request; SelectTitles ids])
              end
          end
      end
  end.

End TextSearch.

(** The requests of [fallbackNonVectorSearch]. *)
Inductive FallbackRequest :=
| SelectChunksIn (activeDocIds : list string) (filter : string) (limit : nat)
| SimilaritySearch (query : string) (k : nat).

Definition emptyMetadata : Metadata :=
  {| source := None; document_title := None; page := None; pageNumber := None |}.

(** [new Document({ pageContent: chunk.content, metadata: {
    ...chunk.metadata, documentId: chunk.document_id,
    source: chunk.metadata?.source || 'unknown', fallbackSearch: true } })],
    as far as the fields of [Metadata] go. *)
Definition documentOfRow (chunk : ChunkRow) : Doc :=
  let m := from_option id emptyMetadata (chunk_row_metadata chunk) in
  {| pageContent := chunk_row_content chunk;
     content := None;
     metadata :=
       Some {| source := orString (source m) (Some "unknown");
               document_title := document_title m;
               page := page m;
               pageNumber := pageNumber m |} |}.

(** [keywords.reduce((total, keyword) => total +
    (content.includes(keyword) ? 1 : 0), 0)] for the lowered content. *)
Definition matchScore (keywords : list string) (doc : Doc) : nat :=
  let lowered := JsString.toLowerCase (pageContent doc) in
  List.fold_left (fun total keyword =>
                    total + (if JsString.includes lowered keyword then 1 else 0))
                 keywords 0.

(** [items.sort((a, b) => b.score - a.score)]: the sort is stable, so that
    it is the insertion, from the last item to the first, of each item
    before the first that scores less. *)
Fixpoint insertByScore (item : Doc * nat) (sorted : list (Doc * nat)) : list (Doc * nat) :=
  match sorted with
  | [] => [item]
  | other :: rest =>
      if (snd item <? snd other)%nat then other :: insertByScore item rest
      else item :: sorted
  end.

Definition sortByScore (items : list (Doc * nat)) : list (Doc * nat) :=
  List.fold_right insertByScore [] items.

(** [item.doc.metadata = { ...item.doc.metadata, fallbackSearch: true,
    matchScore: item.score }], as far as the fields of [Metadata] go. *)
Definition markFallback (item : Doc * nat) : Doc :=
  {| pageContent := pageContent (fst item);
     content := content (fst item);
     metadata := Some (from_option id emptyMetadata (metadata (fst item))) |}.

(** The lexical search over what the in-memory store returns for the
    empty query. *)
Definition lexicalSearch (keywords : list string) (allDocs : list Doc) : list Doc :=
  let scoredDocs := List.map (fun doc => (doc, matchScore keywords doc)) allDocs in
  List.map markFallback
    (take 5 (sortByScore (List.filter (fun item => (0 <? snd item)%nat) scoredDocs))).

Section FallbackSearch.

Variable selectChunksIn : list string -> string -> nat -> Outcome (DbReply ChunkRow).
Variable vectorStore : option VectorStore.

(** [activeDocIds] is [Array.from(documentIds)]. The documents returned
    and the requests sent; a rejection of the database request is caught
    and leads to the in-memory search, one of that search to [return []]. *)
Definition fallbackNonVectorSearch (activeDocIds : list string) (query : string)
    : list Doc * list FallbackRequest :=
  match activeDocIds with
  | [] => ([], [])
  | _ =>
      let keywords := searchKeywords query in
      let filter := JsString.join " or " (List.map ilikeFilter keywords) in
      let request := SelectChunksIn activeDocIds filter 10 in
      match selectChunksIn activeDocIds filter 10 with
      | Resolved (DbData (Some (chunk :: chunks))) =>
          (List.map documentOfRow (chunk :: chunks), [request])
      | _ =>
          match vectorStore with
          | None => ([], [request])
          | Some store =>
              match similaritySearch store "" 100 with
              | Rejected _ => ([], [request; SimilaritySearch "" 100])
              | Resolved allDocs =>
                  (lexicalSearch keywords allDocs, [request; SimilaritySearch "" 100])
              end
          end
      end
  end.

End FallbackSearch.

(** ** Performance metrics ([trackQueryPerformance]) *)

(** [new RegExp(alternatives.join('|'), 'i').test(s)] for alternatives
    made of ASCII letters and spaces. *)
Definition testInsensitive (alternatives : list string) (s : string) : bool :=
  existsb (fun alternative =>
             JsString.includes (JsString.canonicalize s) (JsString.canonicalize alternative))
          alternatives.

Definition mathTypePattern : list string :=
  ["persamaan"; "rumus"; "formula"; "equation"; "differential"; "integral"; "matemat"].

Definition factualTypePattern : list string :=
  ["apa"; "siapa"; "kapan"; "di mana"; "mengapa"; "bagaimana";
   "what"; "who"; "when"; "where"; "why"; "how"].

Record QueryTypes := {
  math : nat;
  general : nat;
  factual : nat
}.

(** A value of [documentCitations]: a count, or the [NaN] that
    incrementing an inherited member leaves. *)
Inductive CountValue :=
| CountOf (n : nat)
| CountNaN.

Definition floatOfZ (z : Z) : float :=
  match z with
  | Z0 => 0%float
  | Zpos _ => PrimFloat.of_uint63 (Uint63.of_Z z)
  | Zneg p => (- PrimFloat.of_uint63 (Uint63.of_Z (Zpos p)))%float
  end.

(** The counters are integers, the response times integers in
    milliseconds; the average is their binary64 quotient. *)
Record PerformanceMetrics := {
  queries : nat;
  totalResponseTime : Z;
  averageResponseTime : float;
  successfulQueries : nat;
  failedQueries : nat;
  documentCitations : gmap string CountValue;
  queryTypes : QueryTypes
}.

(** The initial value of [ragPerformanceMetrics], which
    [resetPerformanceMetrics] restores. *)
Definition ragPerformanceMetrics : PerformanceMetrics :=
  {| queries := 0; totalResponseTime := 0; averageResponseTime := 0%float;
     successfulQueries := 0; failedQueries := 0; documentCitations := ∅;
     queryTypes := {| math := 0; general := 0; factual := 0 |} |}.

Definition resetPerformanceMetrics (_ : PerformanceMetrics) : PerformanceMetrics :=
  ragPerformanceMetrics.

(** [if (!citations[doc]) citations[doc] = 0; citations[doc]++]. A name
    inherited from [Object.prototype] reads as a truthy member: its
    increment is [NaN], which the setter of [__proto__] ignores and the
    next call takes for a missing count. *)
Definition citeDocument (citations : gmap string CountValue) (doc : string)
    : gmap string CountValue :=
  match citations !! doc with
  | Some (CountOf (S n)) => <[doc := CountOf (S (S n))]> citations
  | Some (CountOf O) | Some CountNaN => <[doc := CountOf 1]> citations
  | None =>
      if String.eqb doc "__proto__" then citations
      else if existsb (String.eqb doc) JsObject.prototypeNames
           then <[doc := CountNaN]> citations
           else <[doc := CountOf 1]> citations
  end.

Definition trackQueryPerformance (m : PerformanceMetrics) (query : string)
    (responseTime : Z) (success : bool) (citedDocuments : list string)
    : PerformanceMetrics :=
  let queries' := S (queries m) in
  let total := (totalResponseTime m + responseTime)%Z in
  let types := queryTypes m in
  {| queries := queries';
     totalResponseTime := total;
     averageResponseTime := (floatOfZ total / floatOfNat queries')%float;
     successfulQueries := if success then S (successfulQueries m) else successfulQueries m;
     failedQueries := if success then failedQueries m else S (failedQueries m);
     documentCitations := List.fold_left citeDocument citedDocuments (documentCitations m);
     queryTypes :=
       if testInsensitive mathTypePattern query
       then {| math := S (math types); general := general types; factual := factual types |}
       else if testInsensitive factualTypePattern query
       then {| math := math types; general := general types; factual := S (factual types) |}
       else {| math := math types; general := S (general types); factual := factual types |}
  |}.

(** ** Query variations ([generateQueryVariations], [getDocumentNames]) *)

(** The test of [queryWithRAG] for a mathematical query. *)
Definition mathQueryPattern : list string :=
  ["persamaan"; "rumus"; "formula"; "equation"; "differential"; "gelombang"; "wave";
   "eigen"; "laplace"; "laplacian"; "turunan"; "derivative"; "integral"].

Definition isMathQuery (query : string) : bool := testInsensitive mathQueryPattern query.

(** The double quote. *)
Definition doubleQuote : string := String (ascii_of_nat 34) EmptyString.

(** [s.substring(n)] *)
Fixpoint dropChars (n : nat) (s : string) : string :=
  match n, s with
  | S k, String _ rest => dropChars k rest
  | _, _ => s
  end.

(** [s.replace(pattern, '')] for a string pattern: its first occurrence
    is removed. *)
Fixpoint removeFirst (pattern s : string) : string :=
  if String.prefix pattern s then dropChars (String.length pattern) s
  else match s with
       | EmptyString => EmptyString
       | String c rest => String c (removeFirst pattern rest)
       end.

Fixpoint trimStart (s : string) : string :=
  match s with
  | String c rest => if isWhiteSpace c then trimStart rest else s
  | EmptyString => EmptyString
  end.

Fixpoint trimEnd (s : string) : string :=
  match s with
  | EmptyString => EmptyString
  | String c rest =>
      let rest' := trimEnd rest in
      if isWhiteSpace c && String.eqb rest' "" then EmptyString else String c rest'
  end.

(** [s.trim()] *)
Definition trim (s : string) : string := trimEnd (trimStart s).

(** An entry of the module's [memoryVectorStore]; [entry_documentId] is
    [metadata?.documentId]. *)
Record MemoryEntry := {
  entry_content : option string;
  entry_vector : VectorArg;
  entry_documentId : option string;
  entry_metadata : option Metadata
}.

(** [documentIds] is the module's [Set], in insertion order. *)
Definition getDocumentNames (documentIds : list string) (memoryVectorStore : list MemoryEntry)
    : list string :=
  List.map
    (fun id =>
       match List.find (fun d => bool_decide (entry_documentId d = Some id))
                       memoryVectorStore with
       | Some doc =>
           from_option (fun x => x) id
             (orString (orString (entry_metadata doc ≫= document_title)
                                 (entry_metadata doc ≫= source))
                       (Some id))
       | None => id
       end)
    documentIds.

Definition mathVariations (query : string) : list string :=
  [ "bentuk " +:+ query;
    query +:+ " matematika";
    "formula " +:+ query;
    trim ("persamaan " +:+ removeFirst "persamaan" query);
    "equation " +:+ query;
    "wave equation";
    "persamaan gelombang";
    "poisson equation";
    "persamaan poisson";
    "mathematical " +:+ query;
    "matematis " +:+ query;
    "definisi " +:+ query;
    "bentuk matematis " +:+ query ].

Definition waveVariations : list string :=
  [ "wave equation definition";
    "persamaan gelombang definisi";
    "bentuk matematis persamaan gelombang";
    "partial differential equation wave";
    "persamaan diferensial parsial gelombang" ].

Definition poissonVariations : list string :=
  [ "poisson equation definition";
    "persamaan poisson definisi";
    "bentuk matematis persamaan poisson";
    "laplace equation";
    "persamaan laplace" ].

Definition generateQueryVariations (documentIds : list string)
    (memoryVectorStore : list MemoryEntry) (query : string) (isMathQuery : bool)
    : list string :=
  let lowered := JsString.toLowerCase query in
  let queryVariations := [query; doubleQuote +:+ query +:+ doubleQuote; query +:+ " formula"] in
  let queryVariations :=
    if isMathQuery then
      queryVariations ++ mathVariations query
      ++ (if JsString.includes lowered "gelombang" || JsString.includes lowered "wave"
          then waveVariations else [])
      ++ (if JsString.includes lowered "poisson" then poissonVariations else [])
    else queryVariations in
  let docNames := getDocumentNames documentIds memoryVectorStore in
  match docNames with
  | [] => queryVariations
  | _ =>
      queryVariations
      ++ List.map (fun name => query +:+ " " +:+ name)
           (List.filter (fun name =>
                           JsString.includes (JsString.toLowerCase name) "strauss"
                           || JsString.includes (JsString.toLowerCase name) "differential")
                        docNames)
      ++ [query +:+ " dalam " +:+ JsString.join " " docNames]
  end.

(** ** Similarity search over the module's own array
       ([getRelevantDocsFromMemoryDirect]) *)

(** A result: the entry with its similarity and title. *)
Record ScoredEntry := {
  scored_entry : MemoryEntry;
  scored_similarity : float;
  scored_document_title : string
}.

(** [results.sort((a, b) => b.similarity - a.similarity)], as the stable
    insertion of each result before the first that is more similar; a
    difference that is [NaN] counts as 0. *)
Fixpoint insertBySimilarity (item : ScoredEntry) (sorted : list ScoredEntry)
    : list ScoredEntry :=
  match sorted with
  | [] => [item]
  | other :: rest =>
      if (0 <? scored_similarity other - scored_similarity item)%float
      then other :: insertBySimilarity item rest
      else item :: sorted
  end.

Definition sortBySimilarity (items : list ScoredEntry) : list ScoredEntry :=
  List.fold_right insertBySimilarity [] items.

Definition scoreEntry (queryEmbedding : VectorArg) (doc : MemoryEntry) : ScoredEntry :=
  {| scored_entry := doc;
     scored_similarity := cosineSimilarity queryEmbedding (entry_vector doc);
     scored_document_title :=
       from_option (fun x => x) "Unknown Source"
         (orString (orString (entry_metadata doc ≫= document_title)
                             (entry_metadata doc ≫= source))
                   (Some "Unknown Source")) |}.

Section MemoryDirect.

(** The module's [embeddings], [None] while it is [null]. *)
Variable embeddings : option (string -> Outcome VectorArg).

(** Whatever is thrown ends in [return []]: a missing or failing
    embedding provider, and the log line that reads
    [filteredResults[0].content.substring(0, 20)] when the best result has
    no content. *)
Definition getRelevantDocsFromMemoryDirect (memoryVectorStore : list MemoryEntry)
    (query : string) (limit : nat) (threshold : float) : list ScoredEntry :=
  match memoryVectorStore with
  | [] => []
  | _ =>
      match embeddings with
      | None => []
      | Some embedQuery =>
          match embedQuery query with
          | Rejected _ => []
          | Resolved queryEmbedding =>
              let results := List.map (scoreEntry queryEmbedding) memoryVectorStore in
              let filteredResults :=
                take limit
                  (sortBySimilarity
                     (List.filter (fun doc => (threshold <=? scored_similarity doc)%float)
                                  results)) in
              match filteredResults with
              | [] => []
              | first :: _ =>
                  match entry_content (scored_entry first) with
                  | None => []
                  | Some _ => filteredResults
                  end
              end
          end
      end
  end.

End MemoryDirect.

(** ** Storage quota and cleanup ([getUserStorageUsed], [hasEnoughStorage],
       [cleanupOldDocuments]) *)

(** A row of [documents]; [file_size] is [None] when the column is
    [null]. *)
Record DocumentRow := {
  document_row_id : string;
  file_size : option Z
}.

(** [doc.file_size || 0] *)
Definition sizeOf (doc : DocumentRow) : Z := from_option (fun x => x) 0%Z (file_size doc).

(** [userId] is the signed-in user if any, [reply] what the query for the
    user's documents gives. *)
Definition getUserStorageUsed (userId : option string) (reply : DbReply DocumentRow)
    : Outcome Z :=
  match userId with
  | None => Resolved 0%Z
  | Some _ =>
      match reply with
      | DbError _ => Resolved 0%Z
      | DbData None => Rejected (newError "Cannot read properties of null (reading 'reduce')")
      | DbData (Some data) =>
          Resolved (List.fold_left (fun total doc => (total + sizeOf doc)%Z) data 0%Z)
      end
  end.

Definition MAX_STORAGE : Z := 104857600.

Definition hasEnoughStorage (userId : option string) (reply : DbReply DocumentRow)
    (fileSize maxStorage : Z) : Outcome bool :=
  match getUserStorageUsed userId reply with
  | Resolved currentStorage => Resolved (currentStorage + fileSize <=? maxStorage)%Z
  | Rejected e => Rejected e
  end.

Record CleanupResult := {
  success : bool;
  freedBytes : Z;
  deletedDocs : nat
}.

Section Cleanup.

(** [deleteDocument(id)], which may reject. The listing holds a document
    once, so that the outcome is a function of the id. *)
Variable deleteDocument : string -> Outcome bool.

(** [for (const doc of data)]: the bytes freed, the documents deleted
    and the ids [deleteDocument] was called with, in order. *)
Fixpoint cleanupLoop (data : list DocumentRow) (targetBytes freedBytes : Z)
    (deletedDocs : nat) : Z * nat * list string :=
  match data with
  | [] => (freedBytes, deletedDocs, [])
  | doc :: rest =>
      if (targetBytes <=? freedBytes)%Z then (freedBytes, deletedDocs, [])
      else
        let '(freed, deleted, attempted) :=
          match deleteDocument (document_row_id doc) with
          | Resolved _ =>
              cleanupLoop rest targetBytes (freedBytes + sizeOf doc)%Z (S deletedDocs)
          | Rejected _ => cleanupLoop rest targetBytes freedBytes deletedDocs
          end in
        (freed, deleted, document_row_id doc :: attempted)
  end.

(** [reply] is what the query for the user's documents, oldest access
    first, gives. *)
Definition cleanupOldDocuments (userId : option string) (reply : DbReply DocumentRow)
    (targetBytes : Z) : Outcome CleanupResult * list string :=
  match userId with
  | None => (Rejected (newError "User not logged in"), [])
  | Some _ =>
      match reply with
      | DbError _ => (Rejected (newError "Failed to retrieve documents for cleanup"), [])
      | DbData None => (Rejected (newError "data is not iterable"), [])
      | DbData (Some data) =>
          let '(freed, deleted, attempted) := cleanupLoop data targetBytes 0 0 in
          (Resolved {| success := true; freedBytes := freed; deletedDocs := deleted |},
           attempted)
      end
  end.

End Cleanup.

(** ** Error messages for the user ([parsePostgresError], [handleDatabaseError],
       [handleError], [formatErrorMessage]) *)

(** The [code] of a caught object: a string, as the database and the
    authentication service give one, or a number, as the exceptions of the
    browser carry one. *)
Inductive CodeValue :=
| CodeString (s : string)
| CodeNumber (n : Z).

(** What the hook catches: [null] or [undefined], a string, or an object
    with its [code] and its [message], a string, if it has them;
    [isError] tells whether it is an [Error]. *)
Inductive CaughtValue :=
| CaughtNullish
| CaughtString (s : string)
| CaughtObject (isError : bool) (code : option CodeValue) (message : option string).

Definition isDigit (c : ascii) : bool :=
  let n := nat_of_ascii c in (48 <=? n)%nat && (n <=? 57)%nat.

(** The longest run of digits at the start of [s], and what follows. *)
Fixpoint spanDigits (s : string) : string * string :=
  match s with
  | String c rest =>
      if isDigit c then let '(digits, after) := spanDigits rest in (String c digits, after)
      else (EmptyString, s)
  | EmptyString => (EmptyString, EmptyString)
  end.

(** [s] without the prefix [pre], when it starts with it. *)
Definition stripPrefix (pre s : string) : option string :=
  if String.prefix pre s then Some (dropChars (String.length pre) s) else None.

(** A match of [/memory required is (\d+) MB, maintenance_work_mem is
    (\d+) MB/] at the start of [s]: its two groups. A group takes a whole
    run of digits, since a space has to follow it. *)
Definition memoryMatchHere (s : string) : option (string * string) :=
  match stripPrefix "memory required is " s with
  | Some s1 =>
      let '(required, s2) := spanDigits s1 in
      if String.eqb required "" then None
      else match stripPrefix " MB, maintenance_work_mem is " s2 with
           | Some s3 =>
               let '(allocated, s4) := spanDigits s3 in
               if String.eqb allocated "" then None
               else if String.prefix " MB" s4 then Some (required, allocated) else None
           | None => None
           end
  | None => None
  end.

(** The leftmost match in [s]. *)
Fixpoint memoryMatch (s : string) : option (string * string) :=
  match memoryMatchHere s with
  | Some groups => Some groups
  | None =>
      match s with
      | String _ rest => memoryMatch rest
      | EmptyString => None
      end
  end.

Record ErrorInfo := {
  info_message : string;
  info_type : string;
  info_suggestion : string;
  info_isMemoryError : bool;
  info_memory : option (string * string)
}.

(** What [handleError] and [handleDatabaseError] return. *)
Record HandledError := {
  handled_message : option string;
  handled_type : string;
  handled_suggestion : string;
  handled_isMemoryError : option bool
}.

(** [message?.includes(needle)] *)
Definition messageIncludes (message : option string) (needle : string) : bool :=
  match message with
  | Some m => JsString.includes m needle
  | None => false
  end.

(** [code === value] *)
Definition codeIs (code : option CodeValue) (value : string) : bool :=
  match code with
  | Some (CodeString c) => String.eqb c value
  | _ => false
  end.

(** What a function returns, or the error it throws. *)
Inductive Returns (A : Type) : Type :=
| Gives (a : A)
| Throws (e : ErrorObj).

Arguments Gives {A} a.
Arguments Throws {A} e.

(** [error?.code && error.code.startsWith('23')]: a number other than 0
    is truthy and has no [startsWith]. *)
Definition codeStartsWith23 (code : option CodeValue) : Returns bool :=
  match code with
  | Some (CodeString c) => Gives (JsString.truthy c && String.prefix "23" c)
  | Some (CodeNumber n) =>
      if (n =? 0)%Z then Gives false
      else Throws (newError "error.code.startsWith is not a function")
  | None => Gives false
  end.

Section ErrorUtils.

(** The template literal of [parseInt(digits, 10)]. *)
Variable formatParsedInt : string -> string.

(** [parsePostgresError], for the [code] and [message] of the error;
    [info_memory] holds the digits of [requiredMemory] and
    [allocatedMemory]. *)
Definition parsePostgresError (code : option CodeValue) (message : option string)
    : ErrorInfo :=
  let errorInfo :=
    {| info_message := from_option (fun x => x) "Terjadi kesalahan pada database"
                         (orString message None);
       info_type := "database";
       info_suggestion := "Silakan coba lagi atau hubungi administrator";
       info_isMemoryError := false;
       info_memory := None |} in
  let errorInfo :=
    match message ≫= memoryMatch with
    | Some (required, allocated) =>
        {| info_message :=
             "Operasi database membutuhkan lebih banyak memori ("
             +:+ formatParsedInt required +:+ " MB) daripada yang tersedia ("
             +:+ formatParsedInt allocated +:+ " MB)";
           info_type := "memory_limit";
           info_suggestion :=
             "Coba lakukan operasi pada dokumen yang lebih kecil atau kontak administrator "
             +:+ "untuk menaikkan batas memori database";
           info_isMemoryError := true;
           info_memory := Some (required, allocated) |}
    | None => errorInfo
    end in
  let errorInfo :=
    if messageIncludes message "connection" || codeIs code "ECONNREFUSED" then
      {| info_message := "Tidak dapat terhubung ke database";
         info_type := "connection";
         info_suggestion := "Periksa koneksi internet Anda atau coba lagi nanti";
         info_isMemoryError := info_isMemoryError errorInfo;
         info_memory := info_memory errorInfo |}
    else errorInfo in
  if messageIncludes message "permission denied" || codeIs code "42501" then
    {| info_message := "Tidak memiliki izin untuk operasi ini";
       info_type := "permission";
       info_suggestion := "Pastikan Anda memiliki hak akses yang sesuai";
       info_isMemoryError := info_isMemoryError errorInfo;
       info_memory := info_memory errorInfo |}
  else errorInfo.

Definition handleDatabaseError (code : option CodeValue) (message : option string)
    : HandledError :=
  let errorInfo := parsePostgresError code message in
  {| handled_message := Some (info_message errorInfo);
     handled_type := info_type errorInfo;
     handled_suggestion := info_suggestion errorInfo;
     handled_isMemoryError := Some (info_isMemoryError errorInfo) |}.

(** The chain of [else if] after the test of the database codes. *)
Definition classifyError (isError : bool) (code : option CodeValue)
    (message : option string) : HandledError :=
  if codeIs code "auth/wrong-password" || codeIs code "auth/user-not-found"
     || codeIs code "auth/invalid-credential"
  then {| handled_message := Some "Email atau password tidak valid";
          handled_type := "auth";
          handled_suggestion := "Periksa kembali email dan password Anda";
          handled_isMemoryError := None |}
  else if codeIs code "auth/too-many-requests"
  then {| handled_message := Some "Terlalu banyak percobaan login yang gagal";
          handled_type := "rate_limit";
          handled_suggestion := "Coba lagi nanti atau reset password Anda";
          handled_isMemoryError := None |}
  else if codeIs code "storage/object-not-found" || messageIncludes message "storage"
          || messageIncludes message "not found"
  then {| handled_message := Some "File atau dokumen tidak ditemukan";
          handled_type := "storage";
          handled_suggestion := "File mungkin telah dihapus atau dipindahkan";
          handled_isMemoryError := None |}
  else if messageIncludes message "network" || messageIncludes message "koneksi"
          || messageIncludes (JsString.toLowerCase <$> message) "connection"
  then {| handled_message := Some "Gangguan koneksi jaringan";
          handled_type := "network";
          handled_suggestion := "Periksa koneksi internet Anda dan coba lagi";
          handled_isMemoryError := None |}
  else if isError
  then {| handled_message := message;
          handled_type := "application";
          handled_suggestion := "Coba lakukan operasi kembali atau hubungi administrator";
          handled_isMemoryError := None |}
  else {| handled_message := Some "Terjadi kesalahan yang tidak diketahui";
          handled_type := "unknown";
          handled_suggestion := "Coba muat ulang aplikasi atau hubungi administrator";
          handled_isMemoryError := None |}.

Definition handleError (error : CaughtValue) : Returns HandledError :=
  match error with
  | CaughtObject isError code message =>
      match codeStartsWith23 code with
      | Throws e => Throws e
      | Gives true => Gives (handleDatabaseError code message)
      | Gives false => Gives (classifyError isError code message)
      end
  | CaughtString s =>
      Gives {| handled_message := Some s;
               handled_type := "unknown";
               handled_suggestion := "Coba muat ulang aplikasi atau hubungi administrator";
               handled_isMemoryError := None |}
  | CaughtNullish =>
      Gives {| handled_message := Some "Terjadi kesalahan yang tidak diketahui";
               handled_type := "unknown";
               handled_suggestion := "Coba muat ulang aplikasi atau hubungi administrator";
               handled_isMemoryError := None |}
  end.

End ErrorUtils.

(** The argument of [formatErrorMessage]: a falsy value, a non-empty
    string, or an object with its [message] and [suggestion] if it has
    them. *)
Inductive Displayed :=
| DisplayedFalsy
| DisplayedString (s : string)
| DisplayedObject (message suggestion : option string).

Definition formatErrorMessage (error : Displayed) : string :=
  match error with
  | DisplayedFalsy => ""
  | DisplayedString s => s
  | DisplayedObject message suggestion =>
      match orString message None, orString suggestion None with
      | Some m, Some s => m +:+ ". " +:+ s
      | Some m, None => m
      | None, _ => "Terjadi kesalahan. Silakan coba lagi."
      end
  end.

(** The object [handleError] returns, as an argument of
    [formatErrorMessage]. *)
Definition displayed (handled : HandledError) : Displayed :=
  DisplayedObject (handled_message handled) (Some (handled_suggestion handled)).

(** ** The requests of [storeDocumentChunks] *)

(** What the database answers to an upsert, [{ data, error }]: no error
    and the ids of the rows in [data], which may be [null]; or an error,
    with its message if it has one. *)
Inductive UpsertReply :=
| UpsertData (data : option (list string))
| UpsertError (message : option string).

(** A request [storeDocumentChunks] sends to [document_chunks]: the upsert
    of a batch of rows, and the deletion of the rows of a document whose
    [chunk_index] is at least the given one. *)
Inductive StoreRequest :=
| Upsert (rows : list UpsertRow)
| DeleteChunksFrom (documentId : string) (chunk_index : nat).

(** [content.replace(/[^\x20-\x7E]/g, ' ')] *)
Definition asciiOnly (content : string) : string :=
  JsString.mapChars
    (fun c => let n := nat_of_ascii c in
              if (32 <=? n)%nat && (n <=? 126)%nat then c else " "%char)
    content.

(** [batch.map(item => ({ ...item, content: ... }))] *)
Definition sanitizedBatch (batch : list UpsertRow) : list UpsertRow :=
  List.map (fun item => {| row_document_id := row_document_id item;
                           row_user_id := row_user_id item;
                           row_chunk_index := row_chunk_index item;
                           row_content := asciiOnly (row_content item);
                           row_metadata := row_metadata item;
                           row_embedding := row_embedding item |})
           batch.

Section StoreRequests.

Context {MetadataObj : Type}.
Variable sanitizeString : string -> string.
Variable stringifyMetadata : option MetadataObj -> string.
(** The database: what awaiting the upsert of batch number [k] (from 0)
    gives, and what awaiting its repetition gives ([second] is then
    [true]); the request may also reject. *)
Variable upsert : forall (k : nat) (second : bool) (rows : list UpsertRow), Outcome UpsertReply.

(** The body of the loop over the batches: the ids pushed to [chunkIds]
    and the requests sent. A rejected request is caught and logged.
    [JSON.stringify({ test: item.content })] does not throw for a string,
    so the [forEach] before the upsert leaves the batch as it is. *)
Definition upsertBatch (k : nat) (batch : list UpsertRow) : list string * list StoreRequest :=
  match upsert k false batch with
  | Rejected _ => ([], [Upsert batch])
  | Resolved (UpsertData data) => (from_option id [] data, [Upsert batch])
  | Resolved (UpsertError message) =>
      if messageIncludes message "Unicode" then
        match upsert k true (sanitizedBatch batch) with
        | Resolved (UpsertData (Some data)) =>
            (data, [Upsert batch; Upsert (sanitizedBatch batch)])
        | _ => ([], [Upsert batch; Upsert (sanitizedBatch batch)])
        end
      else ([], [Upsert batch])
  end.

(** The whole call: what it resolves to, [chunkIds], and the requests it
    sends, the last of which removes the rows left over from an earlier,
    longer version of the document. Without chunks it returns before any
    request. *)
Definition storeDocumentChunksRequests (userId : option string) (documentId : string)
    (chunks : option (list (ChunkInput MetadataObj)))
    (embeddings : option (list EmbeddingCell))
    : Outcome (list string) * list StoreRequest :=
  match storeDocumentChunks sanitizeString stringifyMetadata userId documentId chunks
          embeddings with
  | Rejected e => (Rejected e, [])
  | Resolved [] => (Resolved [], [])
  | Resolved batches =>
      let results := imap upsertBatch batches in
      (Resolved (concat (List.map fst results)),
       concat (List.map snd results)
       ++ [DeleteChunksFrom documentId (length (concat batches))])
  end.

End StoreRequests.

(** * Part II: the vocabulary of the specification, and sample inputs *)

(** ** Deduplication *)

(** The specification, in the words of the design document: a document
    is kept exactly when no earlier document has the same 100-character
    prefix, and the kept documents stay in their order. *)
Fixpoint firstOccurrencesAfter (earlier docs : list Doc) : list Doc :=
  match docs with
  | [] => []
  | d :: rest =>
      (if bool_decide (contentId d ∈ contentId <$> earlier) then [] else [d])
      ++ firstOccurrencesAfter (earlier ++ [d]) rest
  end.

Definition firstOccurrences (docs : list Doc) : list Doc :=
  firstOccurrencesAfter [] docs.

(** ** The references section *)

(** The specification of the appended lines: one line per key at its
    first occurrence, in the order of the citations, numbered by the
    position of that occurrence (from 1). *)
Fixpoint firstSeenLines (seen : list string) (idx : nat) (cites : list Citation)
    : list string :=
  match cites with
  | [] => []
  | c :: rest =>
      (if bool_decide (sourceKey c ∈ seen) then [] else [referenceLine idx (sourceKey c)])
      ++ firstSeenLines (seen ++ [sourceKey c]) (S idx) rest
  end.

(** A key that is neither an array index nor the name of a member
    inherited from [Object.prototype]: the object then behaves as a plain
    insertion-ordered dictionary on it. *)
Definition plainKey (k : string) : Prop :=
  JsObject.arrayIndex k = None /\ existsb (String.eqb k) JsObject.prototypeNames = false.

(** ** Cosine similarity *)

(** The dot product and the squared magnitude, accumulated from 0 in
    index order as the loop does. *)
Definition dotProduct (v1 v2 : list float) : float :=
  List.fold_left (fun acc p => (acc + fst p * snd p)%float) (zip v1 v2) 0%float.

Definition magnitude (v : list float) : float :=
  PrimFloat.sqrt (List.fold_left (fun acc a => (acc + a * a)%float) v 0%float).

(** ** The chunk store *)

(** The rows a call hands to the database, over all its batches. *)
Definition storedRows (r : Outcome (list (list UpsertRow))) : list UpsertRow :=
  match r with
  | Resolved batches => concat batches
  | Rejected _ => []
  end.

(** The vector a request to the database carries, if it carries one. *)
Definition searchedVector (c : SearchCall) : option (list JsValue) :=
  match c with
  | RpcMatchDocuments v _ => Some v
  | RpcQuerySql v _ => Some v
  | TextSearch _ => None
  end.

(** ** Retries *)


Section RetryVocabulary.

Context {T : Type}.
Variable fn : nat -> Outcome T.
Variable opts : RetryOptions.


(** The attempt fails with an error the wrapper does not retry. *)
Definition failsFinally (attempt : nat) : Prop :=
  exists e, fn attempt = Rejected e /\ shouldRetry (retryStatusCodes opts) e = false.

End RetryVocabulary.

(** ** Batched embedding *)

Section BatchVocabulary.

Variable chunkText : ref -> string.
Variable embedQuery : string -> nat -> ref -> nat -> Outcome (list float).
Variable random : nat -> Q.
Variable enhancedDocs : list ref.

(** The vector the chunk [doc] gets when it is embedded in loop
    iteration [iteration]: the provider's embedding if the retried call
    succeeds, the zero placeholder if it fails. *)
Definition embeddingOrPlaceholder (iteration : nat) (doc : ref) : list float :=
  match run_result (retryWithAdvancedBackoff (embedQuery (chunkText doc) iteration doc)
                                             random chunkRetryOptions) with
  | Returned embedding => embedding
  | Threw _ => zeroEmbedding
  end.

(** What the loop maintains: the batch size stays positive, the queue
    holds chunks of the input only, and every chunk of the input is
    either still queued or has its vector stored under its index. *)
Definition batchInvariant (st : BatchState) : Prop :=
  1 <= currentBatchSize st
  /\ (forall doc, doc ∈ queue st -> doc ∈ enhancedDocs)
  /\ (forall i doc, enhancedDocs !! i = Some doc ->
        doc ∈ queue st
        \/ exists iteration,
             results st !! Z.of_nat i = Some (embeddingOrPlaceholder iteration doc)).

End BatchVocabulary.

(** ** The retriever's log *)

(** What a variation finds in the in-memory store: the documents the
    search resolves to, nothing if it rejects. *)
Definition foundBy (store : VectorStore) (variation : string) : list Doc :=
  match similaritySearch store variation 7 with
  | Resolved found => found
  | Rejected _ => []
  end.

(** The results accumulated over a list of variations, duplicates
    included. *)
Definition accumulated (store : VectorStore) (variations : list string) : list Doc :=
  List.concat (List.map (foundBy store) variations).

Definition memoryEvents (variations : list string) : list Event :=
  List.map (fun variation => EvMemorySearch variation 7) variations.

Definition isMemoryEvent (ev : Event) : Prop :=
  match ev with
  | EvMemorySearch _ _ | EvMmrSearch _ _ _ => True
  | _ => False
  end.

(** An event of the persistent tier, where every text embedded or
    searched for is [query]. *)
Definition isDatabaseEventFor (query : string) (ev : Event) : Prop :=
  match ev with
  | EvEmbedQuery t | EvFallbackSearch t => t = query
  | EvVectorSearch _ _ => True
  | _ => False
  end.

Definition isLlmCall (ev : Event) : Prop :=
  match ev with
  | EvLlmCall _ _ => True
  | _ => False
  end.

(** The log when the retrieval starts: the session access, if any. *)
Definition sessionEvents (currentSessionId : option string) : list Event :=
  match currentSessionId with
  | Some sid => [EvSessionAccess sid]
  | None => []
  end.

(** Unfolds the combinators of [Async]. *)
Ltac run_async :=
  unfold bind, tryCatch, tryFinally, call, ret, throw, run in *; cbn beta iota.

(** ** Sample inputs *)

(** A hundred characters. *)
Definition hundredChars : string := String.concat "" (repeat "0123456789" 10).

Definition userMessage (n : nat) : Message :=
  {| role := "user"; msg_content := JsString.ofZ (Z.of_nat n) |}.

Definition citing (src : string) (p : option PageVal) : Citation :=
  {| cite_source := src; cite_page := p; cite_text := "" |}.

Definition repeatedSourceCitations : list Citation :=
  [citing "A.pdf" None; citing "A.pdf" None; citing "B.pdf" (Some (PNum 3))].

Definition rateLimited : ErrorObj :=
  {| err_status := Some 429%Z; err_response_status := None;
     err_message := Some "Too Many Requests" |}.

Definition badRequest : ErrorObj :=
  {| err_status := Some 400%Z; err_response_status := None;
     err_message := Some "Invalid argument" |}.

(** A provider that answers 429 three times and then succeeds. *)
Definition failsThreeTimes (attempt : nat) : Outcome nat :=
  if (attempt <? 3)%nat then Rejected rateLimited else Resolved 42.

(** A provider that refuses the chunk behind reference 1 with an error
    that is not retried, and embeds every other chunk. *)
Definition refusesSecondChunk (text : string) (iteration : nat) (doc : ref) (attempt : nat)
    : Outcome (list float) :=
  if (doc =? 1)%nat then Rejected badRequest else Resolved [1; 2]%float.

Definition chunkOf (s : string) : Doc :=
  {| pageContent := s; content := None; metadata := None |}.

(** A store that answers every search with the same three chunks. *)
Definition sameThreeChunks : VectorStore :=
  {| similaritySearch := fun _ _ => Resolved [chunkOf "a"; chunkOf "b"; chunkOf "c"];
     maximalMarginalRelevance := fun _ _ _ => Resolved [] |}.

(** A store that finds nothing. *)
Definition emptyStore : VectorStore :=
  {| similaritySearch := fun _ _ => Resolved [];
     maximalMarginalRelevance := fun _ _ _ => Resolved [] |}.

Definition sampleConfig : AIConfig :=
  {| temperature := 0.2; maxOutputTokens := 2048; topP := 0.95; topK := 40;
     model := "gemini"; responseStyle := "balanced"; showThinkingProcess := false |}.

(** A query against the given store, with a database that finds nothing
    and an LLM that answers. *)
Definition sampleQuery (store : option VectorStore) : Outcome QueryResult * list Event :=
  run (queryWithRAG store None (fun _ _ => Resolved [1%float]) None (fun _ => 0.5%Q)
         (fun _ _ _ => Resolved ([] : list nat)) (fun _ => Resolved [])
         (fun _ => []) (fun _ _ => Resolved {| response_text := Resolved "jawaban" |})
         (fun _ => false) (fun q _ => [q; q +:+ " formula"])
         (fun _ _ _ => "system") "" (fun t _ => (t, None))
         "apa itu entropi" true sampleConfig None).

(** ** The storage loop *)

Section DocumentStorageVocabulary.

Variable sanitizeString : string -> string.
Variable stringifyMetadata : option ChunkMetadata -> string.

(** The rows the call for the batch that starts at [i] hands over. *)
Definition batchRows (uid : string) (i : nat) (batchDocs : list EnhancedDoc)
    (batchEmbeddings : list (list float)) : list UpsertRow :=
  upsertData sanitizeString stringifyMetadata
    (from_option (fun doc => meta_documentId (enhanced_metadata doc)) "undefined"
                 (head batchDocs))
    uid (chunksForStorage i batchDocs) (Some (embeddingCells batchEmbeddings)).

End DocumentStorageVocabulary.

(** The table after a sequence of calls. *)
Definition tableAfter (calls : list StoreCall) (table : ChunkTable) : ChunkTable :=
  List.fold_left applyStoreCall calls table.

(** ** Sanitised text *)

(** Every character of the string passes the test. *)
Fixpoint allChars (p : ascii -> bool) (s : string) : bool :=
  match s with
  | EmptyString => true
  | String c rest => p c && allChars p rest
  end.

Definition noControlChars (s : string) : bool :=
  allChars (fun c => negb (isControlChar c)) s.

Definition noBackslash (s : string) : bool :=
  allChars (fun c => negb (Ascii.eqb c backslash)) s.

(** ** Keywords *)

(** A lower-case letter, a digit or the underscore. *)
Definition isLowerWordChar (c : ascii) : bool :=
  let n := nat_of_ascii c in
  ((48 <=? n)%nat && (n <=? 57)%nat) || (n =? 95)%nat || ((97 <=? n)%nat && (n <=? 122)%nat).

(** ** Performance metrics *)

(** The arguments of one call of [trackQueryPerformance]. *)
Record TrackedQuery := {
  tracked_query : string;
  tracked_responseTime : Z;
  tracked_success : bool;
  tracked_citedDocuments : list string
}.

(** The metrics after a sequence of calls. *)
Definition metricsAfter (calls : list TrackedQuery) (m : PerformanceMetrics)
    : PerformanceMetrics :=
  List.fold_left
    (fun m call => trackQueryPerformance m (tracked_query call) (tracked_responseTime call)
                     (tracked_success call) (tracked_citedDocuments call))
    calls m.

(** How often [doc] was cited over a sequence of calls. *)
Definition timesCited (doc : string) (calls : list TrackedQuery) : nat :=
  length (List.filter (String.eqb doc) (concat (List.map tracked_citedDocuments calls))).

(** ** Cleanup *)

Definition totalSize (docs : list DocumentRow) : Z :=
  List.fold_right (fun doc total => (sizeOf doc + total)%Z) 0%Z docs.

Section CleanupVocabulary.

Variable deleteDocument : string -> Outcome bool.

(** Whether the deletion of the document succeeds. *)
Definition isDeleted (doc : DocumentRow) : bool :=
  match deleteDocument (document_row_id doc) with
  | Resolved _ => true
  | Rejected _ => false
  end.

End CleanupVocabulary.

(** ** Error messages *)

(** The types [handleError] gives an error. *)
Definition errorTypes : list string :=
  ["database"; "memory_limit"; "connection"; "permission"; "auth"; "rate_limit";
   "storage"; "network"; "application"; "unknown"].

(** ** The log of a query *)

(** An event of the retrieval: a search of the in-memory tier, or an
    event of the persistent tier for [query]. *)
Definition isRetrievalEvent (query : string) (ev : Event) : Prop :=
  isMemoryEvent ev \/ isDatabaseEventFor query ev.

Definition isPerformanceRecord (ev : Event) : Prop :=
  match ev with
  | EvTrackPerformance _ _ => True
  | _ => False
  end.

Definition isResolved {A : Type} (r : Outcome A) : bool :=
  match r with
  | Resolved _ => true
  | Rejected _ => false
  end.

(** ** The states of the batch loop *)

Section BatchStates.

Variable chunkText : ref -> string.
Variable embedQuery : string -> nat -> ref -> nat -> Outcome (list float).
Variable random : nat -> Q.
Variable tryBlockThrows : nat -> bool.
Variable config : BatchConfig.
Variable enhancedDocs : list ref.

(** The state of [processDocumentChunksInBatches] after [n] iterations of
    its loop. *)
Fixpoint batchStateAt (n : nat) : BatchState :=
  match n with
  | O => initialBatchState config enhancedDocs
  | S k => batchStep chunkText embedQuery random tryBlockThrows config enhancedDocs k
             (batchStateAt k)
  end.

End BatchStates.

(** ** Sample chunks and providers *)

(** Chunk number [p] of the document [d]. *)
Definition sampleChunk (d : string) (p : nat) : EnhancedDoc :=
  {| enhanced_pageContent := "chunk " +:+ NilZero.string_of_uint (Nat.to_uint p);
     enhanced_metadata := {| meta_documentId := d; meta_chunkIndex := p;
                             meta_position := None |} |}.

(** The first [n] chunks of the document [d]. *)
Definition sampleChunks (d : string) (n : nat) : list EnhancedDoc :=
  List.map (sampleChunk d) (seq 0 n).

(** An embedding step that gives every chunk of the batch the same short
    vector. *)
Definition sampleEmbedBatch (i : nat) (batch : list EnhancedDoc)
    : Outcome (list (list float)) :=
  Resolved (List.map (fun _ => [1; 2]%float) batch).

(** An operation that fails twice and then returns the number of the
    attempt. *)
Definition failsTwice (attempt : nat) : Outcome nat :=
  if (attempt <? 2)%nat then Rejected (newError "busy") else Resolved attempt.

(** * Part III: properties *)

(** ** Strings *)

Lemma length_substring_le n m s : String.length (substring n m s) <= m.
Proof.
  revert n m; induction s as [|c s IH]; intros [|n] [|m]; simpl; try lia.
  - specialize (IH 0 m). lia.
  - apply (IH n 0).
  - apply (IH n (S m)).
Qed.

Lemma substring_is_prefix m s : String.prefix (substring 0 m s) s = true.
Proof.
  revert m; induction s as [|c s IH]; intros [|m]; simpl; auto.
  destruct (ascii_dec c c); [apply IH | congruence].
Qed.

Lemma string_app_nil_r (s : string) : s +:+ "" = s.
Proof.
  induction s as [|c s IH]; [done|].
  change (String c (s +:+ "") = String c s). by rewrite IH.
Qed.

Lemma string_app_assoc (a b c : string) : (a +:+ b) +:+ c = a +:+ (b +:+ c).
Proof.
  induction a as [|x a IH]; [done|].
  change (String x ((a +:+ b) +:+ c) = String x (a +:+ b +:+ c)). by rewrite IH.
Qed.

(** ** Deduplication *)

Lemma dedupLoop_spec docs : forall earlier (uniqueDocs : gmap string Doc) result,
  (forall k, is_Some (uniqueDocs !! k) <-> k ∈ contentId <$> earlier) ->
  dedupLoop docs uniqueDocs result = result ++ firstOccurrencesAfter earlier docs.
Proof.
  induction docs as [|d rest IH]; intros earlier m result Hm; simpl.
  - by rewrite app_nil_r.
  - destruct (m !! contentId d) as [e|] eqn:Hlook.
    + rewrite bool_decide_eq_true_2 by (apply Hm; eauto).
      simpl. apply IH. intros k. rewrite fmap_app, elem_of_app, <- Hm.
      simpl. rewrite list_elem_of_singleton. split; [tauto|].
      intros [H| ->]; eauto.
    + rewrite bool_decide_eq_false_2.
      2:{ rewrite <- Hm, Hlook. intros [? ?]; discriminate. }
      rewrite (IH (earlier ++ [d])), <- app_assoc; [done|].
      intros k. rewrite fmap_app, elem_of_app, <- Hm. simpl.
      rewrite list_elem_of_singleton.
      destruct (decide (k = contentId d)) as [->|Hne].
      * rewrite lookup_insert_eq. split; eauto.
      * rewrite lookup_insert_ne by done. tauto.
Qed.

Lemma deduplicateDocuments_firstOccurrences docs :
  deduplicateDocuments docs = firstOccurrences docs.
Proof.
  unfold deduplicateDocuments, firstOccurrences.
  rewrite (dedupLoop_spec docs []); [done|].
  intros k. rewrite lookup_empty. simpl. split.
  - intros [? ?]; discriminate.
  - intros H. by apply elem_of_nil in H.
Qed.

Lemma firstOccurrencesAfter_keys earlier docs :
  forall d, d ∈ firstOccurrencesAfter earlier docs ->
    d ∈ docs /\ contentId d ∉ contentId <$> earlier.
Proof.
  revert earlier; induction docs as [|x rest IH]; intros earlier d; simpl.
  - intros H. by apply elem_of_nil in H.
  - rewrite elem_of_app. intros [H|H].
    + case_bool_decide as Hx; [by apply elem_of_nil in H|].
      apply list_elem_of_singleton in H as ->. split; [left|done].
    + apply IH in H as [H1 H2]. split; [by right|].
      intros Hin. apply H2. rewrite fmap_app, elem_of_app. by left.
Qed.

Lemma firstOccurrencesAfter_NoDup earlier docs :
  NoDup (contentId <$> firstOccurrencesAfter earlier docs).
Proof.
  revert earlier; induction docs as [|x rest IH]; intros earlier; simpl.
  - constructor.
  - rewrite fmap_app. case_bool_decide as Hx; simpl; [apply IH|].
    constructor; [|apply IH].
    intros Hin. apply list_elem_of_fmap in Hin as (d & Hk & Hd).
    apply firstOccurrencesAfter_keys in Hd as [_ Hd]. apply Hd.
    rewrite fmap_app, elem_of_app. right. simpl. rewrite <- Hk. left.
Qed.

Lemma firstOccurrencesAfter_fixed docs : forall earlier,
  NoDup (contentId <$> docs) ->
  (forall d, d ∈ docs -> contentId d ∉ contentId <$> earlier) ->
  firstOccurrencesAfter earlier docs = docs.
Proof.
  induction docs as [|x rest IH]; intros earlier Hnd Hdis; simpl; [done|].
  rewrite fmap_cons in Hnd. apply NoDup_cons in Hnd as [Hx Hnd].
  rewrite bool_decide_eq_false_2 by (apply Hdis; left).
  simpl. f_equal. apply IH; [done|].
  intros d Hd. rewrite fmap_app, elem_of_app. intros [H|H].
  - by apply (Hdis d); [right|].
  - simpl in H. apply list_elem_of_singleton in H.
    apply Hx. rewrite <- H. by apply list_elem_of_fmap_2.
Qed.

Lemma firstOccurrencesAfter_covers docs : forall earlier d,
  d ∈ docs ->
  contentId d ∈ contentId <$> (earlier ++ firstOccurrencesAfter earlier docs).
Proof.
  induction docs as [|x rest IH]; intros earlier d Hd; simpl.
  - by apply elem_of_nil in Hd.
  - set (kept := if bool_decide (contentId x ∈ contentId <$> earlier) then [] else [x]).
    assert (Hx : contentId x ∈ contentId <$> earlier ++ kept).
    { subst kept. rewrite fmap_app, elem_of_app.
      case_bool_decide; [by left|right; simpl; left]. }
    apply elem_of_cons in Hd as [->|Hd].
    + rewrite app_assoc, fmap_app, elem_of_app. by left.
    + specialize (IH (earlier ++ [x]) d Hd).
      revert IH. rewrite !fmap_app, !elem_of_app. simpl. rewrite list_elem_of_singleton.
      intros [[H|H]|H]; [by left| |by right; right].
      rewrite H. rewrite fmap_app, elem_of_app in Hx.
      destruct Hx; [by left|right; by left].
Qed.

Lemma firstOccurrencesAfter_sublist earlier docs :
  sublist (firstOccurrencesAfter earlier docs) docs.
Proof.
  revert earlier; induction docs as [|x rest IH]; intros earlier; simpl; [done|].
  case_bool_decide; simpl.
  - by apply sublist_cons.
  - by apply sublist_skip.
Qed.

Lemma deduplicateDocuments_NoDup docs : NoDup (contentId <$> deduplicateDocuments docs).
Proof. rewrite deduplicateDocuments_firstOccurrences. apply firstOccurrencesAfter_NoDup. Qed.

Lemma firstOccurrencesAfter_app (l1 l2 : list Doc) : forall earlier,
  firstOccurrencesAfter earlier (l1 ++ l2)
  = firstOccurrencesAfter earlier l1 ++ firstOccurrencesAfter (earlier ++ l1) l2.
Proof.
  induction l1 as [|a l1 IH]; intros earlier; simpl.
  - by rewrite app_nil_r.
  - rewrite IH, <- !app_assoc. done.
Qed.

Lemma elem_of_prefixes (d : Doc) (l : list Doc) :
  bool_decide (contentId d ∈ contentId <$> l)
  = existsb (fun e => String.eqb (substring 0 100 (pageContent e))
                                 (substring 0 100 (pageContent d))) l.
Proof.
  induction l as [|e l IH].
  - apply bool_decide_eq_false_2. intros H. by apply elem_of_nil in H.
  - cbn [existsb]. rewrite <- IH, fmap_cons.
    destruct (String.eqb_spec (substring 0 100 (pageContent e))
                              (substring 0 100 (pageContent d))) as [Heq|Hne]; cbn [orb].
    + apply bool_decide_eq_true_2. unfold contentId. rewrite Heq. left.
    + apply bool_decide_ext. rewrite elem_of_cons. unfold contentId. split; [|tauto].
      intros [H|H]; [by symmetry in H | done].
Qed.

(** C6. [deduplicateDocuments] keeps exactly the first document of each
    distinct prefix of 100 characters, in the order of the input: a
    document appended to a list is kept exactly when no document of the
    list has the same first 100 characters. Hence the kept documents
    have pairwise different prefixes, every prefix of the input is
    represented by its first occurrence, the result is a subsequence of
    the input, a list whose prefixes all differ comes back unchanged, and
    the function is idempotent. Two documents that agree on their first
    100 characters collapse into the first, whatever follows those
    characters; two that differ there are both kept. *)
Theorem deduplicateDocuments_keeps_first_occurrences (docs : list Doc) (d : Doc) :
  let prefix100 (x : Doc) := substring 0 100 (pageContent x) in
  deduplicateDocuments [] = []
  /\ deduplicateDocuments (docs ++ [d])
     = deduplicateDocuments docs
       ++ (if existsb (fun e => String.eqb (prefix100 e) (prefix100 d)) docs
           then [] else [d])
  /\ deduplicateDocuments docs = firstOccurrences docs
  /\ NoDup (prefix100 <$> deduplicateDocuments docs)
  /\ (forall x, x ∈ docs ->
        exists kept, kept ∈ deduplicateDocuments docs /\ prefix100 kept = prefix100 x)
  /\ (forall i x, docs !! i = Some x ->
        (forall j e, j < i -> docs !! j = Some e -> prefix100 e <> prefix100 x) ->
        x ∈ deduplicateDocuments docs)
  /\ sublist (deduplicateDocuments docs) docs
  /\ (NoDup (prefix100 <$> docs) -> deduplicateDocuments docs = docs)
  /\ deduplicateDocuments (deduplicateDocuments docs) = deduplicateDocuments docs
  /\ (forall d1 d2 : Doc,
        prefix100 d1 = prefix100 d2 -> deduplicateDocuments [d1; d2] = [d1])
  /\ (forall d1 d2 : Doc,
        prefix100 d1 <> prefix100 d2 -> deduplicateDocuments [d1; d2] = [d1; d2]).
Proof.
  intros prefix100.
  assert (Hid : forall l : list Doc, prefix100 <$> l = contentId <$> l) by done.
  assert (Hsnoc : forall l x,
            deduplicateDocuments (l ++ [x])
            = deduplicateDocuments l
              ++ (if existsb (fun e => String.eqb (prefix100 e) (prefix100 x)) l
                  then [] else [x])).
  { intros l x. rewrite !deduplicateDocuments_firstOccurrences. unfold firstOccurrences.
    rewrite firstOccurrencesAfter_app. cbn [app firstOccurrencesAfter].
    rewrite elem_of_prefixes, app_nil_r. done. }
  split; [done|]. split; [apply Hsnoc|].
  rewrite !deduplicateDocuments_firstOccurrences. unfold firstOccurrences.
  split; [done|]. split; [rewrite Hid; apply firstOccurrencesAfter_NoDup|].
  split.
  { intros x Hx. pose proof (firstOccurrencesAfter_covers docs [] x Hx) as Hin.
    cbn [app] in Hin. apply list_elem_of_fmap in Hin as (kept & Hk & Hkept).
    exists kept. split; [done|]. by symmetry. }
  split.
  { intros i x Hi Hfirst.
    rewrite <- (take_drop_middle docs i x Hi).
    change (x :: drop (S i) docs) with ([x] ++ drop (S i) docs).
    rewrite app_assoc, firstOccurrencesAfter_app. apply elem_of_app. left.
    change (firstOccurrencesAfter [] (take i docs ++ [x]))
      with (firstOccurrences (take i docs ++ [x])).
    rewrite <- deduplicateDocuments_firstOccurrences, Hsnoc.
    apply elem_of_app. right.
    destruct (existsb _ (take i docs)) eqn:E; [|left].
    apply existsb_exists in E as (e & He & Heq). apply String.eqb_eq in Heq.
    apply list_elem_of_In, list_elem_of_lookup in He as (j & Hj).
    pose proof (lookup_lt_Some _ _ _ Hj) as Hlt. rewrite length_take in Hlt.
    rewrite lookup_take_lt in Hj by lia.
    exfalso. apply (Hfirst j e); [lia | done | done]. }
  split; [apply firstOccurrencesAfter_sublist|].
  split.
  { intros Hnd. apply firstOccurrencesAfter_fixed; [by rewrite <- Hid|].
    intros x _ H. by apply elem_of_nil in H. }
  split.
  { apply firstOccurrencesAfter_fixed; [apply firstOccurrencesAfter_NoDup|].
    intros x _ H. by apply elem_of_nil in H. }
  split.
  - intros d1 d2 Hkey. rewrite deduplicateDocuments_firstOccurrences.
    unfold firstOccurrences. simpl.
    rewrite (bool_decide_eq_true_2 (contentId d2 ∈ [contentId d1])); [done|].
    unfold contentId. fold (prefix100 d1). rewrite Hkey. left.
  - intros d1 d2 Hkey. rewrite deduplicateDocuments_firstOccurrences.
    unfold firstOccurrences. simpl.
    rewrite (bool_decide_eq_false_2 (contentId d2 ∈ [contentId d1])); [done|].
    intros H. apply list_elem_of_singleton in H. apply Hkey. by symmetry.
Qed.


Example deduplicateDocuments_collapses_shared_prefix :
  let d1 := {| pageContent := hundredChars +:+ "A"; content := None; metadata := None |} in
  let d2 := {| pageContent := hundredChars +:+ "B"; content := None; metadata := None |} in
  d1 <> d2 /\ deduplicateDocuments [d1; d2; d1] = [d1].
Proof. split; [intros H; discriminate H | vm_compute; reflexivity]. Qed.

(** ** Conversation history *)

Lemma filter_drop_filter {A} (p : A -> bool) (k : nat) (l : list A) :
  List.filter p (drop k (List.filter p l)) = drop k (List.filter p l).
Proof.
  apply forallb_filter_id. apply forallb_forall. intros x Hx.
  assert (Hin : In x (List.filter p l)).
  { apply list_elem_of_In. eapply (subseteq_drop k). by apply list_elem_of_In. }
  by apply filter_In in Hin as [_ ?].
Qed.

Lemma formatChatHistory_eq (history : list Message) :
  formatChatHistory (Some history) = List.map toGeminiTurn (List.filter isUserOrAssistant history).
Proof. by destruct history. Qed.

(** C9, as the code has it. [formatChatHistory] keeps exactly the
    messages whose role is user or assistant, in their order, each mapped
    to a turn whose role is user or model, and it keeps all of them: the
    cap to the 10 most recent lives in the chat hook's
    [getContextMessages], whose result is what reaches [formatChatHistory]. *)
Theorem formatChatHistory_filters_and_maps_without_cap (history : list Message) :
  formatChatHistory (Some history)
    = List.map toGeminiTurn (List.filter isUserOrAssistant history)
  /\ (forall msg, In msg history ->
        (role msg = "user" -> In {| turn_role := "user"; turn_parts := [msg_content msg] |}
                                 (formatChatHistory (Some history)))
        /\ (role msg = "assistant" ->
              In {| turn_role := "model"; turn_parts := [msg_content msg] |}
                 (formatChatHistory (Some history))))
  /\ (forall t, In t (formatChatHistory (Some history)) ->
        exists msg, In msg history /\ (role msg = "user" \/ role msg = "assistant")
                    /\ t = toGeminiTurn msg)
  /\ length (formatChatHistory (Some history))
       = length (List.filter isUserOrAssistant history)
  /\ formatChatHistory (Some (getContextMessages history))
       = sliceLast 10 (formatChatHistory (Some history))
  /\ length (formatChatHistory (Some (getContextMessages history))) <= 10.
Proof.
  rewrite !formatChatHistory_eq. split; [done|].
  assert (Hcap : List.map toGeminiTurn (List.filter isUserOrAssistant (getContextMessages history))
                 = sliceLast 10 (List.map toGeminiTurn (List.filter isUserOrAssistant history))).
  { unfold getContextMessages, sliceLast, MAX_CONTEXT_MESSAGES.
    rewrite filter_drop_filter, length_map. symmetry. apply skipn_map. }
  split; [|split; [|split; [|split]]].
  - intros msg Hin. split; intros Hrole; apply in_map_iff; exists msg;
      (split; [unfold toGeminiTurn; by rewrite Hrole |]);
      apply filter_In; (split; [done|]); unfold isUserOrAssistant; by rewrite Hrole.
  - intros t Ht. apply in_map_iff in Ht as (msg & <- & Hin).
    apply filter_In in Hin as [Hin Hrole]. exists msg. split; [done|]. split; [|done].
    unfold isUserOrAssistant in Hrole. apply orb_true_iff in Hrole as [H|H];
      apply String.eqb_eq in H; auto.
  - by rewrite length_map.
  - exact Hcap.
  - rewrite Hcap. unfold sliceLast. rewrite length_drop. lia.
Qed.


(** C9 as stated fails: a history of eleven user messages comes back as
    eleven turns, the oldest included, not as the ten most recent. *)
Lemma formatChatHistory_is_not_capped :
  let history := List.map userMessage (seq 1 11) in
  length (formatChatHistory (Some history)) = 11
  /\ head (formatChatHistory (Some history))
       = Some {| turn_role := "user"; turn_parts := ["1"] |}
  /\ formatChatHistory (Some history)
       <> sliceLast 10 (List.map toGeminiTurn (List.filter isUserOrAssistant history)).
Proof.
  split; [reflexivity|]. split; [reflexivity|].
  intros H. apply (f_equal length) in H. vm_compute in H. discriminate H.
Qed.

(** ** Context assembly *)

Lemma map_is_fmap {A B} (f : A -> B) (l : list A) : List.map f l = f <$> l.
Proof. induction l as [|x l IH]; simpl; [done | by rewrite IH]. Qed.

Lemma excerpt_bounded (doc : Doc) : String.length (excerpt doc) <= 200.
Proof.
  unfold excerpt. destruct (JsString.truthy _); [apply length_substring_le|].
  destruct (content doc); [apply length_substring_le | simpl; lia].
Qed.

Lemma excerpt_of_content (doc : Doc) :
  String.prefix (excerpt doc) (pageContent doc) = true
  \/ (exists c, content doc = Some c /\ String.prefix (excerpt doc) c = true)
  \/ excerpt doc = "".
Proof.
  unfold excerpt. destruct (JsString.truthy _).
  - left. apply substring_is_prefix.
  - destruct (content doc) as [c|]; [|by right; right].
    right; left. exists c. split; [done | apply substring_is_prefix].
Qed.

Lemma citationText_is_sourceKey (doc : Doc) :
  citationText doc = sourceKey (citationOf doc).
Proof.
  unfold citationText, sourceKey, citationOf, isTruthyPage. simpl.
  destruct (docPage doc) as [p|]; simpl; [|by rewrite string_app_nil_r].
  destruct (pageTruthy p); [done | by rewrite string_app_nil_r].
Qed.

Lemma truthy_nonempty (s : string) : JsString.truthy s = true <-> s <> "".
Proof.
  unfold JsString.truthy. destruct (String.eqb_spec s "") as [->|Hne]; simpl.
  - split; [discriminate | by intros H].
  - done.
Qed.

Lemma docSource_cases (doc : Doc) :
  (forall s, meta source doc = Some s -> s <> "" -> docSource doc = s)
  /\ ((meta source doc = None \/ meta source doc = Some "") ->
        (forall t, meta document_title doc = Some t -> t <> "" -> docSource doc = t)
        /\ ((meta document_title doc = None \/ meta document_title doc = Some "") ->
              docSource doc = "Unknown Source")).
Proof.
  unfold docSource, orString. split.
  - intros s -> Hs. apply truthy_nonempty in Hs. cbn. rewrite Hs. cbn. by rewrite Hs.
  - intros Hsource.
    assert (Hskip : match meta source doc with
                    | Some s => if JsString.truthy s then meta source doc
                                else meta document_title doc
                    | None => meta document_title doc
                    end = meta document_title doc).
    { by destruct Hsource as [-> | ->]. }
    rewrite Hskip. split.
    + intros t -> Ht. apply truthy_nonempty in Ht. by rewrite Ht.
    + by intros [-> | ->].
Qed.

Lemma docPage_cases (doc : Doc) :
  (forall p, meta page doc = Some p -> pageTruthy p = true -> docPage doc = Some p)
  /\ ((meta page doc = None \/ exists p, meta page doc = Some p /\ pageTruthy p = false) ->
        docPage doc = meta pageNumber doc).
Proof.
  unfold docPage, orPage. split.
  - intros p -> Hp. by rewrite Hp.
  - intros [-> | (p & -> & Hp)]; [done | by rewrite Hp].
Qed.

Lemma citationText_cases (doc : Doc) :
  (forall p, docPage doc = Some p -> pageTruthy p = true ->
     citationText doc = docSource doc +:+ " (halaman " +:+ pageToString p +:+ ")")
  /\ ((docPage doc = None \/ exists p, docPage doc = Some p /\ pageTruthy p = false) ->
        citationText doc = docSource doc).
Proof.
  unfold citationText. split.
  - intros p -> Hp. by rewrite Hp.
  - intros [-> | (p & -> & Hp)]; [done | by rewrite Hp].
Qed.

Lemma substring_nonempty (n : nat) (s : string) :
  s <> "" -> substring 0 (S n) s <> "".
Proof. destruct s; [done|]. simpl. discriminate. Qed.

Lemma excerpt_cases (doc : Doc) :
  (pageContent doc <> "" ->
     excerpt doc = substring 0 200 (pageContent doc) /\ blockBody doc = pageContent doc)
  /\ (pageContent doc = "" -> forall s, content doc = Some s ->
        excerpt doc = substring 0 200 s /\ blockBody doc = s)
  /\ (pageContent doc = "" -> content doc = None ->
        excerpt doc = "" /\ blockBody doc = "undefined").
Proof.
  unfold excerpt, blockBody. split; [|split].
  - intros Hpc. pose proof (substring_nonempty 199 _ Hpc) as Hsub.
    apply truthy_nonempty in Hsub, Hpc. by rewrite Hsub, Hpc.
  - intros -> s ->. done.
  - intros -> ->. done.
Qed.

(** C7. For every list of chunks and every citations array,
    [formatContextFromDocs] returns one block per chunk, in input order
    and joined by blank lines, and leaves the array extended by one
    citation per chunk in the same order. The citation of a chunk
    carries as source the chunk's [source], else its [document_title],
    else [Unknown Source]; as page its [page], else its [pageNumber],
    possibly absent; and as text the first 200 characters of its
    [pageContent], else of its [content], else nothing. The block of the
    chunk at position [i] is headed by the ordinal [i + 1] and by the
    label made of that source and, when there is one, that page, and
    holds the whole text of the chunk. *)
Theorem formatContextFromDocs_blocks_match_citations
    (docs : list Doc) (existing : list Citation) :
  exists blocks added,
    formatContextFromDocs docs (Some existing)
      = (JsString.join (JsString.nl +:+ JsString.nl) blocks, Some (existing ++ added))
    /\ formatContextFromDocs docs None
       = (JsString.join (JsString.nl +:+ JsString.nl) blocks, None)
    /\ (forall (n : Z) (s : string),
          pageTruthy (PNum n) = negb (n =? 0)%Z
          /\ pageTruthy (PStr s) = negb (String.eqb s "")
          /\ pageToString (PNum n) = JsString.ofZ n
          /\ pageToString (PStr s) = s)
    /\ length blocks = length docs
    /\ length added = length docs
    /\ forall i doc, docs !! i = Some doc ->
         exists c label body,
           added !! i = Some c
           /\ blocks !! i
              = Some ("--- Dokumen #" +:+ JsString.ofZ (Z.of_nat i + 1) +:+ ": " +:+ label
                      +:+ " ---" +:+ JsString.nl +:+ body +:+ JsString.nl)
           /\ (forall s, meta source doc = Some s -> s <> "" -> cite_source c = s)
           /\ ((meta source doc = None \/ meta source doc = Some "") ->
                 (forall t, meta document_title doc = Some t -> t <> "" -> cite_source c = t)
                 /\ ((meta document_title doc = None \/ meta document_title doc = Some "") ->
                       cite_source c = "Unknown Source"))
           /\ (forall p, meta page doc = Some p -> pageTruthy p = true ->
                 cite_page c = Some p)
           /\ ((meta page doc = None
                \/ exists p, meta page doc = Some p /\ pageTruthy p = false) ->
                 cite_page c = meta pageNumber doc)
           /\ (forall p, cite_page c = Some p -> pageTruthy p = true ->
                 label = cite_source c +:+ " (halaman " +:+ pageToString p +:+ ")")
           /\ ((cite_page c = None
                \/ exists p, cite_page c = Some p /\ pageTruthy p = false) ->
                 label = cite_source c)
           /\ String.length (cite_text c) <= 200
           /\ (pageContent doc <> "" ->
                 cite_text c = substring 0 200 (pageContent doc)
                 /\ body = pageContent doc)
           /\ (pageContent doc = "" -> forall s, content doc = Some s ->
                 cite_text c = substring 0 200 s /\ body = s)
           /\ (pageContent doc = "" -> content doc = None ->
                 cite_text c = "" /\ body = "undefined").
Proof.
  exists (imap contextBlock docs), (List.map citationOf docs).
  split; [destruct docs as [|d rest]; simpl; [by rewrite app_nil_r | done]|].
  split; [by destruct docs|]. split; [done|].
  split; [apply length_imap|]. split; [apply length_map|].
  intros i doc Hi.
  exists (citationOf doc), (citationText doc), (blockBody doc).
  split; [by rewrite map_is_fmap, list_lookup_fmap, Hi|].
  split; [by rewrite list_lookup_imap, Hi|].
  cbn [citationOf cite_source cite_page cite_text].
  destruct (docSource_cases doc) as [Hs1 Hs2].
  destruct (docPage_cases doc) as [Hp1 Hp2].
  destruct (citationText_cases doc) as [Hl1 Hl2].
  destruct (excerpt_cases doc) as (He1 & He2 & He3).
  split; [exact Hs1|]. split; [exact Hs2|]. split; [exact Hp1|]. split; [exact Hp2|].
  split; [exact Hl1|]. split; [exact Hl2|]. split; [apply excerpt_bounded|].
  split; [exact He1|]. split; [exact He2 | exact He3].
Qed.

Example formatContextFromDocs_two_chunks :
  let meta1 := {| source := Some "A.pdf"; document_title := None;
                  page := Some (PNum 2); pageNumber := None |} in
  let d1 := {| pageContent := "alpha"; content := None; metadata := Some meta1 |} in
  let d2 := {| pageContent := "beta"; content := None; metadata := None |} in
  formatContextFromDocs [d1; d2] (Some [])
  = ("--- Dokumen #1: A.pdf (halaman 2) ---" +:+ JsString.nl +:+ "alpha" +:+ JsString.nl
     +:+ JsString.nl +:+ JsString.nl
     +:+ "--- Dokumen #2: Unknown Source ---" +:+ JsString.nl +:+ "beta" +:+ JsString.nl,
     Some [ {| cite_source := "A.pdf"; cite_page := Some (PNum 2); cite_text := "alpha" |};
            {| cite_source := "Unknown Source"; cite_page := None; cite_text := "beta" |} ]).
Proof. vm_compute. reflexivity. Qed.

(** ** The references section *)



Lemma ownLookup_Some (o : JsObject.t) (k : string) :
  k ∈ o.*1 -> exists v, JsObject.ownLookup o k = Some v /\ (k, v) ∈ o.
Proof.
  unfold JsObject.ownLookup. induction o as [|[k' v'] o IH]; simpl.
  - intros H. by apply elem_of_nil in H.
  - intros H. destruct (String.eqb k' k) eqn:E; simpl.
    + apply String.eqb_eq in E as ->. exists v'. split; [done | left].
    + apply elem_of_cons in H as [->|H]; [by rewrite String.eqb_refl in E|].
      destruct (IH H) as (v & Hv & Hin). exists v. split; [done | by right].
Qed.

Lemma ownLookup_None (o : JsObject.t) (k : string) :
  k ∉ o.*1 -> JsObject.ownLookup o k = None /\ JsObject.hasOwn o k = false.
Proof.
  unfold JsObject.ownLookup, JsObject.hasOwn.
  induction o as [|[k' v'] o IH]; simpl; [done|].
  intros H. apply not_elem_of_cons in H as [Hne H].
  destruct (String.eqb k' k) eqn:E; [apply String.eqb_eq in E; congruence|].
  simpl. by apply IH.
Qed.

Lemma readTruthy_plain (o : JsObject.t) (k : string) :
  plainKey k -> (forall p, p ∈ o -> JsString.truthy p.2 = true) ->
  JsObject.readTruthy o k = bool_decide (k ∈ o.*1).
Proof.
  intros [_ Hproto] Hvals. unfold JsObject.readTruthy. case_bool_decide as Hk.
  - destruct (ownLookup_Some o k Hk) as (v & -> & Hin). apply (Hvals _ Hin).
  - destruct (ownLookup_None o k Hk) as [-> _]. exact Hproto.
Qed.

Lemma set_plain_fresh (o : JsObject.t) (k v : string) :
  plainKey k -> k ∉ o.*1 -> JsObject.set o k v = o ++ [(k, v)].
Proof.
  intros [_ Hproto] Hk. unfold JsObject.set.
  destruct (String.eqb k "__proto__") eqn:E.
  - apply String.eqb_eq in E. subst k. vm_compute in Hproto. discriminate.
  - by destruct (ownLookup_None o k Hk) as [_ ->].
Qed.

Lemma referenceLine_truthy idx key : JsString.truthy (referenceLine idx key) = true.
Proof. reflexivity. Qed.

Lemma collectSources_plain (cites : list Citation) :
  forall idx (o : JsObject.t) (seen : list string),
    Forall plainKey (sourceKey <$> cites) ->
    (forall p, p ∈ o -> JsString.truthy p.2 = true) ->
    (forall k, k ∈ o.*1 <-> k ∈ seen) ->
    exists added,
      collectSources cites idx o = o ++ added
      /\ added.*2 = firstSeenLines seen idx cites
      /\ Forall plainKey added.*1.
Proof.
  induction cites as [|c rest IH]; intros idx o seen Hplain Hvals Hseen; simpl.
  - exists []. by rewrite app_nil_r.
  - rewrite fmap_cons in Hplain. apply Forall_cons in Hplain as [Hc Hrest].
    rewrite (readTruthy_plain o _ Hc Hvals).
    assert (Hseen' : forall (o' : JsObject.t),
               (forall k, k ∈ o'.*1 <-> k ∈ o.*1 \/ k = sourceKey c) ->
               forall k, k ∈ o'.*1 <-> k ∈ seen ++ [sourceKey c]).
    { intros o' Ho' k. rewrite Ho', elem_of_app, list_elem_of_singleton, Hseen. done. }
    case_bool_decide as Hk.
    + rewrite bool_decide_eq_true_2 by (by apply Hseen).
      destruct (IH (S idx) o (seen ++ [sourceKey c]) Hrest Hvals) as (added & H1 & H2 & H3).
      { apply Hseen'. intros k. split; [by left|]. by intros [?| ->]. }
      exists added. done.
    + rewrite bool_decide_eq_false_2 by (by rewrite <- Hseen).
      rewrite (set_plain_fresh o _ _ Hc Hk).
      destruct (IH (S idx) (o ++ [(sourceKey c, referenceLine idx (sourceKey c))])
                  (seen ++ [sourceKey c]) Hrest) as (added & H1 & H2 & H3).
      { intros p Hp. apply elem_of_app in Hp as [Hp|Hp]; [by apply Hvals|].
        apply list_elem_of_singleton in Hp as ->. apply referenceLine_truthy. }
      { apply Hseen'. intros k. rewrite fmap_app, elem_of_app. simpl.
        by rewrite list_elem_of_singleton. }
      exists ((sourceKey c, referenceLine idx (sourceKey c)) :: added).
      split; [by rewrite H1, <- app_assoc|].
      split; [by rewrite fmap_cons, H2 | by constructor].
Qed.

Lemma values_plain (o : JsObject.t) :
  Forall plainKey o.*1 -> JsObject.values o = o.*2.
Proof.
  intros Ho. unfold JsObject.values.
  assert (Hindexed : omap (fun p : string * string =>
                             (fun n => (n, p.2)) <$> JsObject.arrayIndex p.1) o = []).
  { induction o as [|[k v] o IH]; simpl; [done|].
    apply Forall_cons in Ho as [[Hk _] Ho]. simpl in Hk. rewrite Hk. simpl. by apply IH. }
  assert (Hnamed : List.filter (fun p : string * string =>
                      negb (bool_decide (is_Some (JsObject.arrayIndex p.1)))) o = o).
  { induction o as [|[k v] o IH]; simpl; [done|].
    apply Forall_cons in Ho as [[Hk _] Ho]. simpl in Hk. rewrite Hk. simpl.
    f_equal. apply IH; [done|].
    simpl in Hindexed. rewrite Hk in Hindexed. exact Hindexed. }
  rewrite Hindexed, Hnamed. done.
Qed.

Lemma firstSeenLines_length (cites : list Citation) : forall seen idx,
  length (firstSeenLines seen idx cites)
  = size ((list_to_set (sourceKey <$> cites) : gset string) ∖ list_to_set seen).
Proof.
  induction cites as [|c rest IH]; intros seen idx; simpl.
  - replace (∅ ∖ list_to_set seen : gset string) with (∅ : gset string) by set_solver.
    by rewrite size_empty.
  - rewrite length_app, IH. clear IH.
    set (R := list_to_set (sourceKey <$> rest) : gset string).
    case_bool_decide as Hk; simpl.
    + f_equal. apply set_eq. intros x.
      destruct (decide (x = sourceKey c)) as [->|Hne]; set_solver.
    + set (X := R ∖ list_to_set (seen ++ [sourceKey c])).
      pose proof (size_union ({[sourceKey c]} : gset string) X) as Hsz.
      rewrite size_singleton in Hsz. simpl in Hsz. rewrite <- Hsz by set_solver.
      f_equal. apply set_eq. intros x.
      destruct (decide (x = sourceKey c)) as [->|Hne]; set_solver.
Qed.

(** C8, as the code has it. An answer that already holds a references
    header comes back unchanged, and so does any answer when there is no
    citation. Otherwise, for citation keys that the dictionary treats as
    ordinary keys, the answer is extended by the header and one line per
    distinct key, in first-seen order; the line of a key is numbered by
    the position (from 1) of the first citation that has the key, so the
    numbers increase but skip the positions of repeated keys. *)
Theorem ensureReferences_appends_first_seen_lines
    (response : string) (cites : list Citation) :
  (hasReferencesSection response = true ->
     ensureReferences response (Some cites) = response)
  /\ ensureReferences response (Some []) = response
  /\ ensureReferences response None = response
  /\ (response <> "" -> hasReferencesSection response = false -> cites <> [] ->
      Forall plainKey (sourceKey <$> cites) ->
      ensureReferences response (Some cites)
        = response +:+ JsString.nl +:+ JsString.nl +:+ "REFERENSI:" +:+ JsString.nl
          +:+ JsString.join JsString.nl (firstSeenLines [] 0 cites)
      /\ length (firstSeenLines [] 0 cites)
         = size (list_to_set (sourceKey <$> cites) : gset string)).
Proof.
  unfold ensureReferences.
  destruct (JsString.truthy response) eqn:Ht; cbn [negb].
  2:{ apply negb_false_iff, String.eqb_eq in Ht. subst response.
      repeat split; try done. }
  split; [by intros ->|]. split; [by destruct (hasReferencesSection response)|].
  split; [by destruct (hasReferencesSection response)|].
  intros _ Hsec Hne Hplain. rewrite Hsec. destruct cites as [|c cs]; [done|].
  destruct (collectSources_plain (c :: cs) 0 JsObject.empty [] Hplain)
    as (added & H1 & H2 & H3).
  { intros p Hp. by apply elem_of_nil in Hp. }
  { done. }
  rewrite H1. simpl app. rewrite (values_plain added H3), H2.
  split; [done|]. rewrite firstSeenLines_length. f_equal. set_solver.
Qed.


Lemma ensureReferences_appends_first_seen_lines_witness :
  ensureReferences "Jawaban" (Some repeatedSourceCitations)
  = "Jawaban" +:+ JsString.nl +:+ JsString.nl +:+ "REFERENSI:" +:+ JsString.nl
    +:+ JsString.join JsString.nl (firstSeenLines [] 0 repeatedSourceCitations)
  /\ length (firstSeenLines [] 0 repeatedSourceCitations)
     = size (list_to_set (sourceKey <$> repeatedSourceCitations) : gset string).
Proof.
  apply (ensureReferences_appends_first_seen_lines "Jawaban" repeatedSourceCitations).
  - discriminate.
  - reflexivity.
  - discriminate.
  - repeat constructor.
Defined.

(** C8 as stated fails: with the citations A, A, B the appended lines are
    numbered 1 and 3, not 1 and 2. *)
Lemma ensureReferences_numbering_skips :
  ensureReferences "Jawaban" (Some repeatedSourceCitations)
  = "Jawaban" +:+ JsString.nl +:+ JsString.nl +:+ "REFERENSI:" +:+ JsString.nl
    +:+ "[1] A.pdf" +:+ JsString.nl +:+ "[3] B.pdf (halaman 3)"
  /\ ensureReferences "Jawaban" (Some repeatedSourceCitations)
     <> "Jawaban" +:+ JsString.nl +:+ JsString.nl +:+ "REFERENSI:" +:+ JsString.nl
        +:+ "[1] A.pdf" +:+ JsString.nl +:+ "[2] B.pdf (halaman 3)".
Proof. split; [vm_compute; reflexivity | vm_compute; discriminate]. Qed.

(** Keys that the dictionary does not treat as ordinary ones: a source
    titled with an array index moves to the front, and a source named
    after an inherited member gets no line. *)
Example ensureReferences_special_keys :
  ensureReferences "Jawaban"
    (Some [citing "notes" None; citing "7" None; citing "constructor" None])
  = "Jawaban" +:+ JsString.nl +:+ JsString.nl +:+ "REFERENSI:" +:+ JsString.nl
    +:+ "[2] 7" +:+ JsString.nl +:+ "[1] notes".
Proof. vm_compute. reflexivity. Qed.

(** ** Cosine similarity *)


Lemma float_mul_comm (x y : float) : (x * y)%float = (y * x)%float.
Proof.
  apply Prim2SF_inj. rewrite !mul_spec. unfold SF64mul, SFmul.
  destruct (Prim2SF x) as [sx|sx| |sx mx ex], (Prim2SF y) as [sy|sy| |sy my ey];
    try reflexivity; try (by rewrite xorb_comm).
  by rewrite xorb_comm, Pos.mul_comm, Z.add_comm.
Qed.

Lemma accumulate_folds (v1 : list float) : forall v2 d s1 s2,
  length v1 = length v2 ->
  accumulate v1 v2 (d, s1, s2)
  = (List.fold_left (fun acc p => (acc + fst p * snd p)%float) (zip v1 v2) d,
     List.fold_left (fun acc a => (acc + a * a)%float) v1 s1,
     List.fold_left (fun acc a => (acc + a * a)%float) v2 s2).
Proof.
  induction v1 as [|a r1 IH]; intros [|b r2] d s1 s2 Hlen; simpl in *;
    try done; try lia.
  apply IH. lia.
Qed.

Lemma dotProduct_comm (v1 : list float) : forall v2 d,
  List.fold_left (fun acc p => (acc + fst p * snd p)%float) (zip v1 v2) d
  = List.fold_left (fun acc p => (acc + fst p * snd p)%float) (zip v2 v1) d.
Proof.
  induction v1 as [|a r1 IH]; intros [|b r2] d; simpl; try done.
  rewrite (float_mul_comm a b). apply IH.
Qed.

Lemma sumSquares_zeros (n : nat) :
  List.fold_left (fun acc a => (acc + a * a)%float) (repeat 0%float n) 0%float = 0%float.
Proof. induction n as [|n IH]; simpl; [done | exact IH]. Qed.

Lemma cosineSimilarity_arrays (v1 v2 : list float) :
  length v1 = length v2 ->
  cosineSimilarity (ArrayOf v1) (ArrayOf v2)
  = if (magnitude v1 =? 0)%float || (magnitude v2 =? 0)%float then 0%float
    else (dotProduct v1 v2 / (magnitude v1 * magnitude v2))%float.
Proof.
  intros Hlen. unfold cosineSimilarity.
  rewrite (proj2 (Nat.eqb_eq _ _) Hlen). cbn [negb].
  by rewrite accumulate_folds.
Qed.

Lemma magnitude_zeroEmbedding : (magnitude zeroEmbedding =? 0)%float = true.
Proof. unfold magnitude, zeroEmbedding. by rewrite sumSquares_zeros. Qed.

(** C10. [cosineSimilarity] returns a number for all arguments. It is 0
    when an argument is not an array, when the lengths differ, and when
    the magnitude of either vector is zero; so the division is reached
    only with two magnitudes that both differ from zero, and then the
    result is the dot product divided by the product of the magnitudes.
    The zero placeholder embedding has similarity 0 with every argument,
    on either side, and the function is symmetric. *)
Theorem cosineSimilarity_guards_and_symmetry (x y : VectorArg) (v1 v2 : list float) :
  cosineSimilarity NotArray y = 0%float
  /\ cosineSimilarity x NotArray = 0%float
  /\ (length v1 <> length v2 -> cosineSimilarity (ArrayOf v1) (ArrayOf v2) = 0%float)
  /\ (length v1 = length v2 ->
      ((magnitude v1 =? 0)%float = true \/ (magnitude v2 =? 0)%float = true) ->
      cosineSimilarity (ArrayOf v1) (ArrayOf v2) = 0%float)
  /\ (length v1 = length v2 ->
      (magnitude v1 =? 0)%float = false -> (magnitude v2 =? 0)%float = false ->
      cosineSimilarity (ArrayOf v1) (ArrayOf v2)
      = (dotProduct v1 v2 / (magnitude v1 * magnitude v2))%float)
  /\ cosineSimilarity (ArrayOf zeroEmbedding) y = 0%float
  /\ cosineSimilarity x (ArrayOf zeroEmbedding) = 0%float
  /\ cosineSimilarity x y = cosineSimilarity y x.
Proof.
  assert (Hzero_l : forall w, cosineSimilarity (ArrayOf zeroEmbedding) w = 0%float).
  { intros [w|]; [|done].
    destruct (decide (length zeroEmbedding = length w)) as [Hlen|Hlen].
    - by rewrite (cosineSimilarity_arrays _ _ Hlen), magnitude_zeroEmbedding.
    - unfold cosineSimilarity. by rewrite (proj2 (Nat.eqb_neq _ _) Hlen). }
  assert (Hsym : forall a b, cosineSimilarity a b = cosineSimilarity b a).
  { intros [a|] [b|]; try done.
    destruct (decide (length a = length b)) as [Hlen|Hlen].
    - rewrite (cosineSimilarity_arrays _ _ Hlen), (cosineSimilarity_arrays _ _ (eq_sym Hlen)).
      unfold dotProduct. rewrite (dotProduct_comm a b), orb_comm.
      by rewrite (float_mul_comm (magnitude a) (magnitude b)).
    - unfold cosineSimilarity.
      rewrite (proj2 (Nat.eqb_neq _ _) Hlen).
      by rewrite (proj2 (Nat.eqb_neq _ _) (not_eq_sym Hlen)). }
  split; [done|]. split; [by destruct x|].
  split; [intros Hlen; unfold cosineSimilarity; by rewrite (proj2 (Nat.eqb_neq _ _) Hlen)|].
  split; [intros Hlen [H|H]; rewrite (cosineSimilarity_arrays _ _ Hlen), H;
          [done | by rewrite orb_true_r]|].
  split; [intros Hlen H1 H2; by rewrite (cosineSimilarity_arrays _ _ Hlen), H1, H2|].
  split; [apply Hzero_l|]. split; [rewrite Hsym; apply Hzero_l | apply Hsym].
Qed.

Example cosineSimilarity_orthogonal_and_parallel :
  cosineSimilarity (ArrayOf [3; 0]%float) (ArrayOf [0; 2]%float) = 0%float
  /\ cosineSimilarity (ArrayOf [3; 4]%float) (ArrayOf [6; 8]%float) = 1%float
  /\ cosineSimilarity (ArrayOf [3; 4]%float) (ArrayOf [6; 8; 1]%float) = 0%float
  /\ cosineSimilarity (ArrayOf [0; 0]%float) (ArrayOf [nan; 1]%float) = 0%float.
Proof. repeat split; vm_compute; reflexivity. Qed.

(** ** The persistent chunk store *)

Lemma pushZeros_app (missing : nat) : forall v,
  pushZeros missing v = v ++ repeat (VNumber 0%float) missing.
Proof.
  induction missing as [|k IH]; intros v; simpl; [by rewrite app_nil_r|].
  by rewrite IH, <- app_assoc.
Qed.

Lemma length_zeroVector : length zeroVector = EXPECTED_DIMENSIONS.
Proof. apply repeat_length. Qed.

Lemma normalizeQueryEmbedding_length (q : list JsValue) :
  length (normalizeQueryEmbedding q) = EXPECTED_DIMENSIONS.
Proof.
  unfold normalizeQueryEmbedding.
  destruct (length q =? EXPECTED_DIMENSIONS)%nat eqn:E1; [by apply Nat.eqb_eq|].
  apply Nat.eqb_neq in E1.
  destruct (EXPECTED_DIMENSIONS <? length q)%nat eqn:E2.
  - apply Nat.ltb_lt in E2. rewrite length_take. lia.
  - apply Nat.ltb_ge in E2. rewrite pushZeros_app, length_app, repeat_length. lia.
Qed.

Lemma processEmbedding_valid (vals : list JsValue) :
  existsb isInvalidValue vals = false ->
  processEmbedding (CellArray vals) = normalizeQueryEmbedding vals
  /\ processEmbedding (CellObject vals) = normalizeQueryEmbedding vals.
Proof. intros H. unfold processEmbedding, normalizeQueryEmbedding. by rewrite H. Qed.

Lemma processEmbedding_length (cell : EmbeddingCell) :
  length (processEmbedding cell) = EXPECTED_DIMENSIONS.
Proof.
  destruct cell as [|vals|vals]; [apply length_zeroVector| |];
    (destruct (existsb isInvalidValue vals) eqn:E;
     [unfold processEmbedding; rewrite E; apply length_zeroVector
     |rewrite (proj1 (processEmbedding_valid vals E)) || rewrite (proj2 (processEmbedding_valid vals E));
      apply normalizeQueryEmbedding_length]).
Qed.

Lemma alignEmbeddings_length (n : nat) (embeddings : option (list EmbeddingCell)) :
  length (alignEmbeddings n embeddings) = n.
Proof.
  unfold alignEmbeddings. destruct embeddings as [es|].
  - destruct (length es =? n)%nat eqn:E; [by apply Nat.eqb_eq|].
    by rewrite length_map, length_seq.
  - by rewrite length_map, length_seq.
Qed.

Lemma upsertBatchesFrom_concat (data : list UpsertRow) : forall fuel i,
  length data <= i + 100 * fuel ->
  concat (upsertBatchesFrom fuel i data) = drop i data.
Proof.
  induction fuel as [|fuel IH]; intros i Hfuel; simpl.
  - rewrite drop_ge; [done | lia].
  - destruct (i <? length data)%nat eqn:E.
    + simpl. rewrite IH by lia. rewrite <- drop_drop. apply take_drop.
    + apply Nat.ltb_ge in E. by rewrite drop_ge.
Qed.


Section ChunkStoreFacts.

Context {MetadataObj Row : Type}.
Variable sanitizeString : string -> string.
Variable stringifyMetadata : option MetadataObj -> string.
Variable rpcMatchDocuments : list JsValue -> list string -> nat -> Outcome (list Row).
Variable rpcQuerySql : string -> list JsValue -> list string -> nat -> Outcome (list Row).
Variable performTextSearch : list JsValue -> list string -> nat -> list Row.

Lemma upsertData_rows documentId userId (chunks : list (ChunkInput MetadataObj)) embeddings :
  length (upsertData sanitizeString stringifyMetadata documentId userId chunks embeddings)
    = length chunks
  /\ forall i row,
       upsertData sanitizeString stringifyMetadata documentId userId chunks embeddings !! i
         = Some row ->
       row_chunk_index row = i
       /\ exists cell, alignEmbeddings (length chunks) embeddings !! i = Some cell
            /\ row_embedding row = Some (processEmbedding cell).
Proof.
  unfold upsertData. split; [apply length_imap|].
  intros i row. rewrite list_lookup_imap.
  destruct (chunks !! i) as [chunk|] eqn:Hi; [|done].
  simpl. intros [= <-]. simpl. split; [done|].
  apply lookup_lt_Some in Hi.
  destruct (lookup_lt_is_Some_2 (alignEmbeddings (length chunks) embeddings) i) as [cell Hcell].
  { by rewrite alignEmbeddings_length. }
  exists cell. split; [done|].
  by rewrite map_is_fmap, list_lookup_fmap, Hcell.
Qed.

Lemma storedRows_storeDocumentChunks userId documentId
    (chunks : list (ChunkInput MetadataObj)) embeddings :
  storedRows (storeDocumentChunks sanitizeString stringifyMetadata
                (Some userId) documentId (Some chunks) embeddings)
  = upsertData sanitizeString stringifyMetadata documentId userId chunks embeddings.
Proof.
  unfold storeDocumentChunks. destruct chunks as [|c cs]; [reflexivity|].
  cbv zeta. set (data := upsertData _ _ _ _ _ _). unfold storedRows.
  rewrite upsertBatchesFrom_concat; [reflexivity | lia].
Qed.

Lemma upsertData_lookup documentId userId (chunks : list (ChunkInput MetadataObj))
    embeddings i chunk :
  chunks !! i = Some chunk ->
  exists row cell,
    upsertData sanitizeString stringifyMetadata documentId userId chunks embeddings !! i
      = Some row
    /\ row_document_id row = documentId
    /\ row_user_id row = userId
    /\ row_chunk_index row = i
    /\ row_content row
       = sanitizeString
           (from_option id ""
              (orString (orString (chunk_content chunk) (chunk_pageContent chunk))
                        (Some "")))
    /\ row_metadata row = stringifyMetadata (chunk_metadata chunk)
    /\ alignEmbeddings (length chunks) embeddings !! i = Some cell
    /\ row_embedding row = Some (processEmbedding cell).
Proof.
  intros Hi. unfold upsertData. rewrite list_lookup_imap, Hi. cbn [fmap option_fmap option_map].
  destruct (lookup_lt_is_Some_2 (alignEmbeddings (length chunks) embeddings) i) as [cell Hcell].
  { rewrite alignEmbeddings_length. by apply lookup_lt_Some in Hi. }
  eexists. exists cell. split; [reflexivity|]. cbn.
  split; [done|]. split; [done|]. split; [done|]. split; [done|]. split; [done|].
  split; [done|]. by rewrite map_is_fmap, list_lookup_fmap, Hcell.
Qed.

Lemma alignEmbeddings_lookup (n : nat) (embeddings : option (list EmbeddingCell)) i cell :
  i < n ->
  alignEmbeddings n embeddings !! i = Some cell ->
  (forall es, embeddings = Some es -> length es = n -> es !! i = Some cell)
  /\ ((embeddings = None \/ exists es, embeddings = Some es /\ length es <> n) ->
        (forall given, from_option id [] embeddings !! i = Some given ->
           given <> CellFalsy -> cell = given)
        /\ ((from_option id [] embeddings !! i = None
             \/ from_option id [] embeddings !! i = Some CellFalsy) ->
              cell = CellArray zeroVector)).
Proof.
  intros Hi Hcell.
  assert (Hrebuild : forall es : list EmbeddingCell,
            List.map (fun i => match es !! i with
                               | Some CellFalsy | None => CellArray zeroVector
                               | Some cell => cell
                               end) (seq 0 n) !! i = Some cell ->
            (forall given, es !! i = Some given -> given <> CellFalsy -> cell = given)
            /\ ((es !! i = None \/ es !! i = Some CellFalsy) -> cell = CellArray zeroVector)).
  { intros es. rewrite map_is_fmap, list_lookup_fmap, lookup_seq_lt by done.
    cbn. intros [= <-]. split.
    - intros given -> Hgiven. by destruct given.
    - by intros [-> | ->]. }
  unfold alignEmbeddings in Hcell. split.
  - intros es -> Hlen. by rewrite (proj2 (Nat.eqb_eq _ _) Hlen) in Hcell.
  - intros [-> | (es & -> & Hlen)]; cbn [from_option id].
    + by apply Hrebuild.
    + rewrite (proj2 (Nat.eqb_neq _ _) Hlen) in Hcell. by apply Hrebuild.
Qed.

Lemma processEmbedding_zeroVector : processEmbedding (CellArray zeroVector) = zeroVector.
Proof. vm_compute. reflexivity. Qed.

(** C1, as the code has it. Every embedding [storeDocumentChunks] hands
    to the database has exactly 1536 components: the row of chunk [i]
    holds the embedding given for chunk [i], replaced by the zero vector
    when it is missing or holds a value that is not a finite number, cut
    to its first 1536 components when it is longer, followed by zeros
    when it is shorter. [performVectorSearch] cuts or pads the query
    embedding by the same rule and every request that carries a vector
    carries that one, of 1536 finite numbers; but it replaces nothing: a
    query embedding that is no array, or that holds an invalid value
    after the cut, is rejected and nothing is searched. *)
Theorem stored_and_searched_vectors_have_expected_dimension
    (uid documentId : string) (chunks : list (ChunkInput MetadataObj))
    (embeddings : option (list EmbeddingCell))
    (cell : EmbeddingCell) (vals : list JsValue)
    (userId : option string) (queryEmbedding : QueryArg)
    (documentIds : list string) (limit : nat) :
  let rows := storedRows (storeDocumentChunks sanitizeString stringifyMetadata
                            (Some uid) documentId (Some chunks) embeddings) in
  let search := performVectorSearch rpcMatchDocuments rpcQuerySql performTextSearch
                  userId queryEmbedding documentIds limit in
  let invalid (val : JsValue) :=
    match val with
    | VNumber x => PrimFloat.is_nan x || negb (PrimFloat.is_finite x)
    | _ => true
    end in
  let fitted (v : list JsValue) :=
    if (length v =? 1536)%nat then v
    else if (1536 <? length v)%nat then take 1536 v
         else v ++ repeat (VNumber 0%float) (1536 - length v) in
  length (processEmbedding cell) = 1536
  /\ processEmbedding CellFalsy = repeat (VNumber 0%float) 1536
  /\ processEmbedding (CellObject vals) = processEmbedding (CellArray vals)
  /\ processEmbedding (CellArray vals)
     = (if existsb invalid vals then repeat (VNumber 0%float) 1536 else fitted vals)
  /\ storeDocumentChunks sanitizeString stringifyMetadata None documentId (Some chunks)
       embeddings = Rejected (newError "User not logged in")
  /\ storeDocumentChunks sanitizeString stringifyMetadata (Some uid) documentId None
       embeddings = Resolved []
  /\ length rows = length chunks
  /\ (forall i chunk, chunks !! i = Some chunk ->
        exists row v,
          rows !! i = Some row
          /\ row_chunk_index row = i
          /\ row_document_id row = documentId
          /\ row_user_id row = uid
          /\ row_content row
             = sanitizeString
                 (from_option id ""
                    (orString (orString (chunk_content chunk) (chunk_pageContent chunk))
                              (Some "")))
          /\ row_metadata row = stringifyMetadata (chunk_metadata chunk)
          /\ row_embedding row = Some v
          /\ length v = 1536
          /\ (forall es given, embeddings = Some es -> length es = length chunks ->
                es !! i = Some given -> v = processEmbedding given)
          /\ ((embeddings = None
               \/ exists es, embeddings = Some es /\ length es <> length chunks) ->
                (forall given, from_option id [] embeddings !! i = Some given ->
                   v = processEmbedding given)
                /\ (from_option id [] embeddings !! i = None ->
                      v = repeat (VNumber 0%float) 1536)))
  /\ normalizeQueryEmbedding vals = fitted vals
  /\ length (normalizeQueryEmbedding vals) = 1536
  /\ (userId = None -> search = (Rejected (newError "User not logged in"), []))
  /\ (forall user, userId = Some user ->
        (queryEmbedding = QueryNotArray ->
           search
           = (Rejected (newError "Query embedding must be a non-empty array of numbers"), []))
        /\ (forall q, queryEmbedding = QueryArray q ->
              (existsb invalid (fitted q) = true ->
                 search = (Rejected (newError "Embedding vector contains invalid values"), []))
              /\ (existsb invalid (fitted q) = false ->
                    (forall data,
                       rpcMatchDocuments (fitted q) documentIds limit = Resolved data ->
                       search = (Resolved data, [RpcMatchDocuments (fitted q) limit]))
                    /\ (forall e,
                          rpcMatchDocuments (fitted q) documentIds limit = Rejected e ->
                          (forall data,
                             rpcQuerySql user (fitted q) documentIds limit = Resolved data ->
                             search
                             = (Resolved data,
                                [RpcMatchDocuments (fitted q) limit;
                                 RpcQuerySql (fitted q) limit]))
                          /\ (forall e',
                                rpcQuerySql user (fitted q) documentIds limit
                                = Rejected e' ->
                                search
                                = (Resolved (performTextSearch q documentIds limit),
                                   [RpcMatchDocuments (fitted q) limit;
                                    RpcQuerySql (fitted q) limit;
                                    TextSearch q]))))))
  /\ Forall (fun c => forall v, searchedVector c = Some v ->
               length v = 1536 /\ existsb invalid v = false
               /\ exists q, queryEmbedding = QueryArray q /\ v = fitted q)
       (snd search).
Proof.
  intros rows search invalid fitted.
  assert (Hinvalid : forall l, existsb invalid l = existsb isInvalidValue l) by done.
  assert (Hzero : zeroVector = repeat (VNumber 0%float) 1536) by done.
  assert (Hfitted : forall v, normalizeQueryEmbedding v = fitted v).
  { intros v. unfold normalizeQueryEmbedding. subst fitted. cbv beta.
    change EXPECTED_DIMENSIONS with 1536.
    destruct (length v =? 1536)%nat; [done|].
    destruct (1536 <? length v)%nat; [done | apply pushZeros_app]. }
  assert (Hprocess : forall l,
            processEmbedding (CellArray l)
            = (if existsb invalid l then repeat (VNumber 0%float) 1536 else fitted l)).
  { intros l. rewrite Hinvalid. unfold processEmbedding.
    destruct (existsb isInvalidValue l) eqn:E; [done|].
    rewrite <- Hfitted. done. }
  split; [apply processEmbedding_length|]. split; [done|]. split; [done|].
  split; [apply Hprocess|]. split; [done|]. split; [done|].
  subst rows. rewrite storedRows_storeDocumentChunks.
  split; [apply upsertData_rows|].
  split.
  { intros i chunk Hi.
    destruct (upsertData_lookup documentId uid chunks embeddings i chunk Hi)
      as (row & aligned & Hrow & Hdoc & Huser & Hindex & Hcontent & Hmeta & Haligned
          & Hembedding).
    exists row, (processEmbedding aligned).
    split; [done|]. split; [done|]. split; [done|]. split; [done|]. split; [done|].
    split; [done|]. split; [done|]. split; [apply processEmbedding_length|].
    destruct (alignEmbeddings_lookup (length chunks) embeddings i aligned) as [Hsame Hrebuilt];
      [by apply lookup_lt_Some in Hi | done |].
    split.
    - intros es given Hes Hlen Hgiven. rewrite (Hsame es Hes Hlen) in Hgiven.
      by injection Hgiven as <-.
    - intros Hmismatch. destruct (Hrebuilt Hmismatch) as [Hgiven Hmissing]. split.
      + intros given Hlookup. destruct given as [|given|given].
        * rewrite (Hmissing (or_intror Hlookup)). apply processEmbedding_zeroVector.
        * by rewrite (Hgiven _ Hlookup).
        * by rewrite (Hgiven _ Hlookup).
      + intros Hlookup. rewrite (Hmissing (or_introl Hlookup)), <- Hzero.
        apply processEmbedding_zeroVector. }
  split; [apply Hfitted|]. split; [apply normalizeQueryEmbedding_length|].
  subst search. unfold performVectorSearch.
  split; [by intros ->|].
  split.
  { intros user ->. split; [by intros ->|]. intros q ->.
    rewrite !Hfitted. change isInvalidValue with invalid.
    split; [by intros ->|]. intros ->.
    split.
    - by intros data ->.
    - intros e ->. split; [by intros data -> | by intros e' ->]. }
  destruct userId as [user|]; [|constructor].
  destruct queryEmbedding as [q|]; [|constructor].
  rewrite !Hfitted. change isInvalidValue with invalid.
  destruct (existsb invalid (fitted q)) eqn:Hvalid; [constructor|].
  assert (Hcall : forall c, searchedVector c = None \/ searchedVector c = Some (fitted q) ->
            forall w, searchedVector c = Some w ->
              length w = 1536 /\ existsb invalid w = false
              /\ exists q', QueryArray q = QueryArray q' /\ w = fitted q').
  { intros c [Hc|Hc] w Hw; rewrite Hc in Hw; [discriminate Hw|].
    injection Hw as <-. split; [rewrite <- Hfitted; apply normalizeQueryEmbedding_length|].
    split; [done|]. by exists q. }
  destruct (rpcMatchDocuments _ _ _); [|destruct (rpcQuerySql _ _ _ _)]; simpl;
    repeat (constructor; [apply Hcall; ((by right) || (by left))|]); constructor.
Qed.

End ChunkStoreFacts.

Example processEmbedding_pads_and_truncates :
  processEmbedding (CellArray [VNumber 1; VNumber 2]%float)
    = [VNumber 1; VNumber 2]%float ++ repeat (VNumber 0%float) 1534
  /\ processEmbedding (CellArray (repeat (VNumber 1%float) 1540)) = repeat (VNumber 1%float) 1536
  /\ processEmbedding (CellArray [VNumber 1%float; VNumber nan]) = zeroVector
  /\ processEmbedding (CellArray [VNumber 1%float; VString "2"]) = zeroVector
  /\ processEmbedding (CellArray [VNumber infinity]) = zeroVector.
Proof. repeat split; vm_compute; reflexivity. Qed.

(** Two chunks and a single, short embedding: the first row gets it
    padded, the second row the zero vector. *)
Example storeDocumentChunks_fills_missing_embedding :
  let chunk (t : string) : ChunkInput unit :=
    {| chunk_content := Some t; chunk_pageContent := None; chunk_metadata := None |} in
  row_embedding <$>
    storedRows (storeDocumentChunks (fun t => t) (fun _ => "{}") (Some "user-1") "doc-1"
                  (Some [chunk "alpha"; chunk "beta"]) (Some [CellArray [VNumber 1%float]]))
  = [ Some (VNumber 1%float :: repeat (VNumber 0%float) 1535); Some zeroVector ].
Proof. vm_compute. reflexivity. Qed.

(** A NaN beyond the 1536th component makes the store substitute the
    zero vector, while the search drops it with the excess components. *)
Example invalid_value_beyond_dimension :
  let q := repeat (VNumber 1%float) 1536 ++ [VNumber nan] in
  processEmbedding (CellArray q) = zeroVector
  /\ normalizeQueryEmbedding q = repeat (VNumber 1%float) 1536.
Proof. split; vm_compute; reflexivity. Qed.

(** C1 as stated fails for the query: where the store substitutes the
    zero vector for an embedding that holds a NaN, the search rejects the
    query and searches nothing; and where the NaN lies beyond the 1536th
    component, the store still substitutes the zero vector while the
    search cuts the NaN off and searches with the rest. *)
Lemma performVectorSearch_replaces_no_invalid_query :
  let search := performVectorSearch (fun _ _ _ => @Resolved (list nat) [])
                  (fun _ _ _ _ => Resolved []) (fun _ _ _ => []) (Some "user-1") in
  let long := repeat (VNumber 1%float) 1536 ++ [VNumber nan] in
  processEmbedding (CellArray [VNumber nan]) = zeroVector
  /\ search (QueryArray [VNumber nan]) [] 5
     = (Rejected (newError "Embedding vector contains invalid values"), [])
  /\ processEmbedding (CellArray long) = zeroVector
  /\ search (QueryArray long) [] 5
     = (Resolved [], [RpcMatchDocuments (repeat (VNumber 1%float) 1536) 5])
  /\ repeat (VNumber 1%float) 1536 <> zeroVector.
Proof.
  repeat split; try (vm_compute; reflexivity).
  intros H. vm_compute in H. discriminate H.
Qed.

(** ** Retry with backoff *)







Section RetryFacts.

Context {T : Type}.
Variable fn : nat -> Outcome T.
Variable random : nat -> Q.
Variable opts : RetryOptions.








End RetryFacts.



Example retry_delays_grow :
  run_delays (retryWithAdvancedBackoff failsThreeTimes (fun _ => 0.5%Q) defaultRetryOptions)
  = [ (Qmin 10000 (1000 * inject_Z (2 ^ 0)) * jitterFactor 0.5)%Q;
      (Qmin 10000 (1000 * inject_Z (2 ^ 1)) * jitterFactor 0.5)%Q;
      (Qmin 10000 (1000 * inject_Z (2 ^ 2)) * jitterFactor 0.5)%Q ].
Proof. reflexivity. Qed.

(** No call site passes [maxRetries = 0]; an operation would then never
    be invoked, and what is thrown would be the initial [undefined], not
    an error of the operation. *)
Lemma retry_with_zero_maxRetries_never_invokes :
  let opts := {| maxRetries := 0; initialDelay := 1000; maxDelay := 10000;
                 retryStatusCodes := [429; 500; 502; 503; 504]%Z |} in
  let fn := fun _ : nat => @Rejected nat badRequest in
  (forall a, exists e, fn a = Rejected e /\ shouldRetry (retryStatusCodes opts) e = false)
  /\ run_calls (retryWithAdvancedBackoff fn (fun _ => 0.5%Q) opts) = 0
  /\ run_calls (retryWithAdvancedBackoff fn (fun _ => 0.5%Q) opts) <> 1
  /\ run_result (retryWithAdvancedBackoff fn (fun _ => 0.5%Q) opts) = Threw None.
Proof.
  split; [intros a; exists badRequest; split; reflexivity|].
  split; [reflexivity|]. split; [discriminate | reflexivity].
Qed.

(** The fetch-failure test is the case-sensitive substring
    [failed to fetch]; the status and the three service messages are the
    other transient classes. *)
Example shouldRetry_classes :
  let codes := [429; 500; 502; 503; 504]%Z in
  shouldRetry codes rateLimited = true
  /\ shouldRetry codes badRequest = false
  /\ shouldRetry codes (newError "TypeError: failed to fetch") = true
  /\ shouldRetry codes (newError "RESOURCE EXHAUSTED: quota") = true
  /\ shouldRetry codes (newError "Deadline Exceeded") = true
  /\ shouldRetry codes (newError "got status 503 from upstream") = true
  /\ shouldRetry codes (newError "permission denied") = false
  /\ shouldRetry codes (newError "TypeError: Failed to fetch") = false
  /\ shouldRetry codes {| err_status := None; err_response_status := Some 502%Z;
                          err_message := None |} = true.
Proof. repeat split; vm_compute; reflexivity. Qed.

(** ** Batched embedding *)

Lemma indexOfFrom_lookup (l : list ref) : forall z i doc,
  NoDup l -> l !! i = Some doc -> indexOfFrom z l doc = (z + Z.of_nat i)%Z.
Proof.
  induction l as [|x rest IH]; intros z i doc Hnd Hi; [done|].
  apply NoDup_cons in Hnd as [Hx Hnd]. simpl. destruct i as [|i]; simpl in Hi.
  - injection Hi as ->. rewrite Nat.eqb_refl. lia.
  - destruct (x =? doc)%nat eqn:E.
    + apply Nat.eqb_eq in E. subst x. exfalso. apply Hx.
      by apply list_elem_of_lookup_2 in Hi.
    + rewrite (IH (z + 1)%Z i doc Hnd Hi). lia.
Qed.

Lemma retryFrom_map {A B : Type} (g : A -> B) (fn : nat -> Outcome A) random opts remaining :
  forall attempt lastError,
    run_result (retryFrom (fun a => match fn a with
                                    | Resolved v => Resolved (g v)
                                    | Rejected e => Rejected e
                                    end) random opts remaining attempt lastError)
    = match run_result (retryFrom fn random opts remaining attempt lastError) with
      | Returned v => Returned (g v)
      | Threw e => Threw e
      end.
Proof.
  induction remaining as [|r IH]; intros a le; simpl; [done|].
  destruct (fn a) as [v|e]; simpl; [done|].
  destruct (shouldRetry _ e); simpl; [apply IH | done].
Qed.

Section BatchFacts.

Variable chunkText : ref -> string.
Variable embedQuery : string -> nat -> ref -> nat -> Outcome (list float).
Variable random : nat -> Q.
Variable tryBlockThrows : nat -> bool.
Variable config : BatchConfig.
Variable enhancedDocs : list ref.

Abbreviation placeholderOr := (embeddingOrPlaceholder chunkText embedQuery random).
Abbreviation invariant := (batchInvariant chunkText embedQuery random enhancedDocs).
Abbreviation embedChunk' := (embedChunk chunkText embedQuery random enhancedDocs).
Abbreviation batchStep' :=
  (batchStep chunkText embedQuery random tryBlockThrows config enhancedDocs).
Abbreviation batchLoop' :=
  (batchLoop chunkText embedQuery random tryBlockThrows config enhancedDocs).

Lemma embedChunk_eq iteration doc :
  embedChunk' iteration doc
  = (indexOf enhancedDocs doc, placeholderOr iteration doc).
Proof.
  unfold embedChunk, embeddingOrPlaceholder, retryWithAdvancedBackoff.
  rewrite (retryFrom_map (fun embedding => (indexOf enhancedDocs doc, embedding))).
  by destruct (run_result _).
Qed.

Lemma storeResults_lookup (f : ref -> Z * list float) (batch : list ref) :
  forall (res : gmap Z (list float)) k,
    (exists doc, doc ∈ batch /\ fst (f doc) = k
                 /\ storeResults (List.map f batch) res !! k = Some (snd (f doc)))
    \/ ((forall doc, doc ∈ batch -> fst (f doc) <> k)
        /\ storeResults (List.map f batch) res !! k = res !! k).
Proof.
  unfold storeResults. induction batch as [|d rest IH]; intros res k; simpl.
  - right. split; [|done]. intros doc H. by apply elem_of_nil in H.
  - destruct (IH (<[fst (f d) := snd (f d)]> res) k) as [(doc & Hin & Hk & Hres)|[Hno Hres]].
    + left. exists doc. split; [by right | done].
    + destruct (decide (fst (f d) = k)) as [Hk|Hk].
      * left. exists d. split; [left|]. split; [done|].
        by rewrite Hres, <- Hk, lookup_insert_eq.
      * right. split.
        -- intros doc Hin. apply elem_of_cons in Hin as [->|Hin]; [done | by apply Hno].
        -- by rewrite Hres, lookup_insert_ne.
Qed.


Hypothesis distinctChunks : NoDup enhancedDocs.
Hypothesis positiveInitial : 1 <= initialBatchSize config.
Hypothesis positiveMinimum : 1 <= minBatchSize config.

Lemma adjustBatchSize_invariant st :
  invariant st ->
  invariant (adjustBatchSize config st)
  /\ queue (adjustBatchSize config st) = queue st
  /\ results (adjustBatchSize config st) = results st.
Proof.
  intros (H1 & H2 & H3). unfold adjustBatchSize.
  destruct (0 <? consecutiveFailures st)%nat; [|destruct (3 <=? consecutiveSuccesses st)%nat];
    (split; [|done]); (split; [simpl; lia | done]).
Qed.

Lemma batchStep_throw iteration st :
  tryBlockThrows iteration = true ->
  queue (batchStep' iteration st) ≡ₚ queue st
  /\ results (batchStep' iteration st) = results st.
Proof.
  intros Hthrow. unfold batchStep. rewrite Hthrow. simpl.
  destruct (adjustBatchSize config st) eqn:E.
  assert (Hq : queue (adjustBatchSize config st) = queue st
               /\ results (adjustBatchSize config st) = results st).
  { unfold adjustBatchSize.
    destruct (0 <? consecutiveFailures st)%nat;
      [|destruct (3 <=? consecutiveSuccesses st)%nat]; done. }
  rewrite E in Hq. simpl in *. destruct Hq as [<- <-]. split; [|done].
  rewrite Permutation_app_comm. by rewrite take_drop.
Qed.

Lemma batchStep_invariant iteration st :
  invariant st ->
  invariant (batchStep' iteration st)
  /\ length (queue (batchStep' iteration st)) <= length (queue st)
  /\ (tryBlockThrows iteration = false -> queue st <> [] ->
      length (queue (batchStep' iteration st)) < length (queue st)).
Proof.
  intros Hinv. destruct (adjustBatchSize_invariant st Hinv) as ((H1 & H2 & H3) & Hq & Hr).
  unfold batchStep.
  set (st1 := adjustBatchSize config st) in *.
  set (n := Nat.min (currentBatchSize st1) (length (queue st1))).
  destruct (tryBlockThrows iteration) eqn:Hthrow;
    unfold batchInvariant; cbn [currentBatchSize queue results].
  - split; [|split; [|done]].
    + split; [|split].
      * destruct (consecutiveFailures st1) as [|[|k]]; simpl; lia.
      * intros doc Hin. apply H2. rewrite <- (take_drop n (queue st1)).
        apply elem_of_app. apply elem_of_app in Hin. tauto.
      * intros i doc Hi. destruct (H3 i doc Hi) as [Hin|Hres]; [left|by right].
        rewrite <- (take_drop n (queue st1)) in Hin.
        apply elem_of_app. apply elem_of_app in Hin. tauto.
    + rewrite length_app, length_take, length_drop, <- Hq. lia.
  - split; [|split].
    + split; [done|]. split.
      * intros doc Hin. apply H2. by apply (subseteq_drop n).
      * intros i doc Hi.
        destruct (storeResults_lookup (embedChunk' iteration) (take n (queue st1))
                    (results st1) (Z.of_nat i)) as [(d' & Hin' & Hk & Hres)|[Hno Hres]].
        -- right. exists iteration. rewrite Hres. rewrite embedChunk_eq in Hk |- *.
           simpl in *. f_equal. f_equal.
           assert (Hd' : d' ∈ enhancedDocs) by (apply H2; by apply (subseteq_take n)).
           apply list_elem_of_lookup in Hd' as [j Hj].
           unfold indexOf in Hk.
           rewrite (indexOfFrom_lookup enhancedDocs 0 j d' distinctChunks Hj) in Hk.
           assert (j = i) by lia. subst j. congruence.
        -- destruct (H3 i doc Hi) as [Hin|[t Hres']].
           ++ rewrite <- (take_drop n (queue st1)) in Hin.
              apply elem_of_app in Hin as [Hin|Hin]; [|by left].
              exfalso. apply (Hno doc Hin). rewrite embedChunk_eq. simpl.
              unfold indexOf.
              by rewrite (indexOfFrom_lookup enhancedDocs 0 i doc distinctChunks Hi).
           ++ right. exists t. by rewrite Hres.
    + rewrite length_drop, <- Hq. lia.
    + intros _ Hne. rewrite length_drop. rewrite <- Hq.
      assert (0 < length (queue st1)).
      { rewrite Hq. destruct (queue st); [done | simpl; lia]. }
      subst n. lia.
Qed.

Lemma batchLoop_terminates (throwsLeft : nat) : forall fuel iteration st,
  invariant st ->
  (forall t, iteration + throwsLeft <= t -> tryBlockThrows t = false) ->
  throwsLeft + length (queue st) < fuel ->
  exists res,
    batchLoop' fuel iteration st = Some res
    /\ forall i doc, enhancedDocs !! i = Some doc ->
         exists t, res !! Z.of_nat i = Some (placeholderOr t doc).
Proof.
  assert (Hdone : forall st, invariant st -> queue st = [] ->
            forall i doc, enhancedDocs !! i = Some doc ->
              exists t, results st !! Z.of_nat i = Some (placeholderOr t doc)).
  { intros st (_ & _ & H3) Hq i doc Hi. destruct (H3 i doc Hi) as [Hin|H]; [|done].
    rewrite Hq in Hin. by apply elem_of_nil in Hin. }
  induction throwsLeft as [|n IHn].
  - induction fuel as [|fuel IH]; intros t st Hinv Hquiet Hfuel; [lia|].
    simpl. destruct (queue st) as [|d q] eqn:Hq; [eexists; split; [done|]; by apply Hdone|].
    destruct (batchStep_invariant t st Hinv) as (Hinv' & _ & Hlt).
    apply IH; [done | intros t' Ht'; apply Hquiet; lia |].
    specialize (Hlt (Hquiet t ltac:(lia))). rewrite Hq in Hlt.
    specialize (Hlt ltac:(done)). simpl in *. lia.
  - intros fuel t st Hinv Hquiet Hfuel. destruct fuel as [|fuel]; [lia|].
    simpl. destruct (queue st) as [|d q] eqn:Hq; [eexists; split; [done|]; by apply Hdone|].
    destruct (batchStep_invariant t st Hinv) as (Hinv' & Hle & _).
    apply IHn; [done | intros t' Ht'; apply Hquiet; lia |].
    rewrite Hq in Hle. simpl in *. lia.
Qed.

(** C3. For [n] distinct chunk objects and positive batch sizes, the
    loop ends and [processDocumentChunksInBatches] returns [n] vectors in
    the order of the chunks: position [i] holds, for a loop iteration
    in which chunk [i] was embedded, the provider's embedding if the
    retried call succeeded and the zero placeholder of 1536 components if
    it failed. No embedding failure makes the function throw. Should the
    [try] block of an iteration throw, its batch goes back to the end of
    the queue with the stored results untouched, so that after the last
    such iteration every position is still filled. *)
Theorem processDocumentChunksInBatches_fills_every_position (lastThrow : nat) :
  (forall t, lastThrow <= t -> tryBlockThrows t = false) ->
  (exists final,
     processDocumentChunksInBatches chunkText embedQuery random tryBlockThrows config
       enhancedDocs (lastThrow + length enhancedDocs + 1) = Some final
     /\ length final = length enhancedDocs
     /\ forall i doc, enhancedDocs !! i = Some doc ->
          exists t,
            final !! i
            = Some (match run_result
                            (retryWithAdvancedBackoff (embedQuery (chunkText doc) t doc)
                                                      random chunkRetryOptions) with
                    | Returned embedding => embedding
                    | Threw _ => zeroEmbedding
                    end))
  /\ length zeroEmbedding = 1536
  /\ (forall t st, tryBlockThrows t = true ->
        queue (batchStep' t st) ≡ₚ queue st /\ results (batchStep' t st) = results st).
Proof.
  intros Hquiet. split; [|split; [apply repeat_length | apply batchStep_throw]].
  destruct (batchLoop_terminates lastThrow (lastThrow + length enhancedDocs + 1) 0
              (initialBatchState config enhancedDocs)) as (res & Hloop & Hres).
  - split; [exact positiveInitial|]. split; [done|]. intros i doc Hi. left.
    by apply list_elem_of_lookup_2 in Hi.
  - intros t Ht. apply Hquiet. lia.
  - simpl. lia.
  - exists (finalEmbeddings enhancedDocs res). unfold processDocumentChunksInBatches.
    rewrite Hloop. split; [done|]. unfold finalEmbeddings.
    split; [apply length_imap|]. intros i doc Hi.
    destruct (Hres i doc Hi) as [t Ht]. exists t.
    by rewrite list_lookup_imap, Hi, Ht.
Qed.

End BatchFacts.


Lemma processDocumentChunksInBatches_fills_every_position_witness :
  exists final,
    processDocumentChunksInBatches (fun _ => "chunk") refusesSecondChunk (fun _ => 0.5%Q)
      (fun t => (t =? 0)%nat) defaultBatchConfig [0; 1; 2] (1 + 3 + 1) = Some final
    /\ length final = 3
    /\ forall i doc, [0; 1; 2] !! i = Some doc ->
         exists t,
           final !! i
           = Some (match run_result
                           (retryWithAdvancedBackoff (refusesSecondChunk "chunk" t doc)
                                                     (fun _ => 0.5%Q) chunkRetryOptions) with
                   | Returned embedding => embedding
                   | Threw _ => zeroEmbedding
                   end).
Proof.
  assert (Hdistinct : NoDup [0; 1; 2]).
  { repeat constructor; intros H; repeat (apply elem_of_cons in H as [H|H]; [lia|]);
      by apply elem_of_nil in H. }
  assert (Hinitial : 1 <= initialBatchSize defaultBatchConfig) by (simpl; lia).
  assert (Hminimum : 1 <= minBatchSize defaultBatchConfig) by (simpl; lia).
  assert (Hquiet : forall t, 1 <= t -> (t =? 0)%nat = false).
  { intros t Ht. apply Nat.eqb_neq. lia. }
  exact (proj1 (processDocumentChunksInBatches_fills_every_position
                  (fun _ => "chunk") refusesSecondChunk (fun _ => 0.5%Q)
                  (fun t => (t =? 0)%nat) defaultBatchConfig [0; 1; 2]
                  Hdistinct Hinitial Hminimum 1 Hquiet)).
Defined.

Example processDocumentChunksInBatches_placeholder_in_place :
  processDocumentChunksInBatches (fun _ => "chunk") refusesSecondChunk (fun _ => 0.5%Q)
    (fun t => (t =? 0)%nat) defaultBatchConfig [0; 1; 2] 5
  = Some [[1; 2]%float; zeroEmbedding; [1; 2]%float].
Proof. vm_compute. reflexivity. Qed.

(** The same chunk object listed twice is looked up at its first
    position both times: the second position is never written and gets
    the placeholder. *)
Example processDocumentChunksInBatches_aliased_chunk :
  processDocumentChunksInBatches (fun _ => "chunk") refusesSecondChunk (fun _ => 0.5%Q)
    (fun _ => false) defaultBatchConfig [0; 0] 3
  = Some [[1; 2]%float; zeroEmbedding].
Proof. vm_compute. reflexivity. Qed.

(** ** The retriever *)


Lemma accumulated_cons store v rest :
  accumulated store (v :: rest) = foundBy store v ++ accumulated store rest.
Proof. reflexivity. Qed.

Lemma tryVariations_spec (store : VectorStore) (variations : list string) :
  forall allRelevantDocs log,
    length allRelevantDocs < 5 ->
    exists n,
      n <= length variations
      /\ tryVariations store variations allRelevantDocs log
         = (Resolved (allRelevantDocs ++ accumulated store (take n variations)),
            log ++ memoryEvents (take n variations))
      /\ (n = length variations
          \/ 5 <= length (allRelevantDocs ++ accumulated store (take n variations)))
      /\ (forall m, m < n ->
            length (allRelevantDocs ++ accumulated store (take m variations)) < 5).
Proof.
  induction variations as [|v rest IH]; intros acc log Hacc.
  - exists 0. simpl. unfold ret. rewrite !app_nil_r. repeat split; try done; try lia.
  - cbn [tryVariations]. run_async.
    assert (Hcall : (match similaritySearch store v 7 with
                     | Resolved a => (Resolved a, log ++ [EvMemorySearch v 7])
                     | Rejected _ => (Resolved [], log ++ [EvMemorySearch v 7])
                     end) = (Resolved (foundBy store v), log ++ [EvMemorySearch v 7])).
    { unfold foundBy. by destruct (similaritySearch store v 7). }
    rewrite Hcall. clear Hcall.
    destruct (foundBy store v) as [|d found] eqn:Hfound.
    + destruct (IH acc (log ++ [EvMemorySearch v 7]) Hacc) as (n & Hn & Hrun & Hstop & Hearly).
      exists (S n). cbn [take]. rewrite accumulated_cons, Hfound. cbn [app length].
      split; [lia|]. split; [by rewrite Hrun, <- app_assoc|].
      split; [destruct Hstop; [left; lia | by right]|].
      intros [|m] Hm; [simpl; rewrite app_nil_r; lia|].
      cbn [take]. rewrite accumulated_cons, Hfound. apply Hearly. lia.
    + destruct (5 <=? length (acc ++ d :: found))%nat eqn:Hfive.
      * apply Nat.leb_le in Hfive. exists 1. cbn [take].
        rewrite accumulated_cons, Hfound. simpl accumulated. rewrite !app_nil_r.
        split; [simpl; lia|]. split; [done|]. split; [by right|].
        intros m Hm. assert (m = 0) by lia. subst m. simpl. rewrite app_nil_r. lia.
      * apply Nat.leb_gt in Hfive.
        destruct (IH (acc ++ d :: found) (log ++ [EvMemorySearch v 7]) Hfive)
          as (n & Hn & Hrun & Hstop & Hearly).
        exists (S n). cbn [take]. rewrite accumulated_cons, Hfound.
        split; [simpl; lia|].
        split; [by rewrite Hrun; simpl; rewrite <- !app_assoc|].
        split; [destruct Hstop as [->|Hstop]; [by left | right; by rewrite app_assoc]|].
        intros [|m] Hm; [simpl; rewrite app_nil_r; lia|].
        cbn [take]. rewrite accumulated_cons, Hfound, app_assoc. apply Hearly. lia.
Qed.

Lemma memoryEvents_are_memory (variations : list string) :
  Forall isMemoryEvent (memoryEvents variations).
Proof. induction variations; simpl; by constructor. Qed.

Section RetrievalFacts.

Variable vectorStore : option VectorStore.
Variable currentSessionId : option string.
Variable embedQuery : string -> nat -> Outcome (list float).
Variable moduleEmbeddings : option (string -> Outcome (list float)).
Variable random : nat -> Q.
Context {Row : Type}.
Variable vectorSearch : list float -> list string -> nat -> Outcome (list Row).
Variable rowsToDocuments : list Row -> Outcome (list Doc).
Variable fallbackNonVectorSearch : string -> list Doc.
Variable generateContent : string -> list GeminiTurn -> Outcome GeminiResult.
Variable isMathQuery : string -> bool.
Variable generateQueryVariations : string -> bool -> list string.
Variable buildSystemPrompt : bool -> bool -> string -> string.
Variable addMathInstructions : string.
Variable extractThinkingProcess : string -> bool -> string * option string.

Abbreviation fromMemory := (getRelevantDocsFromMemory vectorStore).
Abbreviation fromDatabase :=
  (getRelevantDocsFromDatabase embedQuery moduleEmbeddings random vectorSearch
     rowsToDocuments fallbackNonVectorSearch).
Abbreviation retrieve :=
  (retrieveRelevantDocs vectorStore embedQuery moduleEmbeddings random vectorSearch
     rowsToDocuments fallbackNonVectorSearch isMathQuery generateQueryVariations).
Abbreviation answer :=
  (queryWithRAG vectorStore currentSessionId embedQuery moduleEmbeddings random vectorSearch
     rowsToDocuments fallbackNonVectorSearch generateContent isMathQuery
     generateQueryVariations buildSystemPrompt addMathInstructions extractThinkingProcess).


Lemma fromMemory_spec (variations : list string) (log : list Event) :
  exists docs added,
    fromMemory variations log = (Resolved (deduplicateDocuments docs), log ++ added)
    /\ Forall isMemoryEvent added.
Proof.
  unfold getRelevantDocsFromMemory. destruct vectorStore as [store|].
  2:{ exists [], []. unfold ret. by rewrite app_nil_r. }
  destruct (tryVariations_spec store variations [] log) as (n & _ & Hrun & _); [simpl; lia|].
  run_async. rewrite Hrun. cbn [app].
  pose proof (memoryEvents_are_memory (take n variations)) as Hmem.
  destruct (accumulated store (take n variations)) as [|d ds] eqn:Hacc.
  - destruct (maximalMarginalRelevance store (head variations) 5 20) as [mmr|e].
    + exists mmr, (memoryEvents (take n variations) ++ [EvMmrSearch (head variations) 5 20]).
      rewrite app_assoc. split; [done|]. apply Forall_app. split; [done | by repeat constructor].
    + exists [], (memoryEvents (take n variations) ++ [EvMmrSearch (head variations) 5 20]).
      rewrite app_assoc. split; [done|]. apply Forall_app. split; [done | by repeat constructor].
  - by exists (d :: ds), (memoryEvents (take n variations)).
Qed.

Lemma fromDatabase_spec (query : string) (hasApiKey : bool) (log : list Event) :
  exists docs added,
    fromDatabase query hasApiKey log = (Resolved docs, log ++ added)
    /\ Forall (isDatabaseEventFor query) added.
Proof.
  unfold getRelevantDocsFromDatabase. run_async.
  assert (Hsearch : forall v log',
    exists docs added,
      (let '(r, l) :=
         match vectorSearch v [] 10 with
         | Resolved [] => (Resolved [], log' ++ [EvVectorSearch v 10])
         | Resolved (row :: rows) =>
             (rowsToDocuments (row :: rows), log' ++ [EvVectorSearch v 10])
         | Rejected e => (Rejected e, log' ++ [EvVectorSearch v 10])
         end in
       match r with
       | Resolved a => (Resolved a, l)
       | Rejected _ => (Resolved [], l)
       end) = (Resolved docs, log' ++ added)
      /\ Forall (isDatabaseEventFor query) added).
  { intros v log'. destruct (vectorSearch v [] 10) as [[|row rows]|e].
    - exists [], [EvVectorSearch v 10]. split; [done | by repeat constructor].
    - destruct (rowsToDocuments (row :: rows)) as [docs|e].
      + exists docs, [EvVectorSearch v 10]. split; [done | by repeat constructor].
      + exists [], [EvVectorSearch v 10]. split; [done | by repeat constructor].
    - exists [], [EvVectorSearch v 10]. split; [done | by repeat constructor]. }
  destruct hasApiKey.
  - destruct (run_result (retryWithAdvancedBackoff (embedQuery query) random queryRetryOptions))
      as [v|e].
    + destruct (Hsearch v (log ++ [EvEmbedQuery query])) as (docs & added & Hrun & Hev).
      exists docs, (EvEmbedQuery query :: added).
      split; [|by constructor].
      replace (log ++ EvEmbedQuery query :: added)
        with ((log ++ [EvEmbedQuery query]) ++ added) by (by rewrite <- app_assoc).
      rewrite <- Hrun. by destruct (vectorSearch v [] 10) as [[|? ?]|?].
    + exists (fallbackNonVectorSearch query), [EvEmbedQuery query; EvFallbackSearch query].
      split; [by rewrite <- app_assoc | by repeat constructor].
  - destruct moduleEmbeddings as [provider|].
    + destruct (provider query) as [v|e].
      * destruct (Hsearch v (log ++ [EvEmbedQuery query])) as (docs & added & Hrun & Hev).
        exists docs, (EvEmbedQuery query :: added).
        split; [|by constructor].
        replace (log ++ EvEmbedQuery query :: added)
          with ((log ++ [EvEmbedQuery query]) ++ added) by (by rewrite <- app_assoc).
        rewrite <- Hrun. by destruct (vectorSearch v [] 10) as [[|? ?]|?].
      * exists (fallbackNonVectorSearch query), [EvEmbedQuery query; EvFallbackSearch query].
        split; [by rewrite <- app_assoc | by repeat constructor].
    + exists (fallbackNonVectorSearch query), [EvFallbackSearch query].
      split; [done | by repeat constructor].
Qed.

Lemma retrieve_spec (query : string) (hasApiKey : bool) (log : list Event) :
  exists memDocs memEvents,
    tryCatch (fromMemory (generateQueryVariations query (isMathQuery query)))
             (fun _ => ret []) log
      = (Resolved memDocs, log ++ memEvents)
    /\ Forall isMemoryEvent memEvents
    /\ NoDup (contentId <$> memDocs)
    /\ (3 <= length memDocs ->
          retrieve query hasApiKey log = (Resolved memDocs, log ++ memEvents))
    /\ (length memDocs < 3 ->
          exists dbDocs dbEvents,
            fromDatabase query hasApiKey (log ++ memEvents)
              = (Resolved dbDocs, (log ++ memEvents) ++ dbEvents)
            /\ Forall (isDatabaseEventFor query) dbEvents
            /\ retrieve query hasApiKey log
               = (Resolved (deduplicateDocuments (memDocs ++ dbDocs)),
                  (log ++ memEvents) ++ dbEvents)).
Proof.
  destruct (fromMemory_spec (generateQueryVariations query (isMathQuery query)) log)
    as (docs & memEvents & Hmem & Hev).
  exists (deduplicateDocuments docs), memEvents.
  assert (Hcaught : tryCatch (fromMemory (generateQueryVariations query (isMathQuery query)))
                             (fun _ => ret []) log
                    = (Resolved (deduplicateDocuments docs), log ++ memEvents)).
  { unfold tryCatch. by rewrite Hmem. }
  assert (Hretrieve : retrieve query hasApiKey log
            = (if (length (deduplicateDocuments docs) <? 3)%nat
               then tryCatch
                      (let* dbDocs := fromDatabase query hasApiKey in
                       ret (deduplicateDocuments (deduplicateDocuments docs ++ dbDocs)))
                      (fun _ => ret (deduplicateDocuments docs))
               else ret (deduplicateDocuments docs)) (log ++ memEvents)).
  { unfold retrieveRelevantDocs. unfold bind at 1. by rewrite Hcaught. }
  rewrite Hretrieve. clear Hretrieve.
  split; [done|]. split; [done|]. split; [apply deduplicateDocuments_NoDup|].
  split.
  - intros Hlen.
    destruct (length (deduplicateDocuments docs) <? 3)%nat eqn:E;
      [apply Nat.ltb_lt in E; lia | done].
  - intros Hlen.
    destruct (length (deduplicateDocuments docs) <? 3)%nat eqn:E;
      [|apply Nat.ltb_ge in E; lia].
    destruct (fromDatabase_spec query hasApiKey (log ++ memEvents))
      as (dbDocs & dbEvents & Hdb & Hdbev).
    exists dbDocs, dbEvents. split; [done|]. split; [done|].
    unfold tryCatch, bind. by rewrite Hdb.
Qed.

Lemma retrieve_makes_no_llm_call (query : string) (hasApiKey : bool) (log : list Event) :
  exists docs added,
    retrieve query hasApiKey log = (Resolved docs, log ++ added)
    /\ Forall (fun ev => ~ isLlmCall ev) added.
Proof.
  assert (Hmem : forall l, Forall isMemoryEvent l -> Forall (fun ev => ~ isLlmCall ev) l).
  { intros l Hl. eapply Forall_impl; [exact Hl|].
    intros ev Hev Hllm. destruct ev; simpl in *; done. }
  assert (Hdb : forall l, Forall (isDatabaseEventFor query) l ->
                          Forall (fun ev => ~ isLlmCall ev) l).
  { intros l Hl. eapply Forall_impl; [exact Hl|].
    intros ev Hev Hllm. destruct ev; simpl in *; done. }
  destruct (retrieve_spec query hasApiKey log)
    as (memDocs & memEvents & _ & Hev & _ & Henough & Hfew).
  destruct (le_lt_dec 3 (length memDocs)) as [Hlen|Hlen].
  - exists memDocs, memEvents. split; [by apply Henough | by apply Hmem].
  - destruct (Hfew Hlen) as (dbDocs & dbEvents & _ & Hdbev & Hrun).
    exists (deduplicateDocuments (memDocs ++ dbDocs)), (memEvents ++ dbEvents).
    rewrite app_assoc. split; [done|]. apply Forall_app. split; [by apply Hmem | by apply Hdb].
Qed.

(** C4. Without a vector store, [queryWithRAG] rejects with the
    no-documents message (wrapped by the outer handler) after at most the
    session access and the performance record: no retrieval, no LLM call.
    With a store, when the retrieval over both tiers ends with no
    document, it rejects with the no-relevant-information message, a
    different one, and the log of the query holds no LLM call. In both
    cases the query is rejected: no answer, empty or not, is returned. *)
Theorem queryWithRAG_fails_fast_without_documents
    (query : string) (hasApiKey : bool) (config : AIConfig)
    (conversationHistory : option (list Message)) :
  (vectorStore = None ->
     run (answer query hasApiKey config conversationHistory)
     = (Rejected (newError ("Failed to query: " +:+ noDocumentsMessage)),
        (sessionEvents currentSessionId) ++ [EvTrackPerformance query false]))
  /\ (forall log', vectorStore <> None ->
        retrieve query hasApiKey (sessionEvents currentSessionId) = (Resolved [], log') ->
        run (answer query hasApiKey config conversationHistory)
        = (Rejected (newError ("Failed to query: " +:+ noRelevantInformationMessage)),
           log' ++ [EvTrackPerformance query false]))
  /\ ((vectorStore = None \/ fst (retrieve query hasApiKey (sessionEvents currentSessionId)) = Resolved []) ->
        Forall (fun ev => ~ isLlmCall ev)
               (snd (run (answer query hasApiKey config conversationHistory)))
        /\ forall res, fst (run (answer query hasApiKey config conversationHistory))
                       <> Resolved res)
  /\ noDocumentsMessage <> noRelevantInformationMessage.
Proof.
  assert (Hnone : vectorStore = None ->
     run (answer query hasApiKey config conversationHistory)
     = (Rejected (newError ("Failed to query: " +:+ noDocumentsMessage)),
        (sessionEvents currentSessionId) ++ [EvTrackPerformance query false])).
  { intros Hstore. unfold queryWithRAG, sessionEvents. rewrite Hstore. run_async.
    by destruct currentSessionId. }
  assert (Hempty : forall log', vectorStore <> None ->
        retrieve query hasApiKey (sessionEvents currentSessionId) = (Resolved [], log') ->
        run (answer query hasApiKey config conversationHistory)
        = (Rejected (newError ("Failed to query: " +:+ noRelevantInformationMessage)),
           log' ++ [EvTrackPerformance query false])).
  { intros log' Hstore Hretrieve. unfold queryWithRAG. unfold sessionEvents in Hretrieve.
    destruct vectorStore as [store|] eqn:Es; [|done]. run_async.
    destruct currentSessionId; cbn [app]; by rewrite Hretrieve. }
  split; [exact Hnone|]. split; [exact Hempty|]. split; [|discriminate].
  intros [Hstore|Hretrieve].
  - rewrite (Hnone Hstore). split; [|discriminate]. unfold sessionEvents.
    destruct currentSessionId; repeat constructor; by intros [].
  - destruct (retrieve_makes_no_llm_call query hasApiKey (sessionEvents currentSessionId))
      as (docs & added & Hrun & Hquiet).
    rewrite Hrun in Hretrieve. simpl in Hretrieve. injection Hretrieve as ->.
    destruct (decide (vectorStore = None)) as [Hstore|Hstore].
    + rewrite (Hnone Hstore). split; [|discriminate]. unfold sessionEvents.
      destruct currentSessionId; repeat constructor; by intros [].
    + rewrite (Hempty _ Hstore Hrun). split; [|discriminate]. cbn [snd].
      apply Forall_app. split; [|repeat constructor; by intros []].
      apply Forall_app. split; [|done]. unfold sessionEvents.
      destruct currentSessionId; repeat constructor; by intros [].
Qed.

Lemma fromMemory_cases (store : VectorStore) (variations : list string) (log : list Event) :
  vectorStore = Some store ->
  exists n memDocs mmrEvents,
    n <= length variations
    /\ (n = length variations \/ 5 <= length (accumulated store (take n variations)))
    /\ (forall m, m < n -> length (accumulated store (take m variations)) < 5)
    /\ fromMemory variations log
       = (Resolved memDocs,
          log ++ List.map (fun variation => EvMemorySearch variation 7) (take n variations)
              ++ mmrEvents)
    /\ (accumulated store (take n variations) <> [] ->
          mmrEvents = []
          /\ memDocs = deduplicateDocuments (accumulated store (take n variations)))
    /\ (accumulated store (take n variations) = [] ->
          n = length variations
          /\ mmrEvents = [EvMmrSearch (head variations) 5 20]
          /\ memDocs = deduplicateDocuments
                         match maximalMarginalRelevance store (head variations) 5 20 with
                         | Resolved mmrResults => mmrResults
                         | Rejected _ => []
                         end).
Proof.
  intros Hstore. unfold getRelevantDocsFromMemory. rewrite Hstore.
  destruct (tryVariations_spec store variations [] log) as (n & Hn & Hrun & Hstop & Hearly);
    [simpl; lia|].
  cbn [app] in Hrun, Hstop, Hearly. fold (memoryEvents (take n variations)).
  run_async. rewrite Hrun.
  destruct (accumulated store (take n variations)) as [|d ds] eqn:Hacc.
  - assert (Hall : n = length variations) by (destruct Hstop as [H|H]; [done | simpl in H; lia]).
    destruct (maximalMarginalRelevance store (head variations) 5 20) as [mmr|e].
    + exists n, (deduplicateDocuments mmr), [EvMmrSearch (head variations) 5 20].
      rewrite Hacc. rewrite <- app_assoc.
      split; [done|]. split; [by left|]. split; [done|]. split; [done|]. split; done.
    + exists n, (deduplicateDocuments []), [EvMmrSearch (head variations) 5 20].
      rewrite Hacc. rewrite <- app_assoc.
      split; [done|]. split; [by left|]. split; [done|]. split; [done|]. split; done.
  - exists n, (deduplicateDocuments (d :: ds)), []. rewrite Hacc, app_nil_r.
    split; [done|]. split; [done|]. split; [done|]. split; [done|]. split; done.
Qed.

Lemma fromDatabase_cases (query : string) (hasApiKey : bool) (log : list Event) :
  exists dbDocs dbEvents,
    fromDatabase query hasApiKey log = (Resolved dbDocs, log ++ dbEvents)
    /\ ((dbEvents = [EvFallbackSearch query]
         /\ dbDocs = fallbackNonVectorSearch query
         /\ hasApiKey = false /\ moduleEmbeddings = None)
        \/ (dbEvents = [EvEmbedQuery query; EvFallbackSearch query]
            /\ dbDocs = fallbackNonVectorSearch query
            /\ ((hasApiKey = true
                 /\ exists lastError,
                      run_result (retryWithAdvancedBackoff (embedQuery query) random
                                                           queryRetryOptions)
                      = Threw lastError)
                \/ (hasApiKey = false
                    /\ exists provider e,
                         moduleEmbeddings = Some provider /\ provider query = Rejected e)))
        \/ (exists v,
              dbEvents = [EvEmbedQuery query; EvVectorSearch v 10]
              /\ dbDocs = match vectorSearch v [] 10 with
                          | Resolved (row :: rows) =>
                              match rowsToDocuments (row :: rows) with
                              | Resolved docs => docs
                              | Rejected _ => []
                              end
                          | _ => []
                          end
              /\ ((hasApiKey = true
                   /\ run_result (retryWithAdvancedBackoff (embedQuery query) random
                                                           queryRetryOptions)
                      = Returned v)
                  \/ (hasApiKey = false
                      /\ exists provider,
                           moduleEmbeddings = Some provider
                           /\ provider query = Resolved v)))).
Proof.
  unfold getRelevantDocsFromDatabase. run_async.
  assert (Hsearch : forall v log',
    exists docs,
      (let '(r, l) :=
         match vectorSearch v [] 10 with
         | Resolved [] => (Resolved [], log' ++ [EvVectorSearch v 10])
         | Resolved (row :: rows) =>
             (rowsToDocuments (row :: rows), log' ++ [EvVectorSearch v 10])
         | Rejected e => (Rejected e, log' ++ [EvVectorSearch v 10])
         end in
       match r with
       | Resolved a => (Resolved a, l)
       | Rejected _ => (Resolved [], l)
       end) = (Resolved docs, log' ++ [EvVectorSearch v 10])
      /\ docs = match vectorSearch v [] 10 with
                | Resolved (row :: rows) =>
                    match rowsToDocuments (row :: rows) with
                    | Resolved docs => docs
                    | Rejected _ => []
                    end
                | _ => []
                end).
  { intros v log'. destruct (vectorSearch v [] 10) as [[|row rows]|e].
    - by exists [].
    - destruct (rowsToDocuments (row :: rows)) as [docs|e]; by eexists.
    - by exists []. }
  destruct hasApiKey.
  - destruct (run_result (retryWithAdvancedBackoff (embedQuery query) random queryRetryOptions))
      as [v|e] eqn:Eembed.
    + destruct (Hsearch v (log ++ [EvEmbedQuery query])) as (docs & Hrun & Hdocs).
      exists docs, [EvEmbedQuery query; EvVectorSearch v 10].
      split.
      * replace (log ++ [EvEmbedQuery query; EvVectorSearch v 10])
          with ((log ++ [EvEmbedQuery query]) ++ [EvVectorSearch v 10])
          by (by rewrite <- app_assoc).
        rewrite <- Hrun. by destruct (vectorSearch v [] 10) as [[|? ?]|?].
      * right; right. exists v. split; [done|]. split; [done|]. left. done.
    + exists (fallbackNonVectorSearch query), [EvEmbedQuery query; EvFallbackSearch query].
      split; [by rewrite <- app_assoc|]. right; left. split; [done|]. split; [done|]. left.
      split; [done | by exists e].
  - destruct moduleEmbeddings as [provider|].
    + destruct (provider query) as [v|e] eqn:Eembed.
      * destruct (Hsearch v (log ++ [EvEmbedQuery query])) as (docs & Hrun & Hdocs).
        exists docs, [EvEmbedQuery query; EvVectorSearch v 10].
        split.
        -- replace (log ++ [EvEmbedQuery query; EvVectorSearch v 10])
             with ((log ++ [EvEmbedQuery query]) ++ [EvVectorSearch v 10])
             by (by rewrite <- app_assoc).
           rewrite <- Hrun. by destruct (vectorSearch v [] 10) as [[|? ?]|?].
        -- right; right. exists v. split; [done|]. split; [done|]. right.
           split; [done|]. by exists provider.
      * exists (fallbackNonVectorSearch query), [EvEmbedQuery query; EvFallbackSearch query].
        split; [by rewrite <- app_assoc|]. right; left. split; [done|]. split; [done|]. right.
        split; [done|]. by exists provider, e.
    + exists (fallbackNonVectorSearch query), [EvFallbackSearch query].
      split; [done|]. left. done.
Qed.

(** C5, as the code has it. With a store, [getRelevantDocsFromMemory]
    searches the variations in their order with [k = 7], one search per
    variation, and stops after the first variation at which the
    accumulated results, duplicates included, number at least 5; when
    the searches found nothing it asks once for a diverse selection with
    the first variation; what it returns is deduplicated. Without a
    store it searches nothing. [queryWithRAG] consults the persistent
    tier exactly when fewer than 3 deduplicated documents came from
    memory: that tier then embeds the query itself, never a variation,
    and searches with that embedding, or falls back to a keyword search
    for the query; the merged list is deduplicated again. *)
Theorem retriever_stops_on_accumulated_count
    (query : string) (hasApiKey : bool) (log : list Event) :
  let variations := generateQueryVariations query (isMathQuery query) in
  (vectorStore = None ->
     fromMemory variations log = (Resolved [], log)
     /\ exists dbDocs dbEvents,
          dbEvents <> []
          /\ retrieve query hasApiKey log
             = (Resolved (deduplicateDocuments dbDocs), log ++ dbEvents))
  /\ (forall store, vectorStore = Some store ->
        exists n memDocs mmrEvents,
          n <= length variations
          /\ (n = length variations \/ 5 <= length (accumulated store (take n variations)))
          /\ (forall m, m < n -> length (accumulated store (take m variations)) < 5)
          /\ fromMemory variations log
             = (Resolved memDocs,
                log ++ List.map (fun variation => EvMemorySearch variation 7)
                                (take n variations)
                    ++ mmrEvents)
          /\ (accumulated store (take n variations) <> [] ->
                mmrEvents = []
                /\ memDocs = deduplicateDocuments (accumulated store (take n variations)))
          /\ (accumulated store (take n variations) = [] ->
                n = length variations
                /\ mmrEvents = [EvMmrSearch (head variations) 5 20]
                /\ memDocs
                   = deduplicateDocuments
                       match maximalMarginalRelevance store (head variations) 5 20 with
                       | Resolved mmrResults => mmrResults
                       | Rejected _ => []
                       end)
          /\ (3 <= length memDocs ->
                retrieve query hasApiKey log
                = (Resolved memDocs,
                   log ++ List.map (fun variation => EvMemorySearch variation 7)
                                   (take n variations)
                       ++ mmrEvents))
          /\ (length memDocs < 3 ->
                exists dbDocs dbEvents,
                  retrieve query hasApiKey log
                  = (Resolved (deduplicateDocuments (memDocs ++ dbDocs)),
                     (log ++ List.map (fun variation => EvMemorySearch variation 7)
                                      (take n variations)
                          ++ mmrEvents) ++ dbEvents)
                  /\ ((dbEvents = [EvFallbackSearch query]
                       /\ dbDocs = fallbackNonVectorSearch query
                       /\ hasApiKey = false /\ moduleEmbeddings = None)
                      \/ (dbEvents = [EvEmbedQuery query; EvFallbackSearch query]
                          /\ dbDocs = fallbackNonVectorSearch query
                          /\ ((hasApiKey = true
                               /\ exists lastError,
                                    run_result (retryWithAdvancedBackoff
                                                  (embedQuery query) random
                                                  queryRetryOptions)
                                    = Threw lastError)
                              \/ (hasApiKey = false
                                  /\ exists provider e,
                                       moduleEmbeddings = Some provider
                                       /\ provider query = Rejected e)))
                      \/ (exists v,
                            dbEvents = [EvEmbedQuery query; EvVectorSearch v 10]
                            /\ dbDocs = match vectorSearch v [] 10 with
                                        | Resolved (row :: rows) =>
                                            match rowsToDocuments (row :: rows) with
                                            | Resolved docs => docs
                                            | Rejected _ => []
                                            end
                                        | _ => []
                                        end
                            /\ ((hasApiKey = true
                                 /\ run_result (retryWithAdvancedBackoff
                                                  (embedQuery query) random
                                                  queryRetryOptions)
                                    = Returned v)
                                \/ (hasApiKey = false
                                    /\ exists provider,
                                         moduleEmbeddings = Some provider
                                         /\ provider query = Resolved v)))))).
Proof.
  intros variations.
  assert (Hretrieve : forall memDocs memLog,
            fromMemory variations log = (Resolved memDocs, memLog) ->
            (3 <= length memDocs -> retrieve query hasApiKey log = (Resolved memDocs, memLog))
            /\ (length memDocs < 3 ->
                  forall dbDocs dbLog,
                    fromDatabase query hasApiKey memLog = (Resolved dbDocs, dbLog) ->
                    retrieve query hasApiKey log
                    = (Resolved (deduplicateDocuments (memDocs ++ dbDocs)), dbLog))).
  { intros memDocs memLog Hmem.
    assert (Hrun : retrieve query hasApiKey log
              = (if (length memDocs <? 3)%nat
                 then tryCatch
                        (let* dbDocs := fromDatabase query hasApiKey in
                         ret (deduplicateDocuments (memDocs ++ dbDocs)))
                        (fun _ => ret memDocs)
                 else ret memDocs) memLog).
    { unfold retrieveRelevantDocs. fold variations.
      unfold bind at 1. unfold tryCatch at 1. by rewrite Hmem. }
    rewrite Hrun. clear Hrun. split.
    - intros Hlen. destruct (length memDocs <? 3)%nat eqn:E;
        [apply Nat.ltb_lt in E; lia | done].
    - intros Hlen dbDocs dbLog Hdb. destruct (length memDocs <? 3)%nat eqn:E;
        [|apply Nat.ltb_ge in E; lia].
      unfold tryCatch, bind. by rewrite Hdb. }
  split.
  - intros Hstore.
    assert (Hmem : fromMemory variations log = (Resolved [], log)).
    { unfold getRelevantDocsFromMemory. by rewrite Hstore. }
    split; [done|].
    destruct (fromDatabase_cases query hasApiKey log) as (dbDocs & dbEvents & Hdb & Hev).
    exists dbDocs, dbEvents. split.
    + destruct Hev as [(-> & _)|[(-> & _)|(v & -> & _)]]; discriminate.
    + destruct (Hretrieve [] log Hmem) as [_ Hfew]. apply Hfew; [simpl; lia | done].
  - intros store Hstore.
    destruct (fromMemory_cases store variations log Hstore)
      as (n & memDocs & mmrEvents & Hn & Hstop & Hearly & Hmem & Hfound & Hnone).
    exists n, memDocs, mmrEvents.
    destruct (Hretrieve _ _ Hmem) as [Henough Hfew].
    split; [done|]. split; [done|]. split; [done|]. split; [done|].
    split; [done|]. split; [done|]. split; [done|].
    intros Hlen.
    destruct (fromDatabase_cases query hasApiKey
                (log ++ List.map (fun variation => EvMemorySearch variation 7)
                                 (take n variations) ++ mmrEvents))
      as (dbDocs & dbEvents & Hdb & Hev).
    exists dbDocs, dbEvents. split; [by apply Hfew | done].
Qed.

End RetrievalFacts.


(** C5 as stated fails: after two variations the accumulated results
    number 6 and the loop stops, although only 3 of them are distinct;
    the third variation is never tried. *)
Lemma retriever_stops_before_five_unique_results :
  run (getRelevantDocsFromMemory (Some sameThreeChunks) ["q"; "q formula"; "bentuk q"])
  = (Resolved [chunkOf "a"; chunkOf "b"; chunkOf "c"],
     [EvMemorySearch "q" 7; EvMemorySearch "q formula" 7])
  /\ length (deduplicateDocuments
               (accumulated sameThreeChunks ["q"; "q formula"])) < 5
  /\ ~ In (EvMemorySearch "bentuk q" 7)
          (snd (run (getRelevantDocsFromMemory (Some sameThreeChunks)
                       ["q"; "q formula"; "bentuk q"]))).
Proof.
  split; [vm_compute; reflexivity|]. split; [vm_compute; lia|].
  vm_compute. intros [H|[H|[]]]; discriminate H.
Qed.


Example queryWithRAG_without_store :
  sampleQuery None
  = (Rejected (newError ("Failed to query: " +:+ noDocumentsMessage)),
     [EvTrackPerformance "apa itu entropi" false]).
Proof. vm_compute. reflexivity. Qed.

Example queryWithRAG_nothing_relevant :
  sampleQuery (Some emptyStore)
  = (Rejected (newError ("Failed to query: " +:+ noRelevantInformationMessage)),
     [ EvMemorySearch "apa itu entropi" 7;
       EvMemorySearch "apa itu entropi formula" 7;
       EvMmrSearch (Some "apa itu entropi") 5 20;
       EvEmbedQuery "apa itu entropi";
       EvVectorSearch [1%float] 10;
       EvTrackPerformance "apa itu entropi" false ]).
Proof. vm_compute. reflexivity. Qed.

Example queryWithRAG_answers_from_store :
  exists res prompt,
    sampleQuery (Some sameThreeChunks)
    = (Resolved res,
       [ EvMemorySearch "apa itu entropi" 7;
         EvMemorySearch "apa itu entropi formula" 7;
         EvLlmCall prompt [];
         EvTrackPerformance "apa itu entropi" true ])
    /\ length (citations res) = 3.
Proof. eexists. eexists. vm_compute. split; reflexivity. Qed.

(** ** Batches of rows *)

Lemma upsertBatchesFrom_lookup (data : list UpsertRow) : forall fuel i k batch,
  upsertBatchesFrom fuel i data !! k = Some batch ->
  batch = take 100 (drop (i + 100 * k) data) /\ i + 100 * k < length data.
Proof.
  induction fuel as [|fuel IH]; intros i k batch; simpl; [done|].
  destruct (i <? length data)%nat eqn:E; [|done]. apply Nat.ltb_lt in E.
  destruct k as [|k]; simpl.
  - intros [= <-]. rewrite Nat.add_0_r. done.
  - intros H. apply IH in H as [-> Hlt].
    replace (i + 100 + 100 * k) with (i + 100 * S k) in * by lia. done.
Qed.

Lemma upsertBatchesFrom_length (data : list UpsertRow) : forall fuel i,
  length data <= i + 100 * fuel ->
  100 * length (upsertBatchesFrom fuel i data) < length data - i + 100
  /\ length data - i <= 100 * length (upsertBatchesFrom fuel i data).
Proof.
  induction fuel as [|fuel IH]; intros i Hfuel; simpl; [lia|].
  destruct (i <? length data)%nat eqn:E.
  - apply Nat.ltb_lt in E. simpl. specialize (IH (i + 100)). lia.
  - apply Nat.ltb_ge in E. simpl. lia.
Qed.

Section ChunkBatchFacts.

Context {MetadataObj : Type}.
Variable sanitizeString : string -> string.
Variable stringifyMetadata : option MetadataObj -> string.

Lemma upsertData_keys documentId userId (chunks : list (ChunkInput MetadataObj)) embeddings :
  forall i row,
    upsertData sanitizeString stringifyMetadata documentId userId chunks embeddings !! i
      = Some row ->
    row_document_id row = documentId /\ row_user_id row = userId /\ row_chunk_index row = i
    /\ exists chunk, chunks !! i = Some chunk
         /\ row_content row
            = sanitizeString
                (from_option id ""
                   (orString (orString (chunk_content chunk) (chunk_pageContent chunk))
                             (Some ""))).
Proof.
  intros i row. unfold upsertData. rewrite list_lookup_imap.
  destruct (chunks !! i) as [chunk|] eqn:Hi; [|done].
  simpl. intros [= <-]. simpl. repeat split. by exists chunk.
Qed.

End ChunkBatchFacts.

(** ** The storage loop of [processDocumentsForRAG] *)

Lemma content_or_empty (pc : string) :
  from_option id "" (orString (orString (Some pc) None) (Some "")) = pc.
Proof.
  unfold orString, JsString.truthy. destruct (String.eqb pc "") eqn:E; simpl.
  - by apply String.eqb_eq in E.
  - by rewrite E.
Qed.

Section DocumentStorageFacts.

Variable sanitizeString : string -> string.
Variable stringifyMetadata : option ChunkMetadata -> string.
Variable embedBatch : nat -> list EnhancedDoc -> Outcome (list (list float)).

Abbreviation batchRows := (batchRows sanitizeString stringifyMetadata).

Lemma storeBatch_spec uid i first rest batchEmbeddings :
  storeBatch sanitizeString stringifyMetadata (Some uid) i (first :: rest) batchEmbeddings
  = Resolved {| call_documentId := meta_documentId (enhanced_metadata first);
                call_rows := batchRows uid i (first :: rest) batchEmbeddings |}.
Proof.
  unfold storeBatch, batchRows, chunksForStorage. cbn [imap head from_option].
  unfold storeDocumentChunks. cbv zeta. cbn [chunk_metadata from_option meta_documentId].
  rewrite upsertBatchesFrom_concat; [done | lia].
Qed.

Lemma batchRows_lookup uid i batchDocs batchEmbeddings j doc :
  batchDocs !! j = Some doc ->
  exists row,
    batchRows uid i batchDocs batchEmbeddings !! j = Some row
    /\ row_document_id row
       = from_option (fun doc => meta_documentId (enhanced_metadata doc)) "undefined"
                     (head batchDocs)
    /\ row_user_id row = uid
    /\ row_chunk_index row = j
    /\ row_content row = sanitizeString (enhanced_pageContent doc).
Proof.
  intros Hj. unfold batchRows.
  set (data := upsertData _ _ _ _ _ _).
  destruct (lookup_lt_is_Some_2 data j) as [row Hrow].
  { unfold data, upsertData, chunksForStorage. rewrite !length_imap.
    by apply lookup_lt_Some in Hj. }
  exists row. split; [done|].
  apply upsertData_keys in Hrow as (Hd & Hu & Hi & chunk & Hchunk & Hcontent).
  split; [done|]. split; [done|]. split; [done|].
  unfold chunksForStorage in Hchunk. rewrite list_lookup_imap, Hj in Hchunk.
  injection Hchunk as <-. rewrite Hcontent. cbn [chunk_content chunk_pageContent].
  by rewrite content_or_empty.
Qed.

Lemma batchRows_length uid i batchDocs batchEmbeddings :
  length (batchRows uid i batchDocs batchEmbeddings) = length batchDocs.
Proof. unfold batchRows, upsertData, chunksForStorage. by rewrite !length_imap. Qed.

Lemma storeChunkBatchesFrom_spec uid (enhancedDocs : list EnhancedDoc) :
  (forall i batch, exists v, embedBatch i batch = Resolved v) ->
  forall fuel i,
    length enhancedDocs <= i + 50 * fuel ->
    exists calls,
      storeChunkBatchesFrom sanitizeString stringifyMetadata (Some uid) embedBatch
        fuel i enhancedDocs = (calls, Resolved tt)
      /\ (forall k, length enhancedDocs <= i + 50 * k -> calls !! k = None)
      /\ (forall k first, enhancedDocs !! (i + 50 * k) = Some first ->
            exists v,
              embedBatch (i + 50 * k) (take 50 (drop (i + 50 * k) enhancedDocs)) = Resolved v
              /\ calls !! k
                 = Some {| call_documentId := meta_documentId (enhanced_metadata first);
                           call_rows := batchRows uid (i + 50 * k)
                                          (take 50 (drop (i + 50 * k) enhancedDocs)) v |}).
Proof.
  intros Hembed. induction fuel as [|fuel IH]; intros i Hfuel.
  - exists []. split; [done|]. split; [done|]. intros k first Hk.
    apply lookup_lt_Some in Hk. lia.
  - cbn [storeChunkBatchesFrom].
    destruct (i <? length enhancedDocs)%nat eqn:E.
    + apply Nat.ltb_lt in E. cbv zeta.
      destruct (Hembed i (take 50 (drop i enhancedDocs))) as [v Hv]. rewrite Hv.
      destruct (lookup_lt_is_Some_2 enhancedDocs i E) as [first Hfirst].
      assert (Hbatch : take 50 (drop i enhancedDocs)
                       = first :: take 49 (drop (S i) enhancedDocs)).
      { rewrite (drop_S _ _ _ Hfirst). done. }
      rewrite Hbatch. rewrite storeBatch_spec.
      destruct (IH (i + 50)) as (calls & -> & Hnone & Hsome); [lia|].
      eexists. split; [reflexivity|]. split.
      * intros [|k] Hk; [lia|]. simpl. apply Hnone. lia.
      * intros [|k] first' Hk.
        -- rewrite Nat.mul_0_r, Nat.add_0_r in *. rewrite Hfirst in Hk. injection Hk as <-.
           rewrite Hbatch. exists v. split; [by rewrite <- Hbatch | done].
        -- replace (i + 50 * S k) with (i + 50 + 50 * k) in * by lia.
           destruct (Hsome k first' Hk) as (v' & Hv' & Hcall). exists v'. done.
    + apply Nat.ltb_ge in E. exists []. split; [done|]. split; [done|].
      intros k first Hk. apply lookup_lt_Some in Hk. lia.
Qed.

(** X2. When the embedding step resolves for a signed-in user, the loop ends
    normally, and the row handed over for the chunk at position [p] has
    the key [(d, p mod 50)], where [d] is the document of the first chunk
    of its batch of 50: the index restarts at 0 in every batch, whatever
    the document of the chunk itself. *)
Theorem storeChunkBatches_keys_restart_in_every_batch
    (uid : string) (enhancedDocs : list EnhancedDoc) :
  (forall i batch, exists v, embedBatch i batch = Resolved v) ->
  exists calls,
    storeChunkBatches sanitizeString stringifyMetadata (Some uid) embedBatch enhancedDocs
      = (calls, Resolved tt)
    /\ (forall k, length enhancedDocs <= 50 * k -> calls !! k = None)
    /\ forall p doc, enhancedDocs !! p = Some doc ->
         exists call row first,
           calls !! (p / 50) = Some call
           /\ call_rows call !! (p mod 50) = Some row
           /\ length (call_rows call) <= 50
           /\ enhancedDocs !! (50 * (p / 50)) = Some first
           /\ call_documentId call = meta_documentId (enhanced_metadata first)
           /\ row_document_id row = meta_documentId (enhanced_metadata first)
           /\ row_chunk_index row = p mod 50
           /\ row_content row = sanitizeString (enhanced_pageContent doc).
Proof.
  intros Hembed.
  destruct (storeChunkBatchesFrom_spec uid enhancedDocs Hembed (length enhancedDocs) 0)
    as (calls & Hrun & Hnone & Hsome); [lia|].
  exists calls. split; [done|]. split; [intros k Hk; apply Hnone; lia|].
  intros p doc Hp.
  pose proof (Nat.div_mod_eq p 50) as Hdiv.
  pose proof (Nat.mod_upper_bound p 50 ltac:(lia)) as Hmod.
  assert (Hlt : p < length enhancedDocs) by (by apply lookup_lt_Some in Hp).
  destruct (lookup_lt_is_Some_2 enhancedDocs (50 * (p / 50))) as [first Hfirst]; [lia|].
  destruct (Hsome (p / 50) first Hfirst) as (v & _ & Hcall).
  rewrite Nat.add_0_l in Hcall.
  set (batch := take 50 (drop (50 * (p / 50)) enhancedDocs)) in *.
  assert (Hdoc : batch !! (p mod 50) = Some doc).
  { unfold batch. rewrite lookup_take_lt by lia. rewrite lookup_drop.
    by replace (50 * (p / 50) + p mod 50) with p by lia. }
  assert (Hhead : head batch = Some first).
  { unfold batch. rewrite (drop_S _ _ _ Hfirst). done. }
  destruct (batchRows_lookup uid (50 * (p / 50)) batch v (p mod 50) doc Hdoc)
    as (row & Hrow & Hd & _ & Hi & Hc).
  rewrite Hhead in Hd. simpl in Hd.
  eexists _, row, first. split; [exact Hcall|]. cbn [call_rows call_documentId].
  split; [done|]. split; [|done].
  rewrite batchRows_length. unfold batch. rewrite length_take. lia.
Qed.

End DocumentStorageFacts.

Lemma upsertRows_lookup (d : string) (rows : list UpsertRow) (table : ChunkTable) :
  (forall idx row, rows !! idx = Some row ->
     row_document_id row = d /\ row_chunk_index row = idx) ->
  (forall j, upsertRows rows table !! (d, j)
             = match rows !! j with Some row => Some row | None => table !! (d, j) end)
  /\ (forall d' j, d' <> d -> upsertRows rows table !! (d', j) = table !! (d', j)).
Proof.
  unfold upsertRows. induction rows as [|r rows IH] using rev_ind; intros Hkeys; [done|].
  rewrite fold_left_app. cbn [List.fold_left]. cbv beta.
  destruct IH as [IHd IHo].
  { intros idx row Hrow. apply Hkeys. by rewrite lookup_app_l by (by apply lookup_lt_Some in Hrow). }
  destruct (Hkeys (length rows) r) as [Hd Hi].
  { by rewrite lookup_app_r, Nat.sub_diag by lia. }
  rewrite Hd, Hi. split.
  - intros j. destruct (decide (j = length rows)) as [->|Hj].
    + by rewrite lookup_insert_eq, lookup_app_r, Nat.sub_diag by lia.
    + rewrite lookup_insert_ne by congruence. rewrite IHd.
      destruct (decide (j < length rows)) as [Hlt|Hge].
      * by rewrite lookup_app_l by done.
      * rewrite !lookup_ge_None_2; [done | rewrite length_app; simpl; lia | lia].
  - intros d' j Hd'. rewrite lookup_insert_ne by congruence. by apply IHo.
Qed.

Lemma applyStoreCall_lookup (table : ChunkTable) (call : StoreCall) :
  (forall idx row, call_rows call !! idx = Some row ->
     row_document_id row = call_documentId call /\ row_chunk_index row = idx) ->
  (forall j, applyStoreCall table call !! (call_documentId call, j) = call_rows call !! j)
  /\ (forall d' j, d' <> call_documentId call ->
        applyStoreCall table call !! (d', j) = table !! (d', j)).
Proof.
  intros Hkeys. destruct (upsertRows_lookup _ _ table Hkeys) as [Hd Ho].
  unfold applyStoreCall, deleteChunksFrom. split.
  - intros j. destruct (call_rows call !! j) as [row|] eqn:Hj.
    + apply map_lookup_filter_Some. rewrite Hd, Hj. split; [done|]. simpl.
      apply lookup_lt_Some in Hj. lia.
    + apply map_lookup_filter_None. right. intros x _. simpl.
      apply lookup_ge_None_1 in Hj. intros Hx. apply Hx. done.
  - intros d' j Hd'. destruct (table !! (d', j)) as [row|] eqn:Ht.
    + apply map_lookup_filter_Some. rewrite Ho by done. split; [done|]. simpl.
      intros [? _]. done.
    + apply map_lookup_filter_None. left. by rewrite Ho.
Qed.

Section SingleDocument.

Variable sanitizeString : string -> string.
Variable stringifyMetadata : option ChunkMetadata -> string.
Variable embedBatch : nat -> list EnhancedDoc -> Outcome (list (list float)).

(** X3. For a document of more than 50 chunks, the persistent tier ends up
    with its last batch only. When every request succeeds, after the
    loop the table holds, for the document [d] of the chunks, exactly
    the rows of the last batch of at most 50: row [j] of [d] is the chunk
    at position [start + j], where [start] is the position at which the
    last batch begins. The rows the earlier batches wrote under the
    same keys were overwritten, and the rows of other documents are
    untouched. *)
Theorem storeChunkBatches_keeps_only_the_last_batch
    (uid d : string) (enhancedDocs : list EnhancedDoc) (table : ChunkTable) :
  (forall i batch, exists v, embedBatch i batch = Resolved v) ->
  Forall (fun doc => meta_documentId (enhanced_metadata doc) = d) enhancedDocs ->
  enhancedDocs <> [] ->
  let run := storeChunkBatches sanitizeString stringifyMetadata (Some uid) embedBatch
               enhancedDocs in
  let final := tableAfter (fst run) table in
  let start := 50 * ((length enhancedDocs - 1) / 50) in
  snd run = Resolved tt
  /\ (forall j doc, enhancedDocs !! (start + j) = Some doc ->
        exists row, final !! (d, j) = Some row
                    /\ row_chunk_index row = j
                    /\ row_content row = sanitizeString (enhanced_pageContent doc))
  /\ (forall j, length enhancedDocs <= start + j -> final !! (d, j) = None)
  /\ (forall d' j, d' <> d -> final !! (d', j) = table !! (d', j)).
Proof.
  intros Hembed Hsame Hne run final start.
  destruct (storeChunkBatchesFrom_spec sanitizeString stringifyMetadata embedBatch
              uid enhancedDocs Hembed (length enhancedDocs) 0)
    as (calls & Hrun & Hnone & Hsome); [lia|].
  assert (Hn : 0 < length enhancedDocs) by (destruct enhancedDocs; [done | simpl; lia]).
  assert (Hm : exists m, start = 50 * m
                         /\ 50 * m <= length enhancedDocs - 1 < 50 * m + 50).
  { exists ((length enhancedDocs - 1) / 50). split; [done|].
    pose proof (Nat.div_mod_eq (length enhancedDocs - 1) 50).
    pose proof (Nat.mod_upper_bound (length enhancedDocs - 1) 50 ltac:(lia)). lia. }
  destruct Hm as (m & Hstart & Hm). clearbody start. subst start.
  subst run final. unfold storeChunkBatches. rewrite Hrun. cbn [fst snd].
  split; [done|].
  (* every call is for [d] and keys its rows by their index *)
  assert (Hcalls : forall k call, calls !! k = Some call ->
            call_documentId call = d
            /\ (forall idx row, call_rows call !! idx = Some row ->
                  row_document_id row = d /\ row_chunk_index row = idx)
            /\ forall j, call_rows call !! j
                 = batchRows sanitizeString stringifyMetadata uid (50 * k)
                     (take 50 (drop (50 * k) enhancedDocs))
                     (match embedBatch (50 * k) (take 50 (drop (50 * k) enhancedDocs)) with
                      | Resolved v => v
                      | Rejected _ => []
                      end) !! j).
  { intros k call Hk.
    destruct (decide (50 * k < length enhancedDocs)) as [Hlt|Hge];
      [|rewrite Hnone in Hk by lia; done].
    destruct (lookup_lt_is_Some_2 enhancedDocs (50 * k) Hlt) as [first Hfirst].
    destruct (Hsome k first Hfirst) as (v & Hv & Hcall).
    rewrite Nat.add_0_l in *. remember (50 * k) as s eqn:Hs. rewrite Hcall in Hk.
    destruct call as [cd cr]. cbn [call_documentId call_rows]. injection Hk as <- <-.
    rewrite Hv.
    assert (Hd : meta_documentId (enhanced_metadata first) = d).
    { rewrite Forall_forall in Hsame. apply Hsame. by eapply list_elem_of_lookup_2. }
    split; [done|]. split; [|done].
    intros idx row Hrow. unfold batchRows in Hrow.
    destruct (upsertData_keys _ _ _ _ _ _ idx row Hrow) as (Hdoc & _ & Hidx & _).
    rewrite (drop_S _ _ _ Hfirst) in Hdoc. simpl in Hdoc. by rewrite <- Hd. }
  (* the last call *)
  destruct (lookup_lt_is_Some_2 enhancedDocs (50 * m)) as [first Hfirst]; [lia|].
  destruct (Hsome m first Hfirst) as (v & Hv & Hlast). rewrite Nat.add_0_l in *.
  assert (Hlen : length calls = S m).
  { destruct (decide (length calls <= m)) as [Hle|Hgt].
    - apply lookup_ge_None_2 in Hle. by rewrite Hle in Hlast.
    - destruct (decide (length calls = S m)) as [|Hneq]; [done|].
      assert (Hs : is_Some (calls !! S m)) by (apply lookup_lt_is_Some_2; lia).
      rewrite Hnone in Hs by lia. by destruct Hs. }
  assert (Hsplit : calls = take m calls ++ [{| call_documentId := meta_documentId (enhanced_metadata first);
                                               call_rows := batchRows sanitizeString stringifyMetadata uid (50 * m)
                                                 (take 50 (drop (50 * m) enhancedDocs)) v |}]).
  { rewrite <- (take_drop m calls) at 1. f_equal.
    rewrite (drop_S _ _ _ Hlast). rewrite (drop_ge calls) by lia. done. }
  destruct (Hcalls m _ Hlast) as (Hd & Hkeys & _).
  unfold tableAfter. rewrite Hsplit, fold_left_app. cbn [List.fold_left].
  set (last := {| call_documentId := _; call_rows := _ |}) in *.
  destruct (applyStoreCall_lookup (List.fold_left applyStoreCall (take m calls) table) last)
    as [Hin Hout].
  { intros idx row Hrow. rewrite Hd. by apply Hkeys. }
  rewrite Hd in Hin, Hout.
  split; [|split].
  - intros j doc Hj. rewrite Hin. unfold last. cbn [call_rows].
    assert (Hjlt : 50 * m + j < length enhancedDocs) by (by apply lookup_lt_Some in Hj).
    assert (Hdoc : take 50 (drop (50 * m) enhancedDocs) !! j = Some doc).
    { rewrite lookup_take_lt by lia. by rewrite lookup_drop. }
    destruct (batchRows_lookup sanitizeString stringifyMetadata uid (50 * m) _ v j doc Hdoc)
      as (row & Hrow & _ & _ & Hi & Hc).
    by exists row.
  - intros j Hj. rewrite Hin. unfold last. cbn [call_rows].
    apply lookup_ge_None_2. rewrite batchRows_length, length_take, length_drop. lia.
  - intros d' j Hd'. rewrite Hout by done.
    clear Hsplit Hin Hout. assert (Hpre : forall k call, take m calls !! k = Some call ->
                                     call_documentId call = d
                                     /\ forall idx row, call_rows call !! idx = Some row ->
                                          row_document_id row = d /\ row_chunk_index row = idx).
    { intros k call Hk. apply lookup_take_Some in Hk as [Hk _].
      destruct (Hcalls k call Hk) as (? & ? & _). done. }
    generalize dependent table. induction (take m calls) as [|c cs IH]; intros table; [done|].
    cbn [List.fold_left]. rewrite IH.
    + destruct (Hpre 0 c eq_refl) as [Hcd Hck].
      destruct (applyStoreCall_lookup table c) as [_ Ho]; [by rewrite Hcd|].
      apply Ho. by rewrite Hcd.
    + intros k call Hk. by apply (Hpre (S k)).
Qed.

End SingleDocument.

(** ** Batched embedding with a fixed batch size *)

Lemma retryFrom_outcome {T : Type} (fn : nat -> Outcome T) random opts remaining :
  forall attempt lastError,
    match run_result (retryFrom fn random opts remaining attempt lastError) with
    | Returned v => exists a, attempt <= a < attempt + remaining /\ fn a = Resolved v
    | Threw thrown =>
        (remaining = 0 /\ thrown = lastError)
        \/ exists a e, attempt <= a < attempt + remaining /\ fn a = Rejected e
                       /\ thrown = Some e
    end.
Proof.
  induction remaining as [|r IH]; intros a le; simpl; [by left|].
  destruct (fn a) as [v|e] eqn:Hfn; simpl.
  - exists a. split; [lia | done].
  - destruct (shouldRetry _ e); simpl.
    + specialize (IH (S a) (Some e)).
      destruct (run_result (retryFrom fn random opts r (S a) (Some e))) as [v|thrown].
      * destruct IH as (a' & Ha' & Hv). exists a'. split; [lia | done].
      * right. destruct IH as [[_ ->]|(a' & e' & Ha' & He' & ->)].
        -- exists a, e. split; [lia | done].
        -- exists a', e'. split; [lia | done].
    + right. exists a, e. split; [lia | done].
Qed.

Section FixedBatchFacts.

Variable embedQuery : string -> nat -> nat -> Outcome (list float).
Variable random : nat -> nat -> Q.

Lemma processEmbeddingsFrom_spec (chunks : list Doc) : forall fuel i allEmbeddings,
  length chunks <= i + 3 * fuel ->
  length allEmbeddings = Nat.min i (length chunks) ->
  (forall p chunk, p < length allEmbeddings -> chunks !! p = Some chunk ->
     allEmbeddings !! p = Some (embedText embedQuery random p (pageContent chunk))) ->
  length (processEmbeddingsFrom embedQuery random fuel i chunks allEmbeddings)
    = length chunks
  /\ forall p chunk, chunks !! p = Some chunk ->
       processEmbeddingsFrom embedQuery random fuel i chunks allEmbeddings !! p
       = Some (embedText embedQuery random p (pageContent chunk)).
Proof.
  induction fuel as [|fuel IH]; intros i acc Hfuel Hlen Hacc; simpl.
  - split; [lia|]. intros p chunk Hp. apply Hacc; [|done].
    apply lookup_lt_Some in Hp. lia.
  - destruct (i <? length chunks)%nat eqn:E.
    + apply Nat.ltb_lt in E. apply IH; [lia| |].
      * rewrite length_app, length_imap, length_map, length_take, length_drop. lia.
      * intros p chunk Hp Hchunk.
        rewrite length_app, length_imap, length_map, length_take, length_drop in Hp.
        destruct (decide (p < length acc)) as [Hold|Hnew].
        -- rewrite lookup_app_l by done. by apply Hacc.
        -- rewrite lookup_app_r by lia. rewrite list_lookup_imap.
           rewrite map_is_fmap, list_lookup_fmap.
           rewrite lookup_take_lt by lia. rewrite lookup_drop.
           replace (i + (p - length acc)) with p by lia. rewrite Hchunk. simpl.
           by replace (i + (p - length acc)) with p by lia.
    + apply Nat.ltb_ge in E. split; [lia|]. intros p chunk Hp. apply Hacc; [|done].
      apply lookup_lt_Some in Hp. lia.
Qed.

(** X4. [processEmbeddingsInBatches] returns one vector per chunk, in the
    order of the chunks, whatever the provider does: the vector at
    position [i] is an embedding the provider returned for the text of
    chunk [i] at one of at most 5 attempts, or the zero placeholder of 1536
    components after an attempt for that text failed. Positions are
    counted, not looked up, so that a chunk listed twice is embedded
    twice. *)
Theorem processEmbeddingsInBatches_one_vector_per_chunk (chunks : list Doc) :
  let result := processEmbeddingsInBatches embedQuery random chunks in
  length result = length chunks
  /\ (forall i chunk, chunks !! i = Some chunk ->
        exists v,
          result !! i = Some v
          /\ ((exists attempt, attempt < 5
                 /\ embedQuery (pageContent chunk) i attempt = Resolved v)
              \/ (v = zeroEmbedding
                  /\ exists attempt e, attempt < 5
                       /\ embedQuery (pageContent chunk) i attempt = Rejected e)))
  /\ length zeroEmbedding = 1536.
Proof.
  intros result.
  destruct (processEmbeddingsFrom_spec chunks (length chunks) 0 []) as [Hlen Hat];
    [lia | done | simpl; lia |].
  split; [done|]. split; [|apply repeat_length].
  intros i chunk Hi. eexists. split; [by apply Hat|].
  unfold embedText, retryWithAdvancedBackoff.
  pose proof (retryFrom_outcome (embedQuery (pageContent chunk) i) (random i)
                embeddingRetryOptions (maxRetries embeddingRetryOptions) 0 None) as Hout.
  destruct (run_result _) as [v|thrown].
  - left. destruct Hout as (a & Ha & Hv). exists a. split; [simpl in Ha; lia | done].
  - right. split; [done|].
    destruct Hout as [[Hzero _]|(a & e & Ha & He & _)]; [done|].
    exists a, e. split; [simpl in Ha; lia | done].
Qed.

End FixedBatchFacts.

(** ** Retry on every error *)

Section SimpleRetryFacts.

Context {T : Type}.
Variable operation : nat -> Outcome T.
Variable random : nat -> Q.

Lemma retryWithBackoffFrom_calls remaining : forall attempt lastError,
  run_calls (retryWithBackoffFrom operation random remaining attempt lastError) <= remaining.
Proof.
  induction remaining as [|r IH]; intros a le; simpl; [lia|].
  destruct (operation a); simpl; [lia|]. specialize (IH (S a) (Some e)). lia.
Qed.

Lemma retryWithBackoffFrom_succeeds (failures : nat) : forall remaining attempt lastError v,
  failures < remaining ->
  (forall a, attempt <= a < attempt + failures -> exists e, operation a = Rejected e) ->
  operation (attempt + failures) = Resolved v ->
  run_result (retryWithBackoffFrom operation random remaining attempt lastError) = Returned v
  /\ run_calls (retryWithBackoffFrom operation random remaining attempt lastError)
     = S failures
  /\ length (run_delays (retryWithBackoffFrom operation random remaining attempt lastError))
     = failures.
Proof.
  induction failures as [|j IH]; intros r a le v Hlt Hfail Hok;
    (destruct r as [|r]; [lia|]); simpl.
  - rewrite Nat.add_0_r in Hok. by rewrite Hok.
  - destruct (Hfail a) as (e & Hfn); [lia|]. rewrite Hfn. simpl.
    destruct (IH r (S a) (Some e) v) as (H1 & H2 & H3); [lia| |by rewrite <- Hok; f_equal; lia|].
    { intros a' Ha'. apply Hfail. lia. }
    by rewrite H1, H2, H3.
Qed.

Lemma retryWithBackoffFrom_exhausted remaining : forall attempt lastError,
  (forall a, attempt <= a < attempt + remaining -> exists e, operation a = Rejected e) ->
  run_calls (retryWithBackoffFrom operation random remaining attempt lastError) = remaining
  /\ length (run_delays (retryWithBackoffFrom operation random remaining attempt lastError))
     = remaining
  /\ (remaining = 0 ->
        run_result (retryWithBackoffFrom operation random remaining attempt lastError)
        = Threw lastError)
  /\ (0 < remaining ->
        exists e, operation (attempt + remaining - 1) = Rejected e
                  /\ run_result (retryWithBackoffFrom operation random remaining attempt
                                   lastError) = Threw (Some e)).
Proof.
  induction remaining as [|r IH]; intros a le Hall; simpl.
  - repeat split; try done. lia.
  - destruct (Hall a) as (e & Hfn); [lia|]. rewrite Hfn. simpl.
    destruct (IH (S a) (Some e)) as (Hc & Hd & H0 & Hpos).
    { intros a' Ha'. apply Hall. lia. }
    rewrite Hc, Hd. repeat split; try done.
    intros _. destruct r as [|r'].
    + exists e. rewrite H0 by done. split; [|done].
      replace (a + 1 - 1) with a by lia. done.
    + destruct Hpos as (e' & Hfn' & Hres); [lia|]. exists e'. split; [|done].
      replace (a + S (S r') - 1) with (S a + S r' - 1) by lia. done.
Qed.

Lemma retryWithBackoffFrom_delays remaining : forall attempt lastError i d,
  run_delays (retryWithBackoffFrom operation random remaining attempt lastError) !! i
    = Some d ->
  d = backoffDelay (attempt + i) (random (attempt + i)).
Proof.
  induction remaining as [|r IH]; intros a le i d; simpl; [done|].
  destruct (operation a) as [v|e]; simpl; [done|].
  destruct i as [|i]; simpl.
  - intros [= <-]. by rewrite Nat.add_0_r.
  - intros Hd. apply IH in Hd. by replace (a + S i) with (S a + i) by lia.
Qed.

(** X5. [retryWithBackoff] retries after every error, whatever its kind. The
    operation is invoked at most [maxRetries] times; if invocation
    number [k] (from 0) is the first to succeed, its value is returned
    after [k + 1] invocations and [k] waits; if all [maxRetries]
    invocations fail, the error of the last one is thrown, after a wait
    that follows the last failure too; with [maxRetries = 0] the
    operation is never invoked and [undefined] is thrown. The wait after
    failed attempt [a] lasts between [2^a] and [2^a + 1] seconds: it is
    not capped. *)
Theorem retryWithBackoff_retries_every_error (maxRetries : nat) :
  (forall a, 0 <= random a /\ random a < 1)%Q ->
  let r := retryWithBackoff operation random maxRetries in
  run_calls r <= maxRetries
  /\ (forall k v, k < maxRetries ->
        (forall a, a < k -> exists e, operation a = Rejected e) ->
        operation k = Resolved v ->
        run_result r = Returned v /\ run_calls r = S k /\ length (run_delays r) = k)
  /\ ((forall a, a < maxRetries -> exists e, operation a = Rejected e) ->
        run_calls r = maxRetries
        /\ length (run_delays r) = maxRetries
        /\ (maxRetries = 0 -> run_result r = Threw None)
        /\ (0 < maxRetries ->
              exists e, operation (maxRetries - 1) = Rejected e
                        /\ run_result r = Threw (Some e)))
  /\ (forall a d, run_delays r !! a = Some d ->
        d = (inject_Z (2 ^ Z.of_nat a) * 1000 + random a * 1000)%Q
        /\ (inject_Z (2 ^ Z.of_nat a) * 1000 <= d)%Q
        /\ (d < inject_Z (2 ^ Z.of_nat a) * 1000 + 1000)%Q).
Proof.
  intros Hrandom r. subst r. unfold retryWithBackoff.
  split; [apply retryWithBackoffFrom_calls|]. split; [|split].
  - intros k v Hk Hfail Hok.
    apply (retryWithBackoffFrom_succeeds k maxRetries 0 None v); [done| |done].
    intros a Ha. apply Hfail. lia.
  - intros Hall.
    destruct (retryWithBackoffFrom_exhausted maxRetries 0 None) as (Hc & Hd & H0 & Hpos).
    { intros a Ha. apply Hall. lia. }
    split; [done|]. split; [done|]. split; [done|].
    intros Hmax. destruct (Hpos Hmax) as (e & He & Hres). exists e.
    by rewrite Nat.add_0_l in He.
  - intros a d Hd. apply retryWithBackoffFrom_delays in Hd. rewrite Nat.add_0_l in Hd.
    subst d. unfold backoffDelay. split; [done|].
    destruct (Hrandom a) as [H0 H1]. split; lra.
Qed.

End SimpleRetryFacts.

(** ** Sanitised text *)

Lemma removeUnicodeEscapes_step (c : ascii) (tail : string) :
  removeUnicodeEscapes (String c tail) = String c (removeUnicodeEscapes tail)
  \/ (c = backslash
      /\ exists u h1 h2 h3 h4 rest,
           tail = String u (String h1 (String h2 (String h3 (String h4 rest))))
           /\ removeUnicodeEscapes (String c tail) = removeUnicodeEscapes rest).
Proof.
  destruct tail as [|u [|h1 [|h2 [|h3 [|h4 rest]]]]]; try (by left).
  cbn [removeUnicodeEscapes].
  destruct (Ascii.eqb c backslash) eqn:Hc; [|by left].
  destruct (Ascii.eqb u "u" && isHexDigit h1 && isHexDigit h2 && isHexDigit h3
            && isHexDigit h4) eqn:E.
  - right. apply Ascii.eqb_eq in Hc. split; [done|].
    exists u, h1, h2, h3, h4, rest. split; [done|].
    cbn [andb]. by rewrite E.
  - left. cbn [andb]. by rewrite E.
Qed.

Lemma removeUnicodeEscapes_allChars (p : ascii -> bool) : forall n s,
  String.length s <= n -> allChars p s = true ->
  allChars p (removeUnicodeEscapes s) = true.
Proof.
  induction n as [|n IH]; intros s Hn Hs.
  - destruct s; [done | simpl in Hn; lia].
  - destruct s as [|c tail]; [done|]. simpl in Hn, Hs.
    apply andb_true_iff in Hs as [Hc Htail].
    destruct (removeUnicodeEscapes_step c tail)
      as [->|(_ & u & h1 & h2 & h3 & h4 & rest & -> & ->)].
    + simpl. rewrite Hc. apply IH; [lia | done].
    + apply IH; [simpl in Hn; lia|]. simpl in Htail.
      repeat (apply andb_true_iff in Htail as [_ Htail]). done.
Qed.

Lemma removeUnicodeEscapes_length : forall n s,
  String.length s <= n -> String.length (removeUnicodeEscapes s) <= String.length s.
Proof.
  induction n as [|n IH]; intros s Hn.
  - destruct s; [done | simpl in Hn; lia].
  - destruct s as [|c tail]; [done|]. simpl in Hn.
    destruct (removeUnicodeEscapes_step c tail)
      as [->|(_ & u & h1 & h2 & h3 & h4 & rest & -> & ->)].
    + simpl. specialize (IH tail). lia.
    + simpl in *. specialize (IH rest). lia.
Qed.

Lemma removeUnicodeEscapes_noBackslash : forall s,
  noBackslash s = true -> removeUnicodeEscapes s = s.
Proof.
  induction s as [|c tail IH]; [done|]. unfold noBackslash in *.
  intros H. simpl in H. apply andb_true_iff in H as [Hc Htail].
  destruct (removeUnicodeEscapes_step c tail) as [->|(-> & _)].
  - by rewrite IH.
  - by rewrite Ascii.eqb_refl in Hc.
Qed.

Lemma mapChars_length (f : ascii -> ascii) (s : string) :
  String.length (JsString.mapChars f s) = String.length s.
Proof. induction s as [|c s IH]; simpl; [done | by rewrite IH]. Qed.

Lemma mapChars_allChars (f : ascii -> ascii) (p : ascii -> bool) (s : string) :
  (forall c, p (f c) = true) -> allChars p (JsString.mapChars f s) = true.
Proof. intros Hp. induction s as [|c s IH]; simpl; [done | by rewrite Hp, IH]. Qed.

Lemma mapChars_fixed (f : ascii -> ascii) (p : ascii -> bool) (s : string) :
  (forall c, p c = true -> f c = c) -> allChars p s = true -> JsString.mapChars f s = s.
Proof.
  intros Hf. induction s as [|c s IH]; simpl; [done|].
  intros H. apply andb_true_iff in H as [Hc Hs]. by rewrite Hf, IH.
Qed.

Lemma sanitizeString_noControlChars (str : string) :
  noControlChars (sanitizeString str) = true.
Proof.
  unfold sanitizeString, noControlChars.
  apply (removeUnicodeEscapes_allChars _ (String.length str)).
  - by rewrite mapChars_length.
  - apply mapChars_allChars. intros c. by destruct (isControlChar c) eqn:E; [|rewrite E].
Qed.

(** *** On all code units *)

Lemma utf16_removeUnicodeEscapes_step (c : N) (tail : list N) :
  Utf16.removeUnicodeEscapes (c :: tail) = c :: Utf16.removeUnicodeEscapes tail
  \/ (c = Utf16.backslashUnit
      /\ exists u h1 h2 h3 h4 rest,
           tail = u :: h1 :: h2 :: h3 :: h4 :: rest
           /\ (u =? Utf16.letterU)%N && Utf16.isHexUnit h1 && Utf16.isHexUnit h2
              && Utf16.isHexUnit h3 && Utf16.isHexUnit h4 = true
           /\ Utf16.removeUnicodeEscapes (c :: tail) = Utf16.removeUnicodeEscapes rest).
Proof.
  destruct tail as [|u [|h1 [|h2 [|h3 [|h4 rest]]]]]; try (by left).
  cbn [Utf16.removeUnicodeEscapes].
  destruct (c =? Utf16.backslashUnit)%N eqn:Hc; [|by left].
  destruct ((u =? Utf16.letterU)%N && Utf16.isHexUnit h1 && Utf16.isHexUnit h2
            && Utf16.isHexUnit h3 && Utf16.isHexUnit h4) eqn:E.
  - right. apply N.eqb_eq in Hc. split; [done|].
    exists u, h1, h2, h3, h4, rest. split; [done|]. split; [done|].
    cbn [andb]. by rewrite E.
  - left. cbn [andb]. by rewrite E.
Qed.

Lemma utf16_removeUnicodeEscapes_sublist : forall n s,
  length s <= n -> sublist (Utf16.removeUnicodeEscapes s) s.
Proof.
  induction n as [|n IH]; intros s Hn.
  - destruct s; [done | simpl in Hn; lia].
  - destruct s as [|c tail]; [done|]. simpl in Hn.
    destruct (utf16_removeUnicodeEscapes_step c tail)
      as [->|(_ & u & h1 & h2 & h3 & h4 & rest & -> & _ & ->)].
    + apply sublist_skip, IH. lia.
    + do 6 apply sublist_cons. apply IH. simpl in Hn. lia.
Qed.

Lemma utf16_removeUnicodeEscapes_noBackslash (s : list N) :
  forallb (fun u => negb (u =? 92)%N) s = true -> Utf16.removeUnicodeEscapes s = s.
Proof.
  induction s as [|c tail IH]; [done|].
  intros H. cbn [forallb] in H. apply andb_true_iff in H as [Hc Htail].
  destruct (utf16_removeUnicodeEscapes_step c tail) as [->|(-> & _)].
  - by rewrite IH.
  - done.
Qed.

Lemma utf16_replaceSurrogatePairs_none (s : list N) :
  forallb (fun u => negb (Utf16.isProblematicUnit u)) s = true ->
  Utf16.replaceSurrogatePairs s = s.
Proof.
  induction s as [|high tail IH]; [done|].
  intros H. cbn [forallb] in H. apply andb_true_iff in H as [Hhigh Htail].
  destruct tail as [|low rest]; [done|].
  cbn [Utf16.replaceSurrogatePairs].
  assert (Hno : Utf16.isHighSurrogate high = false).
  { unfold Utf16.isProblematicUnit, Utf16.isHighSurrogate in *.
    destruct (55296 <=? high)%N eqn:E1; [|done].
    destruct (high <=? 56319)%N eqn:E2; [|done].
    apply N.leb_le in E1, E2.
    rewrite (proj2 (N.leb_le high 57343)) in Hhigh by lia. done. }
  rewrite Hno. cbn [andb]. f_equal. by apply IH.
Qed.

Lemma forallb_sublist {A} (p : A -> bool) (l1 l2 : list A) :
  sublist l1 l2 -> forallb p l2 = true -> forallb p l1 = true.
Proof.
  intros Hsub H. rewrite forallb_forall in *. intros x Hx. apply H.
  apply list_elem_of_In. eapply sublist_subseteq; [exact Hsub|]. by apply list_elem_of_In.
Qed.

(** *** Code units below 256 *)

Lemma unit_of_ascii (c : ascii) :
  Utf16.isControlUnit (N_of_ascii c) = isControlChar c
  /\ Utf16.isProblematicUnit (N_of_ascii c) = false
  /\ Utf16.isHexUnit (N_of_ascii c) = isHexDigit c
  /\ (N_of_ascii c =? Utf16.backslashUnit)%N = Ascii.eqb c backslash
  /\ (N_of_ascii c =? Utf16.letterU)%N = Ascii.eqb c "u".
Proof. destruct c as [[] [] [] [] [] [] [] []]; vm_compute; done. Qed.

Lemma removeUnicodeEscapes_six (c u h1 h2 h3 h4 : ascii) (rest : string) :
  removeUnicodeEscapes (String c (String u (String h1 (String h2 (String h3 (String h4 rest))))))
  = if Ascii.eqb c backslash && Ascii.eqb u "u"
       && isHexDigit h1 && isHexDigit h2 && isHexDigit h3 && isHexDigit h4
    then removeUnicodeEscapes rest
    else String c (removeUnicodeEscapes
                     (String u (String h1 (String h2 (String h3 (String h4 rest)))))).
Proof. reflexivity. Qed.

Lemma utf16_removeUnicodeEscapes_six (c u h1 h2 h3 h4 : N) (rest : list N) :
  Utf16.removeUnicodeEscapes (c :: u :: h1 :: h2 :: h3 :: h4 :: rest)
  = if (c =? Utf16.backslashUnit)%N && (u =? Utf16.letterU)%N
       && Utf16.isHexUnit h1 && Utf16.isHexUnit h2 && Utf16.isHexUnit h3
       && Utf16.isHexUnit h4
    then Utf16.removeUnicodeEscapes rest
    else c :: Utf16.removeUnicodeEscapes (u :: h1 :: h2 :: h3 :: h4 :: rest).
Proof. reflexivity. Qed.

Lemma ofString_removeUnicodeEscapes : forall n s,
  String.length s <= n ->
  Utf16.removeUnicodeEscapes (Utf16.ofString s) = Utf16.ofString (removeUnicodeEscapes s).
Proof.
  induction n as [|n IH]; intros s Hn.
  - destruct s; [done | simpl in Hn; lia].
  - destruct s as [|c tail]; [done|]. simpl in Hn.
    assert (Hskip : Utf16.removeUnicodeEscapes (Utf16.ofString tail)
                    = Utf16.ofString (removeUnicodeEscapes tail)) by (apply IH; lia).
    destruct tail as [|u [|h1 [|h2 [|h3 [|h4 rest]]]]];
      try (cbn [removeUnicodeEscapes Utf16.removeUnicodeEscapes Utf16.ofString
                list_ascii_of_string List.map] in *; by rewrite ?Hskip).
    rewrite removeUnicodeEscapes_six.
    change (Utf16.ofString
              (String c (String u (String h1 (String h2 (String h3 (String h4 rest)))))))
      with (N_of_ascii c :: N_of_ascii u :: N_of_ascii h1 :: N_of_ascii h2
            :: N_of_ascii h3 :: N_of_ascii h4 :: Utf16.ofString rest).
    rewrite utf16_removeUnicodeEscapes_six.
    destruct (unit_of_ascii c) as (_ & _ & _ & -> & _).
    destruct (unit_of_ascii u) as (_ & _ & _ & _ & ->).
    destruct (unit_of_ascii h1) as (_ & _ & -> & _).
    destruct (unit_of_ascii h2) as (_ & _ & -> & _).
    destruct (unit_of_ascii h3) as (_ & _ & -> & _).
    destruct (unit_of_ascii h4) as (_ & _ & -> & _).
    destruct (Ascii.eqb c backslash && Ascii.eqb u "u" && isHexDigit h1 && isHexDigit h2
              && isHexDigit h3 && isHexDigit h4).
    + apply IH. simpl in Hn. lia.
    + change (N_of_ascii u :: N_of_ascii h1 :: N_of_ascii h2 :: N_of_ascii h3
              :: N_of_ascii h4 :: Utf16.ofString rest)
        with (Utf16.ofString (String u (String h1 (String h2 (String h3 (String h4 rest)))))).
      by rewrite Hskip.
Qed.

Lemma ofString_sanitizeString (str : string) :
  Utf16.sanitizeString (Utf16.ofString str) = Utf16.ofString (sanitizeString str).
Proof.
  unfold Utf16.sanitizeString, sanitizeString.
  set (f := fun c : ascii => if isControlChar c then " "%char else c).
  assert (Hmap : List.map (fun u => if Utf16.isControlUnit u then Utf16.space else u)
                          (Utf16.ofString str)
                 = Utf16.ofString (JsString.mapChars f str)).
  { induction str as [|c s IH]; [done|].
    change (Utf16.ofString (String c s)) with (N_of_ascii c :: Utf16.ofString s).
    cbn [List.map JsString.mapChars]. rewrite IH.
    change (Utf16.ofString (String (f c) ?x)) with (N_of_ascii (f c) :: Utf16.ofString x).
    f_equal. destruct (unit_of_ascii c) as (-> & _). subst f. cbv beta.
    by destruct (isControlChar c). }
  rewrite Hmap.
  assert (Hkeep : forall s, forallb (fun u => negb (Utf16.isProblematicUnit u))
                                    (Utf16.ofString s) = true).
  { induction s as [|c s IH]; [done|].
    change (Utf16.ofString (String c s)) with (N_of_ascii c :: Utf16.ofString s).
    cbn [forallb]. rewrite IH. by destruct (unit_of_ascii c) as (_ & -> & _). }
  rewrite forallb_filter_id by apply Hkeep.
  rewrite utf16_replaceSurrogatePairs_none by apply Hkeep.
  by apply (ofString_removeUnicodeEscapes (String.length (JsString.mapChars f str))).
Qed.

(** X6. [sanitizeString] leaves in its result no control character (code
    units 0 to 31 and 127 to 159, and the line and paragraph
    separators), no surrogate code unit and none of the code units FFFE
    and FFFF; it never lengthens the text, and returns unchanged a text
    that holds none of these and no backslash. Its replacement of
    surrogate pairs by a question mark never applies, the surrogates
    being removed before. On a text whose code units are all below 256
    it is the replacement of the control characters by spaces followed by
    the removal of the escape sequences, so that no row that
    [storeDocumentChunks] builds from such texts holds a control
    character in its content. *)
Theorem sanitizeString_leaves_no_control_character
    {MetadataObj : Type} (stringifyMetadata : option MetadataObj -> string)
    (units : list N) (str : string) (userId : option string) (documentId : string)
    (chunks : option (list (ChunkInput MetadataObj)))
    (embeddings : option (list EmbeddingCell)) :
  let control (u : N) :=
    ((u <=? 31) || ((127 <=? u) && (u <=? 159)) || (u =? 8232) || (u =? 8233))%N in
  let problematic (u : N) :=
    (((55296 <=? u) && (u <=? 57343)) || (u =? 65534) || (u =? 65535))%N in
  let clean (u : N) := negb (control u) && negb (problematic u) in
  forallb clean (Utf16.sanitizeString units) = true
  /\ length (Utf16.sanitizeString units) <= length units
  /\ (forallb clean units = true -> forallb (fun u => negb (u =? 92)%N) units = true ->
        Utf16.sanitizeString units = units)
  /\ Utf16.sanitizeString units
     = Utf16.removeUnicodeEscapes
         (List.filter (fun u => negb (problematic u))
            (List.map (fun u => if control u then 32%N else u) units))
  /\ Utf16.sanitizeString (Utf16.ofString str) = Utf16.ofString (sanitizeString str)
  /\ noControlChars (sanitizeString str) = true
  /\ String.length (sanitizeString str) <= String.length str
  /\ Forall (fun row => noControlChars (row_content row) = true)
       (storedRows (storeDocumentChunks sanitizeString stringifyMetadata
                      userId documentId chunks embeddings)).
Proof.
  intros control problematic clean.
  set (spaced := List.map (fun u => if control u then 32%N else u) units).
  set (kept := List.filter (fun u => negb (problematic u)) spaced).
  assert (Hkept : forallb (fun u => negb (problematic u)) kept = true).
  { apply forallb_forall. intros u Hu. by apply filter_In in Hu as [_ Hu]. }
  assert (Hspaced : forallb (fun u => negb (control u)) spaced = true).
  { apply forallb_forall. intros u Hu. apply in_map_iff in Hu as (x & <- & _).
    destruct (control x) eqn:E; [done | by rewrite E]. }
  assert (Hclean : forallb clean kept = true).
  { apply forallb_forall. intros u Hu. pose proof Hu as Hin.
    apply filter_In in Hu as [Hu Hp]. subst clean. cbv beta. rewrite Hp, andb_true_r.
    rewrite forallb_forall in Hspaced. by apply Hspaced. }
  assert (Hsame : Utf16.sanitizeString units = Utf16.removeUnicodeEscapes kept).
  { change (Utf16.sanitizeString units)
      with (Utf16.removeUnicodeEscapes (Utf16.replaceSurrogatePairs kept)).
    by rewrite (utf16_replaceSurrogatePairs_none kept Hkept). }
  pose proof (utf16_removeUnicodeEscapes_sublist (length kept) kept (le_n _)) as Hsub.
  split; [rewrite Hsame; by apply (forallb_sublist clean _ kept)|].
  split.
  { rewrite Hsame. apply sublist_length in Hsub.
    assert (length kept <= length spaced) by apply List.filter_length_le.
    unfold spaced in *. rewrite length_map in *. lia. }
  split.
  { intros Hunits Hback. rewrite Hsame.
    assert (Hspaced' : spaced = units).
    { unfold spaced. rewrite <- (List.map_id units) at 2. apply map_ext_in.
      intros u Hu. rewrite forallb_forall in Hunits. specialize (Hunits u Hu).
      subst clean. cbv beta in Hunits. apply andb_true_iff in Hunits as [Hc _].
      by destruct (control u). }
    assert (Hkept' : kept = units).
    { unfold kept. rewrite Hspaced'. apply forallb_filter_id.
      apply forallb_forall. intros u Hu. rewrite forallb_forall in Hunits.
      specialize (Hunits u Hu). subst clean. cbv beta in Hunits.
      by apply andb_true_iff in Hunits as [_ Hp]. }
    rewrite Hkept'. by apply utf16_removeUnicodeEscapes_noBackslash. }
  split; [done|].
  split; [apply ofString_sanitizeString|].
  split; [apply sanitizeString_noControlChars|].
  split.
  { unfold sanitizeString.
    etransitivity; [by eapply removeUnicodeEscapes_length|]. by rewrite mapChars_length. }
  destruct userId as [uid|]; [|constructor]. destruct chunks as [cs|]; [|constructor].
  rewrite storedRows_storeDocumentChunks. apply Forall_lookup. intros i row Hrow.
  apply upsertData_keys in Hrow as (_ & _ & _ & chunk & _ & ->).
  apply sanitizeString_noControlChars.
Qed.

(** An escape sequence that a removal brings together stays in the
    result, and so does a backslash that starts none; a character
    outside the basic plane disappears. *)
Example sanitizeString_is_one_pass :
  sanitizeString "\u\u00410041" = "\u0041"
  /\ sanitizeString "a\u00e9b" = "ab"
  /\ sanitizeString ("tab" +:+ String (ascii_of_nat 9) "bed") = "tab bed"
  /\ sanitizeString "C:\users" = "C:\users"
  /\ Utf16.sanitizeString [97; 0xD83D; 0xDE00; 98]%N = [97; 98]%N
  /\ Utf16.sanitizeString [97; 0x2028; 98]%N = [97; 32; 98]%N.
Proof. repeat split; vm_compute; reflexivity. Qed.

(** ** The requests of [storeDocumentChunks] *)

Lemma asciiOnly_chars (content : string) :
  allChars (fun c => (32 <=? nat_of_ascii c)%nat && (nat_of_ascii c <=? 126)%nat)
           (asciiOnly content) = true.
Proof.
  unfold asciiOnly. apply mapChars_allChars. intros c. cbv zeta.
  by destruct ((32 <=? nat_of_ascii c)%nat && (nat_of_ascii c <=? 126)%nat) eqn:E.
Qed.

Lemma asciiOnly_fixed (content : string) :
  allChars (fun c => (32 <=? nat_of_ascii c)%nat && (nat_of_ascii c <=? 126)%nat) content
    = true ->
  asciiOnly content = content.
Proof.
  unfold asciiOnly. intros H.
  apply (mapChars_fixed _ (fun c => (32 <=? nat_of_ascii c)%nat && (nat_of_ascii c <=? 126)%nat));
    [|done].
  intros c Hc. cbv zeta. by rewrite Hc.
Qed.

Lemma sanitizedBatch_lookup (batch : list UpsertRow) (i : nat) (row : UpsertRow) :
  sanitizedBatch batch !! i = Some row ->
  exists original,
    batch !! i = Some original
    /\ row_document_id row = row_document_id original
    /\ row_user_id row = row_user_id original
    /\ row_chunk_index row = row_chunk_index original
    /\ row_metadata row = row_metadata original
    /\ row_embedding row = row_embedding original
    /\ row_content row = asciiOnly (row_content original).
Proof.
  unfold sanitizedBatch. rewrite map_is_fmap, list_lookup_fmap.
  destruct (batch !! i) as [original|]; [|done]. cbn. intros [= <-].
  exists original. cbn. done.
Qed.

Section StoreRequestFacts.

Context {MetadataObj : Type}.
Variable sanitizeString : string -> string.
Variable stringifyMetadata : option MetadataObj -> string.
Variable upsert : nat -> bool -> list UpsertRow -> Outcome UpsertReply.

(** X1. For a signed-in user and a non-empty list of chunks,
    [storeDocumentChunks] cuts the rows, one per chunk and each carrying
    the position of its chunk as [chunk_index], into consecutive batches
    of at most 100, none of them empty, and upserts each batch once, in
    order. A batch is upserted a second time, right after the first and
    before the next batch, exactly when the database answered the first
    time with an error whose message holds [Unicode]; the second upsert
    carries the same rows with every character of their content outside
    the printable ASCII range replaced by a space. The last request
    deletes the rows of the document whose index is not below the number
    of chunks. The call resolves to the ids the database returned, batch
    by batch, whatever the database answers. Without chunks nothing is
    sent, and without a signed-in user the call is rejected. *)
Theorem storeDocumentChunks_sends_consecutive_batches
    (uid documentId : string) (chunk : ChunkInput MetadataObj)
    (chunks : list (ChunkInput MetadataObj)) (embeddings : option (list EmbeddingCell)) :
  let data := upsertData sanitizeString stringifyMetadata documentId uid (chunk :: chunks)
                embeddings in
  let store := storeDocumentChunksRequests sanitizeString stringifyMetadata upsert in
  let unicodeError (k : nat) (batch : list UpsertRow) : Prop :=
    exists message, upsert k false batch = Resolved (UpsertError (Some message))
                    /\ JsString.includes message "Unicode" = true in
  let printable (c : ascii) : bool :=
    (32 <=? nat_of_ascii c)%nat && (nat_of_ascii c <=? 126)%nat in
  (exists batches requests ids,
     store (Some uid) documentId (Some (chunk :: chunks)) embeddings
       = (Resolved (concat ids),
          concat requests ++ [DeleteChunksFrom documentId (S (length chunks))])
     /\ concat batches = data
     /\ length data = S (length chunks)
     /\ 100 * length batches < S (length chunks) + 100
     /\ length requests = length batches
     /\ length ids = length batches
     /\ (forall i row, data !! i = Some row ->
           row_chunk_index row = i /\ row_document_id row = documentId
           /\ row_user_id row = uid)
     /\ (forall k batch, batches !! k = Some batch ->
           1 <= length batch <= 100
           /\ batch = take 100 (drop (100 * k) data)
           /\ (unicodeError k batch ->
                 requests !! k = Some [Upsert batch; Upsert (sanitizedBatch batch)]
                 /\ forall returned,
                      upsert k true (sanitizedBatch batch)
                        = Resolved (UpsertData (Some returned)) ->
                      ids !! k = Some returned)
           /\ (~ unicodeError k batch -> requests !! k = Some [Upsert batch])
           /\ (forall returned,
                 upsert k false batch = Resolved (UpsertData (Some returned)) ->
                 ids !! k = Some returned)
           /\ (forall e, upsert k false batch = Rejected e -> ids !! k = Some [])
           /\ ((forall returned,
                  upsert k false batch <> Resolved (UpsertData (Some returned))) ->
               (unicodeError k batch ->
                  forall returned,
                    upsert k true (sanitizedBatch batch)
                    <> Resolved (UpsertData (Some returned))) ->
               ids !! k = Some [])))
  /\ (forall batch : list UpsertRow,
        length (sanitizedBatch batch) = length batch
        /\ forall i row, sanitizedBatch batch !! i = Some row ->
             exists original,
               batch !! i = Some original
               /\ row_document_id row = row_document_id original
               /\ row_user_id row = row_user_id original
               /\ row_chunk_index row = row_chunk_index original
               /\ row_metadata row = row_metadata original
               /\ row_embedding row = row_embedding original
               /\ row_content row = asciiOnly (row_content original)
               /\ row_content row
                  = JsString.mapChars (fun c => if printable c then c else " "%char)
                      (row_content original)
               /\ allChars printable (row_content row) = true
               /\ (allChars printable (row_content original) = true ->
                     row_content row = row_content original))
  /\ store (Some uid) documentId (Some []) embeddings = (Resolved [], [])
  /\ store (Some uid) documentId None embeddings = (Resolved [], [])
  /\ store None documentId (Some (chunk :: chunks)) embeddings
     = (Rejected (newError "User not logged in"), []).
Proof.
  intros data store unicodeError printable.
  split; [|split; [|done]].
  - subst store. unfold storeDocumentChunksRequests, storeDocumentChunks. cbv zeta.
    fold data.
    assert (Hlen : length data = S (length chunks)).
    { unfold data, upsertData. by rewrite length_imap. }
    assert (Hconcat : concat (upsertBatchesFrom (length data) 0 data) = data).
    { rewrite upsertBatchesFrom_concat; [done | lia]. }
    set (batches := upsertBatchesFrom (length data) 0 data) in *.
    assert (Hsome : exists b bs, batches = b :: bs).
    { subst batches. rewrite Hlen. cbn [upsertBatchesFrom]. rewrite Hlen. cbn. eauto. }
    destruct Hsome as (b & bs & Hbatches). rewrite Hbatches. rewrite <- Hbatches.
    set (results := imap (upsertBatch upsert) batches).
    exists batches, (List.map snd results), (List.map fst results).
    rewrite Hconcat, Hlen.
    split; [done|]. split; [done|]. split; [done|].
    split; [pose proof (upsertBatchesFrom_length data (length data) 0); subst batches; lia|].
    split; [by rewrite length_map; unfold results; rewrite length_imap|].
    split; [by rewrite length_map; unfold results; rewrite length_imap|].
    split.
    { intros i row Hrow. apply upsertData_keys in Hrow as (? & ? & ? & _). done. }
    intros k batch Hk.
    assert (Hresult : results !! k = Some (upsertBatch upsert k batch)).
    { unfold results. by rewrite list_lookup_imap, Hk. }
    assert (Hrequests : List.map snd results !! k = Some (snd (upsertBatch upsert k batch))).
    { by rewrite map_is_fmap, list_lookup_fmap, Hresult. }
    assert (Hids : List.map fst results !! k = Some (fst (upsertBatch upsert k batch))).
    { by rewrite map_is_fmap, list_lookup_fmap, Hresult. }
    rewrite Hrequests, Hids. clear Hresult Hrequests Hids.
    pose proof Hk as Hk'. subst batches.
    apply upsertBatchesFrom_lookup in Hk' as [Hbatch Hlt]. rewrite Nat.add_0_l in *.
    split; [rewrite Hbatch, length_take, length_drop; lia|]. split; [done|].
    unfold upsertBatch.
    destruct (upsert k false batch) as [[returned|message]|e] eqn:Efirst.
    + split; [intros (m & Hm & _); congruence|]. split; [done|].
      split; [intros ? H; by injection H as ->|]. split; [by intros e H|].
      intros Hfirst _. destruct returned as [returned|]; [|done].
      by destruct (Hfirst returned).
    + destruct (messageIncludes message "Unicode") eqn:Eunicode.
      * assert (Herror : unicodeError k batch).
        { unfold messageIncludes in Eunicode. destruct message as [m|]; [|done]. by exists m. }
        split.
        -- intros _. split.
           ++ by destruct (upsert k true (sanitizedBatch batch)) as [[[?|]|?]|?].
           ++ by intros returned ->.
        -- split; [by intros Hno|]. split; [by intros ? H|]. split; [by intros e H|].
           intros _ Hsecond. specialize (Hsecond Herror).
           destruct (upsert k true (sanitizedBatch batch)) as [[[returned|]|?]|?]; try done.
           by destruct (Hsecond returned).
      * split.
        -- intros (m & Hm & Hinc). rewrite Efirst in Hm. injection Hm as ->.
           cbn in Eunicode. congruence.
        -- split; [done|]. split; [by intros ? H|]. split; [by intros e H | done].
    + split; [intros (m & Hm & _); congruence|]. split; [done|].
      split; [by intros ? H | done].
  - intros batch. split; [apply length_map|]. intros i row Hrow.
    apply sanitizedBatch_lookup in Hrow
      as (original & Ho & Hd & Hu & Hi & Hm & He & Hc).
    exists original. repeat (split; [done|]). rewrite Hc.
    split; [apply asciiOnly_chars | apply asciiOnly_fixed].
Qed.

End StoreRequestFacts.

(** ** Keyword search *)

Lemma allChars_app (p : ascii -> bool) (a b : string) :
  allChars p (a +:+ b) = allChars p a && allChars p b.
Proof.
  induction a as [|c a IH]; [done|].
  change (String c a +:+ b) with (String c (a +:+ b)). simpl. by rewrite IH, andb_assoc.
Qed.

Lemma splitRuns_words (p : ascii -> bool) : forall s word inSeparator,
  allChars (fun c => isWhiteSpace c || p c) s = true ->
  allChars p word = true ->
  Forall (fun w => allChars p w = true) (splitRuns s word inSeparator).
Proof.
  induction s as [|c s IH]; intros word b Hs Hword; simpl.
  - by constructor.
  - simpl in Hs. apply andb_true_iff in Hs as [Hc Hs].
    destruct (isWhiteSpace c) eqn:Hw.
    + destruct b; [by apply IH|]. constructor; [done | by apply IH].
    + apply IH; [done|]. rewrite allChars_app, Hword. simpl in *. by rewrite Hc.
Qed.

Lemma lowered_char_class (c : ascii) :
  let c' := JsString.lowerChar c in
  let c'' := if isWordChar c' || isWhiteSpace c' then c' else " "%char in
  isWhiteSpace c'' || isLowerWordChar c'' = true.
Proof. destruct c as [[] [] [] [] [] [] [] []]; reflexivity. Qed.

Lemma mapChars_mapChars (f g : ascii -> ascii) (s : string) :
  JsString.mapChars f (JsString.mapChars g s) = JsString.mapChars (fun c => f (g c)) s.
Proof. induction s as [|c s IH]; simpl; [done | by rewrite IH]. Qed.

(** X7. The keywords of both keyword searches are words of at least three
    characters, made of lower-case ASCII letters, digits and underscores
    only, and none of them is a stop word; a query without such a word
    has no keyword. *)
Theorem searchKeywords_are_long_lowercase_words (query word : string) :
  (In word (searchKeywords query) ->
     3 <= String.length word
     /\ allChars isLowerWordChar word = true
     /\ ~ In word stopWords)
  /\ (Forall (fun w => String.length w <= 2 \/ In w stopWords)
             (splitWhiteSpace
                (JsString.mapChars
                   (fun c => if isWordChar c || isWhiteSpace c then c else " "%char)
                   (JsString.toLowerCase query))) ->
      searchKeywords query = []).
Proof.
  unfold searchKeywords. split.
  - intros Hin. apply filter_In in Hin as [Hin Htest].
    apply andb_true_iff in Htest as [Hlen Hstop]. apply Nat.ltb_lt in Hlen.
    split; [lia|]. split.
    + unfold JsString.toLowerCase in Hin. rewrite mapChars_mapChars in Hin.
      unfold splitWhiteSpace in Hin.
      match type of Hin with
      | In _ ?l => assert (Hall : Forall (fun w => allChars isLowerWordChar w = true) l)
      end.
      { apply splitRuns_words; [|done].
        apply mapChars_allChars. intros c. apply lowered_char_class. }
      rewrite List.Forall_forall in Hall. by apply Hall.
    + intros Hw. apply negb_true_iff in Hstop.
      assert (existsb (String.eqb word) stopWords = true); [|congruence].
      apply existsb_exists. exists word. split; [done | apply String.eqb_refl].
  - intros Hall. induction Hall as [|w ws Hw _ IH]; [done|].
    cbn [List.filter]. rewrite IH.
    destruct Hw as [Hshort|Hstop].
    + by rewrite (proj2 (Nat.ltb_ge _ _) Hshort).
    + assert (Hex : existsb (String.eqb w) stopWords = true).
      { apply existsb_exists. exists w. split; [done | apply String.eqb_refl]. }
      by rewrite Hex, andb_false_r.
Qed.

Example searchKeywords_sample :
  searchKeywords "Apa itu Persamaan GELOMBANG, dan  rumus-nya (v2)?"
    = ["apa"; "itu"; "persamaan"; "gelombang"; "rumus"; "nya"]
  /\ searchKeywords "  x + y = 2 " = []
  /\ splitWhiteSpace " a  b " = [""; "a"; "b"; ""].
Proof. repeat split; vm_compute; reflexivity. Qed.

Section TextSearchFacts.

Variable selectChunks : string -> list string -> string -> nat -> Outcome (DbReply ChunkRow).
Variable selectTitles : list string -> Outcome (option (list (string * string))).

Lemma attachTitles_lookup documents data i item :
  data !! i = Some item ->
  exists hit, attachTitles documents data !! i = Some hit
              /\ hit_item hit = item
              /\ hit_similarity hit = (0.5 - floatOfNat i * fiveHundredths)%float.
Proof.
  intros Hi. unfold attachTitles. cbv zeta. rewrite list_lookup_imap, Hi.
  eexists. split; [reflexivity|]. done.
Qed.

(** X8. [performTextSearch] sends no request for a signed-out user or a
    query without keyword. Otherwise it sends one chunk query, filtered
    on the first three keywords at most, then at most one query for the
    titles. What it returns is empty unless both requests resolve and
    the first finds rows; it then holds one hit per row, in the order of
    the rows, with the similarity [0.5 - 0.05 index]. *)
Theorem performTextSearch_filters_on_first_three_keywords
    (userId : option string) (queryText : string) (documentIds : list string)
    (limit : nat) :
  let result := performTextSearch selectChunks selectTitles userId queryText documentIds
                  limit in
  let filter := JsString.join " or "
                  (List.map ilikeFilter (take 3 (searchKeywords queryText))) in
  ((userId = None \/ searchKeywords queryText = []) -> result = ([], []))
  /\ (forall uid, userId = Some uid -> searchKeywords queryText <> [] ->
        snd result = [SelectChunks uid documentIds filter limit]
        \/ exists ids, snd result = [SelectChunks uid documentIds filter limit;
                                     SelectTitles ids])
  /\ (fst result <> [] ->
        exists uid data documents,
          userId = Some uid
          /\ selectChunks uid documentIds filter limit = Resolved (DbData (Some data))
          /\ selectTitles (uniqueInOrder [] (List.map chunk_row_document_id data))
             = Resolved documents
          /\ length (fst result) = length data
          /\ forall i item, data !! i = Some item ->
               exists hit, fst result !! i = Some hit
                           /\ hit_item hit = item
                           /\ hit_similarity hit
                              = (0.5 - floatOfNat i * fiveHundredths)%float).
Proof.
  intros result filter. subst result. unfold performTextSearch.
  split; [|split].
  - intros [->|Hk]; [done|]. destruct userId; [|done]. by rewrite Hk.
  - intros uid -> Hk. destruct (searchKeywords queryText) as [|k ks] eqn:Ek; [done|].
    fold filter.
    destruct (selectChunks uid documentIds filter limit) as [[[[|row rows]|]|]|];
      try (by left).
    right. eexists. by destruct (selectTitles _).
  - destruct userId as [uid|]; [|done].
    destruct (searchKeywords queryText) as [|k ks] eqn:Ek; [done|]. fold filter.
    destruct (selectChunks uid documentIds filter limit) as [[[[|row rows]|]|]|] eqn:Eq;
      try done.
    destruct (selectTitles _) as [documents|] eqn:Et; [|done].
    intros _. exists uid, (row :: rows), documents.
    split; [done|]. split; [done|]. split; [done|]. cbn [fst].
    split; [unfold attachTitles; by rewrite length_imap|].
    intros i item Hi. by apply attachTitles_lookup.
Qed.

End TextSearchFacts.

Lemma insertByScore_Permutation (item : Doc * nat) (sorted : list (Doc * nat)) :
  insertByScore item sorted ≡ₚ item :: sorted.
Proof.
  induction sorted as [|other rest IH]; simpl; [done|].
  destruct (snd item <? snd other)%nat; [|done].
  rewrite IH. apply Permutation_swap.
Qed.

Lemma sortByScore_Permutation (items : list (Doc * nat)) : sortByScore items ≡ₚ items.
Proof.
  induction items as [|item items IH]; simpl; [done|].
  by rewrite insertByScore_Permutation, IH.
Qed.

Lemma insertByScore_sorted (item : Doc * nat) (sorted : list (Doc * nat)) :
  StronglySorted (fun a b => snd b <= snd a) sorted ->
  StronglySorted (fun a b => snd b <= snd a) (insertByScore item sorted).
Proof.
  induction sorted as [|other rest IH]; intros Hs; simpl.
  - by repeat constructor.
  - apply StronglySorted_inv in Hs as [Hrest Hall].
    destruct (snd item <? snd other)%nat eqn:E.
    + apply Nat.ltb_lt in E. constructor; [by apply IH|].
      rewrite insertByScore_Permutation. constructor; [lia | done].
    + apply Nat.ltb_ge in E. constructor; [by constructor|].
      constructor; [done|]. eapply Forall_impl; [exact Hall|]. simpl. intros. lia.
Qed.

Lemma sortByScore_sorted (items : list (Doc * nat)) :
  StronglySorted (fun a b => snd b <= snd a) (sortByScore items).
Proof.
  induction items as [|item items IH]; simpl; [constructor | by apply insertByScore_sorted].
Qed.

Lemma StronglySorted_lookup_le {A} (R : A -> A -> Prop) (l : list A) :
  StronglySorted R l ->
  forall i j a b, i < j -> l !! i = Some a -> l !! j = Some b -> R a b.
Proof.
  induction 1 as [|x l Hs IH Hall]; intros i j a b Hij Hi Hj; [done|].
  destruct i as [|i], j as [|j]; try lia; simpl in *.
  - injection Hi as <-. rewrite Forall_forall in Hall. apply Hall.
    by eapply list_elem_of_lookup_2.
  - apply (IH i j); [lia | done | done].
Qed.

Lemma matchScore_markFallback keywords item :
  matchScore keywords (markFallback item) = matchScore keywords (fst item).
Proof. reflexivity. Qed.

Section FallbackSearchFacts.

Variable selectChunksIn : list string -> string -> nat -> Outcome (DbReply ChunkRow).
Variable vectorStore : option VectorStore.

(** X9. [fallbackNonVectorSearch] asks nothing when no document is active.
    Rows the database finds come back as documents, one per row, whose
    source is never empty. When the database finds none or fails, the
    in-memory store is asked for up to 100 documents and the answer is
    what the lexical search makes of them: at most 5 documents, each
    containing at least one keyword, by decreasing number of keywords
    contained; a document with a keyword is left out only when the 5
    returned contain at least as many. With no keyword, or when the
    in-memory store fails, the answer is empty. *)
Theorem fallbackNonVectorSearch_ranks_by_matching_keywords
    (activeDocIds : list string) (query : string) (allDocs : list Doc) :
  let result := fallbackNonVectorSearch selectChunksIn vectorStore activeDocIds query in
  let keywords := searchKeywords query in
  let filter := JsString.join " or " (List.map ilikeFilter keywords) in
  let found := lexicalSearch keywords allDocs in
  (activeDocIds = [] -> result = ([], []))
  /\ (forall chunk chunks,
        activeDocIds <> [] ->
        selectChunksIn activeDocIds filter 10 = Resolved (DbData (Some (chunk :: chunks))) ->
        result = (List.map documentOfRow (chunk :: chunks),
                  [SelectChunksIn activeDocIds filter 10])
        /\ Forall (fun doc => exists s, meta source doc = Some s /\ s <> "") (fst result))
  /\ (forall store,
        activeDocIds <> [] ->
        (forall chunk chunks,
           selectChunksIn activeDocIds filter 10
           <> Resolved (DbData (Some (chunk :: chunks)))) ->
        vectorStore = Some store ->
        (similaritySearch store "" 100 = Resolved allDocs ->
           result = (found, [SelectChunksIn activeDocIds filter 10; SimilaritySearch "" 100]))
        /\ (forall e, similaritySearch store "" 100 = Rejected e -> fst result = []))
  /\ length found <= 5
  /\ (forall doc, In doc found ->
        0 < matchScore keywords doc
        /\ exists original, In original allDocs
                            /\ pageContent doc = pageContent original
                            /\ content doc = content original)
  /\ (forall i j a b, i < j -> found !! i = Some a -> found !! j = Some b ->
        matchScore keywords b <= matchScore keywords a)
  /\ (forall original, In original allDocs -> 0 < matchScore keywords original ->
        In (markFallback (original, matchScore keywords original)) found
        \/ (length found = 5
            /\ forall doc, In doc found ->
                 matchScore keywords original <= matchScore keywords doc))
  /\ (keywords = [] -> found = []).
Proof.
  intros result keywords filter found.
  set (scored := List.map (fun doc => (doc, matchScore keywords doc)) allDocs).
  set (kept := List.filter (fun item => (0 <? snd item)%nat) scored).
  assert (Hfound : found = List.map markFallback (take 5 (sortByScore kept))) by done.
  assert (Hkept : forall item, item ∈ sortByScore kept ->
            In (fst item) allDocs /\ snd item = matchScore keywords (fst item)
            /\ 0 < snd item).
  { intros item Hitem. rewrite sortByScore_Permutation in Hitem.
    apply list_elem_of_In, filter_In in Hitem as [Hin Hpos].
    apply Nat.ltb_lt in Hpos. apply in_map_iff in Hin as (doc & <- & Hdoc). done. }
  pose proof (sortByScore_sorted kept) as Hsorted.
  split; [by intros ->|]. split; [|split].
  - intros chunk chunks Hactive Hdb. subst result. unfold fallbackNonVectorSearch.
    destruct activeDocIds as [|a ids]; [done|]. fold keywords. fold filter. rewrite Hdb.
    split; [done|]. cbn [fst]. apply Forall_forall. intros doc Hdoc.
    apply list_elem_of_In, in_map_iff in Hdoc as (row & <- & _).
    unfold meta, documentOfRow. cbn [metadata mbind option_bind source].
    set (m := from_option id emptyMetadata (chunk_row_metadata row)).
    unfold orString. destruct (source m) as [s|]; [|by exists "unknown"].
    unfold JsString.truthy. destruct (String.eqb s "") eqn:E; simpl.
    + by exists "unknown".
    + exists s. split; [done|]. by apply String.eqb_neq.
  - intros store Hactive Hdb ->. subst result. unfold fallbackNonVectorSearch.
    destruct activeDocIds as [|a ids]; [done|]. fold keywords. fold filter.
    split.
    + intros Hmem. rewrite Hmem.
      destruct (selectChunksIn (a :: ids) filter 10) as [[[[|chunk chunks]|]|]|] eqn:E;
        try done.
      by destruct (Hdb chunk chunks).
    + intros e Hmem. rewrite Hmem.
      destruct (selectChunksIn (a :: ids) filter 10) as [[[[|chunk chunks]|]|]|] eqn:E;
        try done.
      by destruct (Hdb chunk chunks).
  - split; [rewrite Hfound, length_map, length_take; lia|].
    split; [|split; [|split]].
    + intros doc Hdoc. rewrite Hfound in Hdoc.
      apply in_map_iff in Hdoc as (item & <- & Hitem).
      apply list_elem_of_In in Hitem. apply subseteq_take in Hitem.
      destruct (Hkept item Hitem) as (Hin & Hscore & Hpos).
      rewrite matchScore_markFallback, <- Hscore. split; [done|].
      exists (fst item). done.
    + intros i j a b Hij Ha Hb. rewrite Hfound in Ha, Hb.
      rewrite map_is_fmap, list_lookup_fmap in Ha, Hb.
      destruct (take 5 (sortByScore kept) !! i) as [x|] eqn:Hx; [|done].
      destruct (take 5 (sortByScore kept) !! j) as [y|] eqn:Hy; [|done].
      injection Ha as <-. injection Hb as <-.
      rewrite !matchScore_markFallback.
      apply lookup_take_Some in Hx as [Hx _]. apply lookup_take_Some in Hy as [Hy _].
      destruct (Hkept x) as (_ & <- & _); [by eapply list_elem_of_lookup_2|].
      destruct (Hkept y) as (_ & <- & _); [by eapply list_elem_of_lookup_2|].
      apply (StronglySorted_lookup_le _ _ Hsorted i j x y Hij Hx Hy).
    + intros original Hin Hpos.
      assert (Hmem : (original, matchScore keywords original) ∈ sortByScore kept).
      { rewrite sortByScore_Permutation. apply list_elem_of_In, filter_In.
        split; [|by apply Nat.ltb_lt]. apply in_map_iff. by exists original. }
      rewrite <- (take_drop 5 (sortByScore kept)) in Hmem, Hsorted.
      apply elem_of_app in Hmem as [Hhead|Htail].
      * left. rewrite Hfound. apply in_map. by apply list_elem_of_In.
      * right. split.
        -- rewrite Hfound, length_map, length_take.
           apply list_elem_of_In in Htail. destruct (drop 5 (sortByScore kept)) eqn:Ed; [done|].
           assert (5 < length (sortByScore kept)); [|lia].
           destruct (decide (5 < length (sortByScore kept))); [done|].
           rewrite drop_ge in Ed by lia. done.
        -- intros doc Hdoc. rewrite Hfound in Hdoc.
           apply in_map_iff in Hdoc as (item & <- & Hitem).
           apply list_elem_of_In in Hitem.
           pose proof (StronglySorted_app_1_elem_of _ _ _ _ _ Hsorted Hitem Htail) as Hle.
           simpl in Hle. rewrite matchScore_markFallback.
           destruct (Hkept item) as (_ & <- & _); [by apply subseteq_take in Hitem|]. done.
    + intros Hk. rewrite Hfound. unfold kept, scored. rewrite Hk.
      assert (Hnone : forall docs : list Doc,
                List.filter (fun item : Doc * nat => (0 <? snd item)%nat)
                            (List.map (fun doc => (doc, matchScore [] doc)) docs) = []).
      { induction docs as [|d ds IHd]; [done|]. simpl. exact IHd. }
      by rewrite Hnone.
Qed.

End FallbackSearchFacts.

(** ** Performance metrics *)

Lemma citeDocument_other (citations : gmap string CountValue) (doc other : string) :
  other <> doc -> citeDocument citations doc !! other = citations !! other.
Proof.
  intros Hne. unfold citeDocument.
  destruct (citations !! doc) as [[[|n]|]|]; try (by rewrite lookup_insert_ne).
  destruct (String.eqb doc "__proto__"); [done|].
  by destruct (existsb _ _); rewrite lookup_insert_ne.
Qed.

Lemma citeDocument_plain (citations : gmap string CountValue) (doc : string) (n : nat) :
  ~ In doc JsObject.prototypeNames ->
  (citations !! doc = if (n =? 0)%nat then None else Some (CountOf n)) ->
  citeDocument citations doc !! doc = Some (CountOf (S n)).
Proof.
  intros Hplain Hn. unfold citeDocument.
  destruct n as [|n]; simpl in Hn; rewrite Hn; [|by rewrite lookup_insert_eq].
  assert (Hp : existsb (String.eqb doc) JsObject.prototypeNames = false).
  { apply not_true_is_false. intros H. apply existsb_exists in H as (x & Hx & Heq).
    apply String.eqb_eq in Heq. by subst x. }
  assert (Hproto : String.eqb doc "__proto__" = false).
  { apply String.eqb_neq. intros ->. apply Hplain. simpl. tauto. }
  by rewrite Hproto, Hp, lookup_insert_eq.
Qed.

Lemma citeDocuments_plain (doc : string) (cited : list string) :
  ~ In doc JsObject.prototypeNames ->
  forall (citations : gmap string CountValue) (n : nat),
    (citations !! doc = if (n =? 0)%nat then None else Some (CountOf n)) ->
    let n' := n + length (List.filter (String.eqb doc) cited) in
    List.fold_left citeDocument cited citations !! doc
    = if (n' =? 0)%nat then None else Some (CountOf n').
Proof.
  intros Hplain. induction cited as [|c cited IH]; intros citations n Hn; simpl.
  - by rewrite Nat.add_0_r.
  - destruct (String.eqb doc c) eqn:E.
    + apply String.eqb_eq in E. subst c. simpl.
      replace (n + S (length (List.filter (String.eqb doc) cited)))
        with (S n + length (List.filter (String.eqb doc) cited)) by lia.
      apply IH. simpl. by apply citeDocument_plain.
    + apply String.eqb_neq in E. apply IH. by rewrite citeDocument_other.
Qed.

Lemma metricsAfter_spec (doc : string) (calls : list TrackedQuery) :
  ~ In doc JsObject.prototypeNames ->
  forall (m : PerformanceMetrics) (n : nat),
    (documentCitations m !! doc = if (n =? 0)%nat then None else Some (CountOf n)) ->
    let m' := metricsAfter calls m in
    queries m' = queries m + length calls
    /\ successfulQueries m' = successfulQueries m + length (List.filter tracked_success calls)
    /\ successfulQueries m' + failedQueries m'
       = successfulQueries m + failedQueries m + length calls
    /\ math (queryTypes m') + general (queryTypes m') + factual (queryTypes m')
       = math (queryTypes m) + general (queryTypes m) + factual (queryTypes m) + length calls
    /\ totalResponseTime m'
       = (totalResponseTime m
          + List.fold_right Z.add 0 (List.map tracked_responseTime calls))%Z
    /\ (calls <> [] ->
          averageResponseTime m'
          = (floatOfZ (totalResponseTime m') / floatOfNat (queries m'))%float)
    /\ documentCitations m' !! doc
       = if (n + timesCited doc calls =? 0)%nat then None
         else Some (CountOf (n + timesCited doc calls)).
Proof.
  intros Hplain. unfold metricsAfter, timesCited.
  induction calls as [|call calls IH] using rev_ind; intros m n Hn.
  - simpl. rewrite !Nat.add_0_r, Z.add_0_r. by repeat split.
  - rewrite fold_left_app. cbn [List.fold_left]. cbv zeta.
    destruct (IH m n Hn) as (Hq & Hs & Hsf & Ht & Htot & _ & Hc). clear IH.
    set (m1 := List.fold_left _ calls m) in *.
    rewrite !List.map_app, concat_app, !List.filter_app, !length_app, fold_right_app.
    cbn [List.map concat List.filter List.fold_right length app].
    rewrite app_nil_r.
    unfold trackQueryPerformance.
    cbn [queries successfulQueries failedQueries totalResponseTime averageResponseTime
         documentCitations queryTypes].
    split; [lia|].
    split; [destruct (tracked_success call); simpl; lia|].
    split; [destruct (tracked_success call); simpl; lia|].
    split.
    { destruct (testInsensitive mathTypePattern _); [simpl; lia|].
      destruct (testInsensitive factualTypePattern _); simpl; lia. }
    split.
    { rewrite Htot, Z.add_0_r.
      assert (Hsum : forall (l : list Z) (z : Z),
                List.fold_right Z.add z l = (List.fold_right Z.add 0 l + z)%Z).
      { induction l as [|x l IHl]; intros z; simpl; [lia | rewrite IHl; lia]. }
      rewrite (Hsum _ (tracked_responseTime call)). lia. }
    split; [done|].
    pose proof (citeDocuments_plain doc (tracked_citedDocuments call) Hplain
                  (documentCitations m1) _ Hc) as Hcite.
    cbv zeta in Hcite. rewrite Hcite. by rewrite Nat.add_assoc.
Qed.

(** X10. From a reset, after any sequence of calls of
    [trackQueryPerformance]: [queries] is the number of calls, which is
    also the sum of the successful and the failed queries and the sum of
    the three query types; [totalResponseTime] is the sum of the response
    times and [averageResponseTime] its quotient by [queries]; and the
    count of a cited name that [Object.prototype] does not define is the
    number of times it was cited. *)
Theorem trackQueryPerformance_keeps_counters_consistent
    (calls : list TrackedQuery) (before : PerformanceMetrics) (doc : string) :
  let m := metricsAfter calls (resetPerformanceMetrics before) in
  queries m = length calls
  /\ successfulQueries m = length (List.filter tracked_success calls)
  /\ successfulQueries m + failedQueries m = queries m
  /\ math (queryTypes m) + general (queryTypes m) + factual (queryTypes m) = queries m
  /\ totalResponseTime m = List.fold_right Z.add 0%Z (List.map tracked_responseTime calls)
  /\ (calls <> [] ->
        averageResponseTime m
        = (floatOfZ (totalResponseTime m) / floatOfNat (queries m))%float)
  /\ (~ In doc JsObject.prototypeNames ->
        documentCitations m !! doc
        = if (timesCited doc calls =? 0)%nat then None
          else Some (CountOf (timesCited doc calls))).
Proof.
  intros m. subst m. unfold resetPerformanceMetrics.
  destruct (in_dec String.string_dec doc JsObject.prototypeNames) as [Hin|Hplain].
  - destruct (metricsAfter_spec "x" calls) with (m := ragPerformanceMetrics) (n := 0)
      as (Hq & Hs & Hsf & Ht & Htot & Havg & _).
    { simpl. intros H. repeat destruct H as [H|H]; try discriminate H. done. }
    { done. }
    simpl in *. repeat split; try done; try lia.
  - destruct (metricsAfter_spec doc calls Hplain ragPerformanceMetrics 0)
      as (Hq & Hs & Hsf & Ht & Htot & Havg & Hc); [done|].
    simpl in *. repeat split; try done; try lia.
Qed.

(** A name that objects inherit is not counted: its first citation
    leaves [NaN], and [__proto__] is never recorded. *)
Example trackQueryPerformance_inherited_names :
  let m := trackQueryPerformance ragPerformanceMetrics "apa itu [constructor]?" 120 true
             ["constructor"; "__proto__"; "A.pdf"; "A.pdf"] in
  documentCitations m !! "constructor" = Some CountNaN
  /\ documentCitations m !! "__proto__" = None
  /\ documentCitations m !! "A.pdf" = Some (CountOf 2)
  /\ queryTypes m = {| math := 0; general := 0; factual := 1 |}.
Proof. repeat split; vm_compute; reflexivity. Qed.

(** ** Query variations *)

Lemma getDocumentNames_length documentIds memoryVectorStore :
  length (getDocumentNames documentIds memoryVectorStore) = length documentIds.
Proof. unfold getDocumentNames. apply length_map. Qed.

(** X11. The variations always begin with the query itself, the quoted query
    and the query followed by [formula], and nothing else is generated
    for a query that is not mathematical while no document is active. A
    mathematical query adds 13 variations, 5 more when it mentions waves
    and 5 more when it mentions Poisson. Active documents add one
    variation that names them all, in last place, after one for each
    name that contains [strauss] or [differential]; with an empty
    [memoryVectorStore] the names are the document ids. Hence the first
    search of the in-memory tier is always the one for the query
    itself. *)
Theorem generateQueryVariations_begins_with_the_query
    (documentIds : list string) (memoryVectorStore : list MemoryEntry)
    (query : string) (isMath : bool) (store : VectorStore) (log : list Event) :
  let variations := generateQueryVariations documentIds memoryVectorStore query isMath in
  let docNames := getDocumentNames documentIds memoryVectorStore in
  let lowered := JsString.toLowerCase query in
  let wave := JsString.includes lowered "gelombang" || JsString.includes lowered "wave" in
  let poisson := JsString.includes lowered "poisson" in
  take 3 variations = [query; doubleQuote +:+ query +:+ doubleQuote; query +:+ " formula"]
  /\ (isMath = false -> documentIds = [] ->
        variations = [query; doubleQuote +:+ query +:+ doubleQuote; query +:+ " formula"])
  /\ length variations
     = 3 + (if isMath then 13 + (if wave then 5 else 0) + (if poisson then 5 else 0) else 0)
       + (match documentIds with
          | [] => 0
          | _ => S (length (List.filter
                              (fun name =>
                                 JsString.includes (JsString.toLowerCase name) "strauss"
                                 || JsString.includes (JsString.toLowerCase name)
                                                      "differential")
                              docNames))
          end)
  /\ (documentIds <> [] ->
        last variations = Some (query +:+ " dalam " +:+ JsString.join " " docNames))
  /\ length docNames = length documentIds
  /\ getDocumentNames documentIds [] = documentIds
  /\ exists more,
       snd (tryVariations store variations [] log) = log ++ EvMemorySearch query 7 :: more.
Proof.
  intros variations docNames lowered wave poisson.
  assert (Hlen : length docNames = length documentIds) by apply getDocumentNames_length.
  assert (Hshape : exists more,
            variations = [query; doubleQuote +:+ query +:+ doubleQuote; query +:+ " formula"]
                         ++ more).
  { subst variations. unfold generateQueryVariations. cbv zeta. fold docNames.
    destruct isMath; destruct docNames as [|name names].
    - eexists. reflexivity.
    - rewrite <- app_assoc. eexists. reflexivity.
    - by exists [].
    - eexists. reflexivity. }
  split; [destruct Hshape as [more ->]; done|].
  split.
  { intros -> ->. done. }
  split.
  { subst variations. unfold generateQueryVariations. cbv zeta.
    fold docNames lowered. fold wave. fold poisson.
    destruct documentIds as [|id ids], docNames as [|name names] eqn:En;
      try (simpl in Hlen; lia).
    - destruct isMath; [|done]. rewrite !length_app. by destruct wave, poisson.
    - rewrite !length_app, length_map. cbn [length].
      destruct isMath; [|simpl; lia].
      rewrite !length_app. destruct wave, poisson; simpl; lia. }
  split.
  { intros Hne. subst variations. unfold generateQueryVariations. cbv zeta. fold docNames.
    destruct docNames as [|name names] eqn:En.
    - destruct documentIds; [done | simpl in Hlen; lia].
    - by rewrite !app_assoc, last_snoc. }
  split; [done|].
  split.
  { unfold getDocumentNames. cbn [List.find]. apply List.map_id. }
  destruct Hshape as [more Hmore]. rewrite Hmore.
  destruct (tryVariations_spec store ([query; doubleQuote +:+ query +:+ doubleQuote;
                                        query +:+ " formula"] ++ more) [] log)
    as (n & Hn & Hrun & Hstop & _); [simpl; lia|].
  rewrite Hrun. cbn [snd]. destruct n as [|n].
  - exfalso. destruct Hstop as [Hall|Hfive]; [simpl in Hall; lia | simpl in Hfive; lia].
  - eexists. cbn [app take memoryEvents List.map]. reflexivity.
Qed.

Example generateQueryVariations_sample :
  generateQueryVariations [] [] "apa itu entropi" (isMathQuery "apa itu entropi")
    = ["apa itu entropi"; doubleQuote +:+ "apa itu entropi" +:+ doubleQuote;
       "apa itu entropi formula"]
  /\ isMathQuery "Jelaskan PERSAMAAN Poisson" = true
  /\ length (generateQueryVariations ["doc-1"] [] "Jelaskan PERSAMAAN Poisson" true) = 22
  /\ nth 6 (generateQueryVariations [] [] "persamaan gelombang" true) ""
     = "persamaan  gelombang"
  /\ trim ("persamaan " +:+ removeFirst "persamaan" "persamaan") = "persamaan".
Proof. repeat split; vm_compute; reflexivity. Qed.

(** ** Similarity search over the module's own array *)

Lemma float_positive_not_le_zero (t : float) :
  (0 <? t)%float = true -> (t <=? 0)%float = false.
Proof.
  rewrite ltb_spec, leb_spec. change (Prim2SF 0) with (S754_zero false).
  unfold SFltb, SFleb, SFcompare.
  by destruct (Prim2SF t) as [[]|[]| |[] m e].
Qed.

Lemma cosineSimilarity_zeroEmbedding_r (q : VectorArg) :
  cosineSimilarity q (ArrayOf zeroEmbedding) = 0%float.
Proof.
  destruct q as [v|]; [|done].
  destruct (decide (length v = length zeroEmbedding)) as [Hlen|Hlen].
  - by rewrite (cosineSimilarity_arrays _ _ Hlen), magnitude_zeroEmbedding, orb_true_r.
  - unfold cosineSimilarity. by rewrite (proj2 (Nat.eqb_neq _ _) Hlen).
Qed.

Lemma insertBySimilarity_Permutation (item : ScoredEntry) (sorted : list ScoredEntry) :
  insertBySimilarity item sorted ≡ₚ item :: sorted.
Proof.
  induction sorted as [|other rest IH]; simpl; [done|].
  destruct (0 <? _)%float; [|done]. rewrite IH. apply Permutation_swap.
Qed.

Lemma sortBySimilarity_Permutation (items : list ScoredEntry) :
  sortBySimilarity items ≡ₚ items.
Proof.
  induction items as [|item items IH]; simpl; [done|].
  by rewrite insertBySimilarity_Permutation, IH.
Qed.

Section MemoryDirectFacts.

Variable embeddings : option (string -> Outcome VectorArg).

(** X12. [getRelevantDocsFromMemoryDirect] returns at most [limit] results,
    each an entry of the array scored against the embedding of the
    query, with a similarity of at least [threshold]. With a positive
    threshold it hence never returns an entry whose vector is the zero
    placeholder of a failed embedding, or no array at all. It returns
    nothing when the array is empty, when there is no embedding provider
    or the provider fails, and also when the best result has no
    [content]. *)
Theorem getRelevantDocsFromMemoryDirect_respects_limit_and_threshold
    (memoryVectorStore : list MemoryEntry) (query : string) (limit : nat)
    (threshold : float) :
  let found := getRelevantDocsFromMemoryDirect embeddings memoryVectorStore query limit
                 threshold in
  length found <= limit
  /\ (forall r, In r found ->
        (threshold <=? scored_similarity r)%float = true
        /\ In (scored_entry r) memoryVectorStore
        /\ exists embedQuery queryEmbedding,
             embeddings = Some embedQuery
             /\ embedQuery query = Resolved queryEmbedding
             /\ r = scoreEntry queryEmbedding (scored_entry r))
  /\ (forall r, In r found -> (0 <? threshold)%float = true ->
        entry_vector (scored_entry r) <> ArrayOf zeroEmbedding
        /\ entry_vector (scored_entry r) <> NotArray)
  /\ ((memoryVectorStore = [] \/ embeddings = None
       \/ exists embedQuery e, embeddings = Some embedQuery /\ embedQuery query = Rejected e) ->
      found = [])
  /\ (forall first rest, found = first :: rest ->
        is_Some (entry_content (scored_entry first))).
Proof.
  intros found.
  assert (Hin : forall r, In r found ->
            (threshold <=? scored_similarity r)%float = true
            /\ In (scored_entry r) memoryVectorStore
            /\ exists embedQuery queryEmbedding,
                 embeddings = Some embedQuery
                 /\ embedQuery query = Resolved queryEmbedding
                 /\ r = scoreEntry queryEmbedding (scored_entry r)).
  { subst found. unfold getRelevantDocsFromMemoryDirect. intros r.
    destruct memoryVectorStore as [|entry entries] eqn:Es; [done|]. rewrite <- Es.
    destruct embeddings as [embedQuery|] eqn:Ee; [|done].
    destruct (embedQuery query) as [q|] eqn:Eq; [|done]. cbv zeta.
    set (kept := take limit _).
    assert (Hkept : In r kept ->
              (threshold <=? scored_similarity r)%float = true
              /\ In (scored_entry r) memoryVectorStore
              /\ r = scoreEntry q (scored_entry r)).
    { intros Hr. apply list_elem_of_In in Hr. apply subseteq_take in Hr.
      rewrite sortBySimilarity_Permutation in Hr.
      apply list_elem_of_In, filter_In in Hr as [Hr Ht].
      apply in_map_iff in Hr as (entry' & <- & Hentry). done. }
    destruct kept as [|first rest] eqn:Ek; [done|].
    destruct (entry_content (scored_entry first)); [|done].
    intros Hr. destruct (Hkept Hr) as (H1 & H2 & H3).
    split; [done|]. split; [done|]. by exists embedQuery, q. }
  split.
  { subst found. unfold getRelevantDocsFromMemoryDirect.
    destruct memoryVectorStore as [|entry entries] eqn:Es; [simpl; lia|]. rewrite <- Es.
    destruct embeddings as [embedQuery|]; [|simpl; lia].
    destruct (embedQuery query) as [q|]; [|simpl; lia]. cbv zeta.
    set (kept := take limit _).
    assert (Hlen : length kept <= limit) by (unfold kept; rewrite length_take; lia).
    destruct kept as [|first rest]; [simpl; lia|].
    destruct (entry_content (scored_entry first)); [done | simpl; lia]. }
  split; [exact Hin|]. split.
  { intros r Hr Hpos. destruct (Hin r Hr) as (Hle & _ & _ & q & _ & _ & Hscore).
    rewrite Hscore in Hle. unfold scoreEntry in Hle. cbn [scored_similarity scored_entry] in Hle.
    split; intros Hvec; rewrite Hvec in Hle.
    - rewrite cosineSimilarity_zeroEmbedding_r in Hle.
      by rewrite (float_positive_not_le_zero _ Hpos) in Hle.
    - assert (Hzero : cosineSimilarity q NotArray = 0%float) by (by destruct q).
      rewrite Hzero in Hle. by rewrite (float_positive_not_le_zero _ Hpos) in Hle. }
  split.
  { subst found. unfold getRelevantDocsFromMemoryDirect.
    intros [->|[->|(embedQuery & e & -> & He)]]; [done | by destruct memoryVectorStore |].
    rewrite He. by destruct memoryVectorStore. }
  subst found. unfold getRelevantDocsFromMemoryDirect.
  destruct memoryVectorStore as [|entry entries] eqn:Es; [done|]. rewrite <- Es.
  destruct embeddings as [embedQuery|]; [|done].
  destruct (embedQuery query) as [q|]; [|done]. cbv zeta.
  set (kept := take limit _).
  destruct kept as [|first' rest'] eqn:Ek; [done|].
  destruct (entry_content (scored_entry first')) eqn:Ec; [|done].
  intros first rest [= <- <-]. by rewrite Ec.
Qed.

End MemoryDirectFacts.

(** ** Storage quota and cleanup *)

Section CleanupFacts.

Variable deleteDocument : string -> Outcome bool.

Abbreviation wasDeleted := (isDeleted deleteDocument).

Lemma totalSize_snoc (docs : list DocumentRow) (doc : DocumentRow) :
  totalSize (docs ++ [doc]) = (totalSize docs + sizeOf doc)%Z.
Proof.
  unfold totalSize. induction docs as [|d docs IH]; simpl; [lia|]. rewrite IH. lia.
Qed.

Lemma cleanupLoop_spec (targetBytes : Z) (data : list DocumentRow) :
  forall (freed : Z) (deleted : nat),
  exists n,
    n <= length data
    /\ cleanupLoop deleteDocument data targetBytes freed deleted
       = ((freed + totalSize (List.filter wasDeleted (take n data)))%Z,
          deleted + length (List.filter wasDeleted (take n data)),
          List.map document_row_id (take n data))
    /\ (n < length data ->
          (targetBytes <= freed + totalSize (List.filter wasDeleted (take n data)))%Z)
    /\ (forall k, k < n ->
          (freed + totalSize (List.filter wasDeleted (take k data)) < targetBytes)%Z).
Proof.
  induction data as [|doc rest IH]; intros freed deleted.
  - exists 0. simpl. split; [lia|]. split; [do 2 f_equal; [unfold totalSize; simpl; lia | lia]|].
    split; [lia|]. intros k Hk. lia.
  - cbn [cleanupLoop]. destruct (targetBytes <=? freed)%Z eqn:E.
    + apply Z.leb_le in E. exists 0. simpl. unfold totalSize. simpl.
      split; [lia|]. split; [do 2 f_equal; lia|]. split; [lia|]. intros k Hk. lia.
    + apply Z.leb_gt in E.
      assert (Hfirst : forall k, k < 1 ->
                (freed + totalSize (List.filter wasDeleted (take k (doc :: rest)))
                 < targetBytes)%Z).
      { intros k Hk. assert (k = 0) as -> by lia. unfold totalSize. simpl. lia. }
      destruct (deleteDocument (document_row_id doc)) as [b|e] eqn:Ed.
      * assert (Hdel : wasDeleted doc = true) by (unfold isDeleted; by rewrite Ed).
        destruct (IH (freed + sizeOf doc)%Z (S deleted)) as (n & Hn & -> & Hstop & Hearly).
        exists (S n). cbn [take List.filter]. rewrite Hdel.
        cbn [List.map length]. unfold totalSize in *. cbn [List.fold_right].
        split; [lia|]. split; [do 2 f_equal; lia|].
        split; [intros Hlt; specialize (Hstop ltac:(lia)); lia|].
        intros [|k] Hk; [by apply Hfirst; lia|].
        cbn [take List.filter]. rewrite Hdel. cbn [List.fold_right].
        specialize (Hearly k ltac:(lia)). lia.
      * assert (Hdel : wasDeleted doc = false) by (unfold isDeleted; by rewrite Ed).
        destruct (IH freed deleted) as (n & Hn & -> & Hstop & Hearly).
        exists (S n). cbn [take List.filter]. rewrite Hdel. cbn [List.map length].
        split; [lia|]. split; [done|].
        split; [intros Hlt; apply Hstop; lia|].
        intros [|k] Hk; [by apply Hfirst; lia|].
        cbn [take List.filter]. rewrite Hdel. apply Hearly. lia.
Qed.

(** X13. [cleanupOldDocuments] tries to delete the documents in the order of
    the listing, oldest access first, and stops before the first
    document at which the bytes freed so far reach the target: the
    documents it tries form an initial segment of the listing, the
    bytes freed are the sizes of those it could delete, and no shorter
    segment would have reached the target. A deletion that fails is
    skipped, and the call still succeeds. A target of 0 or less deletes
    nothing. Without a signed-in user, or when the listing fails, the
    call is rejected and nothing is deleted. *)
Theorem cleanupOldDocuments_deletes_an_initial_segment
    (uid : string) (data : list DocumentRow) (targetBytes : Z) (error : ErrorObj) :
  let run := cleanupOldDocuments deleteDocument (Some uid) (DbData (Some data)) targetBytes in
  (exists n result,
     n <= length data
     /\ fst run = Resolved result
     /\ success result = true
     /\ snd run = List.map document_row_id (take n data)
     /\ freedBytes result = totalSize (List.filter wasDeleted (take n data))
     /\ deletedDocs result = length (List.filter wasDeleted (take n data))
     /\ (n < length data -> (targetBytes <= freedBytes result)%Z)
     /\ (forall k, k < n ->
           (totalSize (List.filter wasDeleted (take k data)) < targetBytes)%Z))
  /\ ((targetBytes <= 0)%Z -> snd run = [])
  /\ cleanupOldDocuments deleteDocument None (DbData (Some data)) targetBytes
     = (Rejected (newError "User not logged in"), [])
  /\ cleanupOldDocuments deleteDocument (Some uid) (DbError error) targetBytes
     = (Rejected (newError "Failed to retrieve documents for cleanup"), []).
Proof.
  intros run. subst run. unfold cleanupOldDocuments.
  destruct (cleanupLoop_spec targetBytes data 0 0) as (n & Hn & Hrun & Hstop & Hearly).
  rewrite Hrun. cbn [fst snd]. rewrite Z.add_0_l in *.
  split; [|split; [|done]].
  - exists n. eexists. split; [done|]. split; [reflexivity|].
    cbn [success freedBytes deletedDocs]. repeat split; done.
  - intros Htarget. destruct n as [|n]; [done|].
    specialize (Hearly 0 ltac:(lia)). unfold totalSize in Hearly. simpl in Hearly. lia.
Qed.

End CleanupFacts.

(** X14. A failed lookup of the storage in use counts as no storage in use:
    for a signed-out user, or when the query fails, [hasEnoughStorage]
    compares the file alone with the quota. Otherwise it compares the sum
    of the stored sizes, a missing size counting as 0, plus the file. *)
Theorem hasEnoughStorage_counts_a_failed_lookup_as_empty
    (userId : option string) (reply : DbReply DocumentRow) (data : list DocumentRow)
    (fileSize maxStorage : Z) :
  ((userId = None \/ exists error, reply = DbError error) ->
     getUserStorageUsed userId reply = Resolved 0%Z
     /\ hasEnoughStorage userId reply fileSize maxStorage
        = Resolved (fileSize <=? maxStorage)%Z)
  /\ (forall uid, userId = Some uid -> reply = DbData (Some data) ->
        getUserStorageUsed userId reply = Resolved (totalSize data)
        /\ hasEnoughStorage userId reply fileSize maxStorage
           = Resolved (totalSize data + fileSize <=? maxStorage)%Z)
  /\ (forall uid, userId = Some uid -> reply = DbData None ->
        exists e, hasEnoughStorage userId reply fileSize maxStorage = Rejected e).
Proof.
  unfold hasEnoughStorage, getUserStorageUsed. split; [|split].
  - intros [->|[error ->]]; [done|]. by destruct userId.
  - intros uid -> ->.
    assert (Hsum : forall (l : list DocumentRow) (z : Z),
              List.fold_left (fun total doc => (total + sizeOf doc)%Z) l z
              = (z + totalSize l)%Z).
    { unfold totalSize. induction l as [|d l IH]; intros z; simpl; [lia|].
      rewrite IH. lia. }
    by rewrite Hsum, Z.add_0_l.
  - intros uid -> ->. by eexists.
Qed.

(** ** Error messages for the user *)

Lemma string_app_nonempty (a b : string) : a <> "" -> a +:+ b <> "".
Proof. destruct a; [done|]. intros _ H. discriminate H. Qed.

Section ErrorUtilsFacts.

Variable formatParsedInt : string -> string.

Lemma parsePostgresError_fields (code : option CodeValue) (message : option string) :
  let info := parsePostgresError formatParsedInt code message in
  info_message info <> "" /\ info_suggestion info <> ""
  /\ In (info_type info) ["database"; "memory_limit"; "connection"; "permission"].
Proof.
  unfold parsePostgresError. cbv zeta.
  destruct (messageIncludes message "permission denied" || codeIs code "42501");
    [cbn; repeat split; try done; tauto|].
  destruct (messageIncludes message "connection" || codeIs code "ECONNREFUSED");
    [cbn; repeat split; try done; tauto|].
  destruct (message ≫= memoryMatch) as [[required allocated]|].
  - cbn. repeat split; try done. tauto.
  - cbn [info_message info_suggestion info_type]. split; [|split; [done | simpl; tauto]].
    unfold orString, JsString.truthy. destruct message as [m|]; [|done].
    destruct (String.eqb m "") eqn:E; [done|]. simpl. by apply String.eqb_neq.
Qed.

(** X15. [handleError] throws, instead of returning, when the caught object
    carries a number other than 0 as its code, as the exceptions of the
    browser do: it asks such a code whether it starts with [23]. For
    everything else that is caught it gives one of ten types and a
    suggestion that is not empty, and the text [formatErrorMessage] makes
    of the result is not empty: the message followed by the suggestion,
    or a fixed text when the message is empty. An error whose code is a
    string that starts with [23] is a database error whatever its
    message says; a caught string is shown as it is, with the type
    [unknown]. *)
Theorem handleError_gives_a_text_unless_the_code_is_a_number (error : CaughtValue) :
  let numeric :=
    exists isError n message,
      error = CaughtObject isError (Some (CodeNumber n)) message /\ n <> 0%Z in
  (numeric ->
     handleError formatParsedInt error
     = Throws (newError "error.code.startsWith is not a function"))
  /\ (~ numeric ->
        exists handled,
          handleError formatParsedInt error = Gives handled
          /\ formatErrorMessage (displayed handled) <> ""
          /\ handled_suggestion handled <> ""
          /\ In (handled_type handled) errorTypes
          /\ (forall m, handled_message handled = Some m -> m <> "" ->
                formatErrorMessage (displayed handled)
                = m +:+ ". " +:+ handled_suggestion handled)
          /\ ((handled_message handled = None \/ handled_message handled = Some "") ->
                formatErrorMessage (displayed handled)
                = "Terjadi kesalahan. Silakan coba lagi.")
          /\ (forall isError c message,
                error = CaughtObject isError (Some (CodeString c)) message ->
                String.prefix "23" c = true ->
                In (handled_type handled)
                   ["database"; "memory_limit"; "connection"; "permission"]
                /\ handled_isMemoryError handled
                   = Some (bool_decide (is_Some (message ≫= memoryMatch))))
          /\ (forall s, error = CaughtString s ->
                handled_type handled = "unknown" /\ handled_message handled = Some s)).
Proof.
  intros numeric. subst numeric. split.
  { intros (isError & n & message & -> & Hn). unfold handleError, codeStartsWith23.
    by rewrite (proj2 (Z.eqb_neq n 0) Hn). }
  intros Hplain.
  assert (Hshown : forall h : HandledError,
            handled_suggestion h <> "" ->
            formatErrorMessage (displayed h) <> ""
            /\ (forall m, handled_message h = Some m -> m <> "" ->
                  formatErrorMessage (displayed h) = m +:+ ". " +:+ handled_suggestion h)
            /\ ((handled_message h = None \/ handled_message h = Some "") ->
                  formatErrorMessage (displayed h) = "Terjadi kesalahan. Silakan coba lagi.")).
  { intros [message type suggestion memory] Hs. simpl in Hs.
    unfold displayed, formatErrorMessage. cbn [handled_message handled_suggestion].
    assert (Hsug : orString (Some suggestion) None = Some suggestion).
    { unfold orString, JsString.truthy. apply String.eqb_neq in Hs. by rewrite Hs. }
    rewrite Hsug. unfold orString, JsString.truthy.
    destruct message as [m|]; [destruct (String.eqb m "") eqn:E|]; simpl.
    - apply String.eqb_eq in E. subst m. split; [done|]. split; [|done].
      intros m [= <-] Hm. done.
    - apply String.eqb_neq in E. split; [by apply string_app_nonempty|].
      split; [by intros m' [= <-] _|]. intros [H|[= H]]; done.
    - split; [done|]. split; [|done]. intros m H. discriminate H. }
  assert (Hclassified : forall isError code message,
            handled_suggestion (classifyError isError code message) <> ""
            /\ In (handled_type (classifyError isError code message)) errorTypes).
  { intros isError code message. unfold classifyError, errorTypes.
    repeat (match goal with |- context [if ?b then _ else _] => destruct b end);
      simpl; (split; [done | tauto]). }
  assert (Hdatabase : forall code message,
            handled_suggestion (handleDatabaseError formatParsedInt code message) <> ""
            /\ In (handled_type (handleDatabaseError formatParsedInt code message))
                  ["database"; "memory_limit"; "connection"; "permission"]).
  { intros code message. unfold handleDatabaseError. cbn [handled_suggestion handled_type].
    destruct (parsePostgresError_fields code message) as (_ & Hs & Ht). done. }
  assert (Hgives : exists handled,
            handleError formatParsedInt error = Gives handled
            /\ handled_suggestion handled <> ""
            /\ In (handled_type handled) errorTypes
            /\ (forall isError c message,
                  error = CaughtObject isError (Some (CodeString c)) message ->
                  String.prefix "23" c = true ->
                  handled = handleDatabaseError formatParsedInt (Some (CodeString c)) message)
            /\ (forall s, error = CaughtString s ->
                  handled_type handled = "unknown" /\ handled_message handled = Some s)).
  { unfold handleError.
    destruct error as [|s|isError [[c|n]|] message].
    - eexists. split; [reflexivity|]. unfold errorTypes. simpl.
      split; [done|]. split; [tauto|]. split; [done|]. intros s H. discriminate H.
    - eexists. split; [reflexivity|]. unfold errorTypes. simpl.
      split; [done|]. split; [tauto|]. split; [done|]. by intros ? [= ->].
    - cbn [codeStartsWith23]. destruct (JsString.truthy c && String.prefix "23" c) eqn:E.
      + eexists. split; [reflexivity|]. destruct (Hdatabase (Some (CodeString c)) message)
          as [Hs Ht].
        split; [done|]. split; [unfold errorTypes; simpl in *; tauto|].
        split; [by intros ? ? ? [= _ <- <-] _ | done].
      + eexists. split; [reflexivity|].
        destruct (Hclassified isError (Some (CodeString c)) message) as [Hs Ht].
        split; [done|]. split; [done|]. split; [|done].
        intros ? c' ? [= _ <- _] Hprefix.
        assert (JsString.truthy c = true) by (destruct c; [discriminate Hprefix | done]).
        rewrite H, Hprefix in E. discriminate E.
    - cbn [codeStartsWith23]. destruct (n =? 0)%Z eqn:E.
      + eexists. split; [reflexivity|].
        destruct (Hclassified isError (Some (CodeNumber n)) message) as [Hs Ht].
        split; [done|]. split; [done|]. split; done.
      + exfalso. apply Hplain. exists isError, n, message. split; [done|].
        by apply Z.eqb_neq.
    - eexists. split; [reflexivity|].
      destruct (Hclassified isError None message) as [Hs Ht].
      split; [done|]. split; [done|]. split; done. }
  destruct Hgives as (handled & Hrun & Hsug & Htype & Hdb & Hstring).
  destruct (Hshown handled Hsug) as (H1 & H2 & H3).
  exists handled. split; [exact Hrun|]. split; [exact H1|]. split; [exact Hsug|].
  split; [exact Htype|]. split; [exact H2|]. split; [exact H3|]. split; [|exact Hstring].
  intros isError c message Herror Hprefix. rewrite (Hdb _ _ _ Herror Hprefix).
  split; [apply Hdatabase|]. unfold handleDatabaseError. cbn [handled_isMemoryError].
  f_equal. unfold parsePostgresError. cbv zeta.
  destruct (messageIncludes message "permission denied" || codeIs (Some (CodeString c)) "42501");
    destruct (messageIncludes message "connection"
              || codeIs (Some (CodeString c)) "ECONNREFUSED");
    by destruct (message ≫= memoryMatch) as [[required allocated]|].
Qed.

End ErrorUtilsFacts.

Example parsePostgresError_memory :
  let message := Some "ERROR: memory required is 61 MB, maintenance_work_mem is 32 MB" in
  let shown (error : CaughtValue) :=
    match handleError (fun digits => digits) error with
    | Gives handled => Some (handled_type handled, formatErrorMessage (displayed handled))
    | Throws _ => None
    end in
  info_type (parsePostgresError (fun digits => digits) (Some (CodeString "54000")) message)
    = "memory_limit"
  /\ info_memory (parsePostgresError (fun digits => digits) (Some (CodeString "54000")) message)
     = Some ("61", "32")
  /\ fst <$> shown (CaughtObject true (Some (CodeString "23505")) (Some "network unreachable"))
     = Some "database"
  /\ fst <$> shown (CaughtObject true None (Some "Connection lost")) = Some "network"
  /\ snd <$> shown (CaughtObject true None (Some ""))
     = Some "Terjadi kesalahan. Silakan coba lagi."
  /\ shown (CaughtObject true (Some (CodeNumber 22)) (Some "The quota has been exceeded."))
     = None.
Proof. repeat split; vm_compute; reflexivity. Qed.

(** ** The answer generator *)

Section AnswerFacts.

Variable vectorStore : option VectorStore.
Variable currentSessionId : option string.
Variable embedQuery : string -> nat -> Outcome (list float).
Variable moduleEmbeddings : option (string -> Outcome (list float)).
Variable random : nat -> Q.
Context {Row : Type}.
Variable vectorSearch : list float -> list string -> nat -> Outcome (list Row).
Variable rowsToDocuments : list Row -> Outcome (list Doc).
Variable fallbackNonVectorSearch : string -> list Doc.
Variable generateContent : string -> list GeminiTurn -> Outcome GeminiResult.
Variable isMathQuery : string -> bool.
Variable generateQueryVariations : string -> bool -> list string.
Variable buildSystemPrompt : bool -> bool -> string -> string.
Variable addMathInstructions : string.
Variable extractThinkingProcess : string -> bool -> string * option string.

Abbreviation retrieve :=
  (retrieveRelevantDocs vectorStore embedQuery moduleEmbeddings random vectorSearch
     rowsToDocuments fallbackNonVectorSearch isMathQuery generateQueryVariations).
Abbreviation answer :=
  (queryWithRAG vectorStore currentSessionId embedQuery moduleEmbeddings random vectorSearch
     rowsToDocuments fallbackNonVectorSearch generateContent isMathQuery
     generateQueryVariations buildSystemPrompt addMathInstructions extractThinkingProcess).

Lemma retrieve_events (query : string) (hasApiKey : bool) (log : list Event) :
  exists docs added,
    retrieve query hasApiKey log = (Resolved docs, log ++ added)
    /\ Forall (isRetrievalEvent query) added.
Proof.
  destruct (retrieve_spec vectorStore embedQuery moduleEmbeddings random vectorSearch
              rowsToDocuments fallbackNonVectorSearch isMathQuery generateQueryVariations
              query hasApiKey log)
    as (memDocs & memEvents & _ & Hev & _ & Henough & Hfew).
  assert (Hmem : Forall (isRetrievalEvent query) memEvents).
  { eapply Forall_impl; [exact Hev|]. intros ev H. by left. }
  destruct (le_lt_dec 3 (length memDocs)) as [Hlen|Hlen].
  - exists memDocs, memEvents. split; [by apply Henough | done].
  - destruct (Hfew Hlen) as (dbDocs & dbEvents & _ & Hdbev & Hrun).
    exists (deduplicateDocuments (memDocs ++ dbDocs)), (memEvents ++ dbEvents).
    rewrite app_assoc. split; [done|]. apply Forall_app. split; [done|].
    eapply Forall_impl; [exact Hdbev|]. intros ev H. by right.
Qed.

(** The three ways a query ends. *)
Lemma queryWithRAG_cases (query : string) (hasApiKey : bool) (config : AIConfig)
    (conversationHistory : option (list Message)) :
  let failed (message : string) (events : list Event) :=
    (@Rejected QueryResult (newError ("Failed to query: " +:+ message)),
     sessionEvents currentSessionId ++ events ++ [EvTrackPerformance query false]) in
  (vectorStore = None
   /\ run (answer query hasApiKey config conversationHistory)
      = failed noDocumentsMessage [])
  \/ (exists added,
        Forall (isRetrievalEvent query) added
        /\ run (answer query hasApiKey config conversationHistory)
           = failed noRelevantInformationMessage added)
  \/ (exists added doc docs prompt,
        Forall (isRetrievalEvent query) added
        /\ let turns := formatChatHistory conversationHistory in
           let llm := EvLlmCall prompt turns in
           match generateContent prompt turns with
           | Resolved result =>
               match response_text result with
               | Resolved responseText =>
                   run (answer query hasApiKey config conversationHistory)
                   = (Resolved
                        {| text := ensureReferences
                                     (fst (extractThinkingProcess responseText
                                             (showThinkingProcess config)))
                                     (Some (List.map citationOf (doc :: docs)));
                           thinkingProcess :=
                             snd (extractThinkingProcess responseText
                                    (showThinkingProcess config));
                           usedConfig := config;
                           citations := List.map citationOf (doc :: docs);
                           sessionId := currentSessionId |},
                      sessionEvents currentSessionId ++ added
                      ++ [llm; EvTrackPerformance query true])
               | Rejected e =>
                   run (answer query hasApiKey config conversationHistory)
                   = failed (from_option id "undefined" (err_message e)) (added ++ [llm])
               end
           | Rejected e =>
               run (answer query hasApiKey config conversationHistory)
               = failed ("Failed to generate response: "
                         +:+ from_option id "Unknown error" (orString (err_message e) None))
                        (added ++ [llm])
           end).
Proof.
  intros failed. subst failed. cbv beta.
  unfold queryWithRAG.
  destruct vectorStore as [store|] eqn:Es.
  2:{ left. split; [done|]. unfold sessionEvents. run_async. by destruct currentSessionId. }
  right.
  destruct (retrieve_events query hasApiKey (sessionEvents currentSessionId))
    as (docs & added & Hretrieve & Hadded).
  rewrite Es in Hretrieve.
  assert (Hrun : forall (rest : list Doc -> Async QueryResult),
            run (tryFinally
                   (tryCatch
                      (let* _ := match currentSessionId with
                                 | Some sid => call (EvSessionAccess sid) (Resolved tt)
                                 | None => ret tt
                                 end in
                       let* relevantDocs := retrieveRelevantDocs (Some store) embedQuery
                                              moduleEmbeddings random vectorSearch
                                              rowsToDocuments fallbackNonVectorSearch
                                              isMathQuery generateQueryVariations
                                              query hasApiKey in
                       rest relevantDocs)
                      (fun error =>
                         throw (newError ("Failed to query: "
                                          +:+ from_option id "undefined" (err_message error)))))
                   (fun r => [EvTrackPerformance query
                                (match r with Resolved _ => true | Rejected _ => false end)]))
            = match rest docs (sessionEvents currentSessionId ++ added) with
              | (Resolved res, log) => (Resolved res, log ++ [EvTrackPerformance query true])
              | (Rejected e, log) =>
                  (Rejected (newError ("Failed to query: "
                                       +:+ from_option id "undefined" (err_message e))),
                   log ++ [EvTrackPerformance query false])
              end).
  { intros rest. unfold sessionEvents in *. run_async.
    destruct currentSessionId; cbn [app] in *; rewrite Hretrieve;
      by destruct (rest docs _) as [[res|e] log]. }
  rewrite Hrun. clear Hrun.
  destruct docs as [|doc docs].
  - left. exists added. split; [done|]. unfold throw. by rewrite <- app_assoc.
  - right. set (ctx := formatContextFromDocs (doc :: docs) (Some [])).
    assert (Hctx : ctx = (fst ctx, Some (List.map citationOf (doc :: docs)))) by done.
    rewrite Hctx. clear Hctx.
    exists added, doc, docs,
      (promptFor buildSystemPrompt addMathInstructions query (fst ctx) (isMathQuery query)
                 config).
    split; [done|]. cbv zeta.
    unfold generateResponseFromGemini. run_async.
    destruct (generateContent _ (formatChatHistory conversationHistory)) as [result|e].
    + destruct (response_text result) as [responseText|e].
      * destruct (extractThinkingProcess responseText (showThinkingProcess config))
          as [finalResponse thinking].
        cbn [fst snd from_option]. by rewrite <- !app_assoc.
      * by rewrite <- !app_assoc.
    + by rewrite <- !app_assoc.
Qed.

(** X16. Every query is recorded exactly once, whatever happens: the log of
    [queryWithRAG] ends with the one performance record it holds, which
    says whether the query was answered. The log holds at most one call
    of the model, and every rejection carries a message that starts with
    [Failed to query: ]. *)
Theorem queryWithRAG_records_every_query_once
    (query : string) (hasApiKey : bool) (config : AIConfig)
    (conversationHistory : option (list Message)) :
  let result := run (answer query hasApiKey config conversationHistory) in
  exists before,
    snd result = before ++ [EvTrackPerformance query (isResolved (fst result))]
    /\ Forall (fun ev => ~ isPerformanceRecord ev) before
    /\ (exists others calls,
          before ≡ₚ others ++ calls
          /\ Forall (fun ev => ~ isLlmCall ev) others
          /\ Forall isLlmCall calls
          /\ length calls <= 1)
    /\ (forall e, fst result = Rejected e ->
          exists message, e = newError ("Failed to query: " +:+ message)).
Proof.
  intros result. subst result.
  assert (Hsession : Forall (fun ev => ~ isPerformanceRecord ev /\ ~ isLlmCall ev)
                            (sessionEvents currentSessionId)).
  { unfold sessionEvents. destruct currentSessionId; repeat constructor; by intros []. }
  assert (Hretrieval : forall added, Forall (isRetrievalEvent query) added ->
            Forall (fun ev => ~ isPerformanceRecord ev /\ ~ isLlmCall ev) added).
  { intros added H. eapply Forall_impl; [exact H|].
    intros ev [Hev|Hev]; destruct ev; simpl in *; try done; split; by intros []. }
  assert (Hquiet : forall events,
            Forall (fun ev => ~ isPerformanceRecord ev /\ ~ isLlmCall ev) events ->
            Forall (fun ev => ~ isPerformanceRecord ev) events
            /\ exists others calls,
                 events ≡ₚ others ++ calls
                 /\ Forall (fun ev => ~ isLlmCall ev) others
                 /\ Forall isLlmCall calls /\ length calls <= 1).
  { intros events H. split; [eapply Forall_impl; [exact H|]; by intros ev [? ?]|].
    exists events, []. rewrite app_nil_r. split; [done|].
    split; [eapply Forall_impl; [exact H|]; by intros ev [? ?]|].
    split; [constructor | simpl; lia]. }
  destruct (queryWithRAG_cases query hasApiKey config conversationHistory)
    as [[_ Hrun]|[(added & Hadded & Hrun)|(added & doc & docs & prompt & Hadded & Hrun)]].
  - rewrite Hrun. cbn [fst snd isResolved app].
    exists (sessionEvents currentSessionId). split; [done|].
    destruct (Hquiet _ Hsession) as [H1 H2]. split; [done|]. split; [done|].
    intros e [= <-]. by eexists.
  - rewrite Hrun. cbn [fst snd isResolved].
    exists (sessionEvents currentSessionId ++ added). split; [by rewrite <- app_assoc|].
    destruct (Hquiet (sessionEvents currentSessionId ++ added)) as [H1 H2].
    { apply Forall_app. split; [done | by apply Hretrieval]. }
    split; [done|]. split; [done|]. intros e [= <-]. by eexists.
  - cbv zeta in Hrun.
    set (llm := EvLlmCall prompt (formatChatHistory conversationHistory)) in *.
    assert (Hbefore : Forall (fun ev => ~ isPerformanceRecord ev)
                        (sessionEvents currentSessionId ++ added ++ [llm])
                      /\ exists others calls,
                           sessionEvents currentSessionId ++ added ++ [llm]
                             ≡ₚ others ++ calls
                           /\ Forall (fun ev => ~ isLlmCall ev) others
                           /\ Forall isLlmCall calls /\ length calls <= 1).
    { destruct (Hquiet (sessionEvents currentSessionId ++ added)) as [H1 _].
      { apply Forall_app. split; [done | by apply Hretrieval]. }
      split.
      - rewrite app_assoc. apply Forall_app. split; [done|]. repeat constructor. by intros [].
      - exists (sessionEvents currentSessionId ++ added), [llm].
        split; [by rewrite <- app_assoc|]. split.
        + apply Forall_app. split.
          * eapply Forall_impl; [exact Hsession|]. by intros ev [? ?].
          * eapply Forall_impl; [exact (Hretrieval _ Hadded)|]. by intros ev [? ?].
        + split; [by repeat constructor | simpl; lia]. }
    destruct Hbefore as [H1 H2].
    destruct (generateContent prompt (formatChatHistory conversationHistory))
      as [[[responseText|e]]|e]; rewrite Hrun; cbn [fst snd isResolved].
    + exists (sessionEvents currentSessionId ++ added ++ [llm]).
      split; [by rewrite <- !app_assoc|]. split; [done|]. split; [done|]. by intros e.
    + exists (sessionEvents currentSessionId ++ added ++ [llm]).
      split; [by rewrite <- !app_assoc|]. split; [done|]. split; [done|].
      intros e' [= <-]. by eexists.
    + exists (sessionEvents currentSessionId ++ added ++ [llm]).
      split; [by rewrite <- !app_assoc|]. split; [done|]. split; [done|].
      intros e' [= <-]. by eexists.
Qed.

(** X17. The answer follows the model. When the log of [queryWithRAG] holds a
    call of the model, that call was made with the formatted
    conversation history. If the model answered it and the text of the
    answer could be read, the query resolves to that text, completed by
    [ensureReferences] with one citation per retrieved document, of which
    there is at least one. If the model failed, the query is rejected
    with the message of the model's error behind two prefixes; if the
    model answered but reading the text of the answer failed, the query
    is rejected with the message of that failure behind the prefix
    [Failed to query: ] alone. Without a call of the model in the log
    the query is rejected. *)
Theorem queryWithRAG_answer_follows_the_model
    (query : string) (hasApiKey : bool) (config : AIConfig)
    (conversationHistory : option (list Message)) :
  let result := run (answer query hasApiKey config conversationHistory) in
  (forall prompt turns, In (EvLlmCall prompt turns) (snd result) ->
     turns = formatChatHistory conversationHistory
     /\ (forall answered responseText,
           generateContent prompt turns = Resolved answered ->
           response_text answered = Resolved responseText ->
           exists res,
             fst result = Resolved res
             /\ citations res <> []
             /\ text res
                = ensureReferences
                    (fst (extractThinkingProcess responseText (showThinkingProcess config)))
                    (Some (citations res))
             /\ thinkingProcess res
                = snd (extractThinkingProcess responseText (showThinkingProcess config))
             /\ usedConfig res = config
             /\ sessionId res = currentSessionId)
     /\ (forall answered e,
           generateContent prompt turns = Resolved answered ->
           response_text answered = Rejected e ->
           fst result
           = Rejected (newError ("Failed to query: "
                                 +:+ from_option id "undefined" (err_message e))))
     /\ (forall e, generateContent prompt turns = Rejected e ->
           fst result
           = Rejected (newError ("Failed to query: Failed to generate response: "
                                 +:+ from_option id "Unknown error"
                                       (orString (err_message e) None)))))
  /\ ((forall prompt turns, ~ In (EvLlmCall prompt turns) (snd result)) ->
        isResolved (fst result) = false).
Proof.
  intros result. subst result.
  assert (Hsession : forall prompt turns,
            ~ In (EvLlmCall prompt turns) (sessionEvents currentSessionId)).
  { intros prompt turns. unfold sessionEvents.
    destruct currentSessionId; simpl; intros H; repeat destruct H as [H|H]; done. }
  assert (Hretrieval : forall added prompt turns, Forall (isRetrievalEvent query) added ->
            ~ In (EvLlmCall prompt turns) added).
  { intros added prompt turns Hall Hin. rewrite List.Forall_forall in Hall.
    destruct (Hall _ Hin) as [H|H]; done. }
  destruct (queryWithRAG_cases query hasApiKey config conversationHistory)
    as [[_ Hrun]|[(added & Hadded & Hrun)|(added & doc & docs & prompt & Hadded & Hrun)]].
  - rewrite Hrun. cbn [fst snd]. split; [|done]. intros prompt turns Hin.
    apply in_app_or in Hin as [Hin|Hin]; [by apply Hsession in Hin|].
    simpl in Hin. destruct Hin as [H|[]]. discriminate H.
  - rewrite Hrun. cbn [fst snd]. split; [|done]. intros prompt turns Hin.
    apply in_app_or in Hin as [Hin|Hin]; [by apply Hsession in Hin|].
    apply in_app_or in Hin as [Hin|Hin]; [by apply Hretrieval in Hin|].
    simpl in Hin. destruct Hin as [H|[]]. discriminate H.
  - cbv zeta in Hrun.
    assert (Honly : forall ok prompt' turns',
              In (EvLlmCall prompt' turns')
                 (sessionEvents currentSessionId ++ added
                  ++ [EvLlmCall prompt (formatChatHistory conversationHistory);
                      EvTrackPerformance query ok]) ->
              prompt' = prompt /\ turns' = formatChatHistory conversationHistory).
    { intros ok prompt' turns' Hin.
      apply in_app_or in Hin as [Hin|Hin]; [by apply Hsession in Hin|].
      apply in_app_or in Hin as [Hin|Hin]; [by apply Hretrieval in Hin|].
      simpl in Hin. destruct Hin as [[= <- <-]|[H|[]]]; [done | discriminate H]. }
    destruct (generateContent prompt (formatChatHistory conversationHistory))
      as [answered|e] eqn:Ellm;
      [destruct (response_text answered) as [responseText|e] eqn:Etext|];
      rewrite Hrun; cbn [fst snd].
    + split.
      * intros prompt' turns' Hin. apply Honly in Hin as [-> ->]. split; [done|].
        rewrite Ellm. split; [|split; [|done]].
        -- intros ? ? [= <-] Hread. rewrite Etext in Hread. injection Hread as <-.
           eexists. split; [reflexivity|].
           cbn [citations text thinkingProcess usedConfig sessionId]. done.
        -- intros ? ? [= <-] Hread. rewrite Etext in Hread. discriminate Hread.
      * intros Hnone. exfalso. eapply Hnone. apply in_or_app. right.
        apply in_or_app. right. left. reflexivity.
    + split; [|done].
      intros prompt' turns' Hin. rewrite <- app_assoc in Hin. cbn [app] in Hin.
      apply Honly in Hin as [-> ->]. split; [done|].
      rewrite Ellm. split; [|split; [|done]].
      * intros ? ? [= <-] Hread. rewrite Etext in Hread. discriminate Hread.
      * intros ? ? [= <-] Hread. rewrite Etext in Hread. by injection Hread as <-.
    + split; [|done].
      intros prompt' turns' Hin. rewrite <- app_assoc in Hin. cbn [app] in Hin.
      apply Honly in Hin as [-> ->]. split; [done|].
      rewrite Ellm. split; [done|]. split; [done|]. intros ? [= <-]. done.
Qed.

End AnswerFacts.

(** ** The size of the batches *)

Section BatchSizeFacts.

Variable chunkText : ref -> string.
Variable embedQuery : string -> nat -> ref -> nat -> Outcome (list float).
Variable random : nat -> Q.
Variable tryBlockThrows : nat -> bool.
Variable config : BatchConfig.
Variable enhancedDocs : list ref.

Abbreviation stateAt :=
  (batchStateAt chunkText embedQuery random tryBlockThrows config enhancedDocs).

Lemma adjustBatchSize_bounds (st : BatchState) :
  minBatchSize config <= initialBatchSize config ->
  minBatchSize config <= currentBatchSize st <= initialBatchSize config ->
  minBatchSize config <= currentBatchSize (adjustBatchSize config st)
    <= initialBatchSize config
  /\ queue (adjustBatchSize config st) = queue st.
Proof.
  intros Hconfig Hst. unfold adjustBatchSize.
  destruct (0 <? consecutiveFailures st)%nat; cbn [currentBatchSize queue].
  - split; [|done].
    pose proof (Nat.Div0.div_le_upper_bound (currentBatchSize st) 2 (currentBatchSize st)).
    assert (currentBatchSize st / 2 <= currentBatchSize st) by (apply Nat.Div0.div_le_upper_bound; lia).
    lia.
  - destruct (3 <=? consecutiveSuccesses st)%nat; cbn [currentBatchSize queue];
      (split; [lia | done]).
Qed.

(** X18. When the configured minimum does not exceed the initial batch size,
    the batch size of [processDocumentChunksInBatches] stays between the
    two in every iteration, however the iterations end; no iteration
    takes more chunks off the queue than the initial batch size, and the
    queue never grows. *)
Theorem batch_size_stays_between_minimum_and_initial (n : nat) :
  minBatchSize config <= initialBatchSize config ->
  let state := batchStateAt chunkText embedQuery random tryBlockThrows config enhancedDocs in
  minBatchSize config <= currentBatchSize (state n) <= initialBatchSize config
  /\ length (queue (state (S n))) <= length (queue (state n))
  /\ length (queue (state n)) - length (queue (state (S n))) <= initialBatchSize config
  /\ (tryBlockThrows n = true -> queue (state (S n)) ≡ₚ queue (state n)).
Proof.
  intros Hconfig state. subst state.
  assert (Hbounds : forall k,
            minBatchSize config <= currentBatchSize (stateAt k) <= initialBatchSize config).
  { induction k as [|k IH]; [simpl; lia|].
    cbn [batchStateAt]. unfold batchStep. cbv zeta.
    destruct (adjustBatchSize_bounds (stateAt k) Hconfig IH) as [Hadj _].
    destruct (tryBlockThrows k); cbn [currentBatchSize]; [|done].
    destruct (3 <=? _)%nat; [lia | done]. }
  split; [apply Hbounds|].
  cbn [batchStateAt]. unfold batchStep. cbv zeta.
  destruct (adjustBatchSize_bounds (stateAt n) Hconfig (Hbounds n)) as [Hadj Hqueue].
  set (st := adjustBatchSize config (stateAt n)) in *.
  destruct (tryBlockThrows n); cbn [queue]; rewrite <- Hqueue.
  - assert (Hperm : drop (Nat.min (currentBatchSize st) (length (queue st))) (queue st)
                    ++ take (Nat.min (currentBatchSize st) (length (queue st))) (queue st)
                    ≡ₚ queue st).
    { rewrite Permutation_app_comm. by rewrite take_drop. }
    rewrite Hperm. split; [lia|]. split; [lia | done].
  - rewrite length_drop. split; [lia|]. split; [lia | done].
Qed.

End BatchSizeFacts.

(** ** The references section, again *)

Lemma mapChars_app (f : ascii -> ascii) (a b : string) :
  JsString.mapChars f (a +:+ b) = JsString.mapChars f a +:+ JsString.mapChars f b.
Proof.
  induction a as [|c a IH]; [done|].
  change (String c a +:+ b) with (String c (a +:+ b)). simpl. by rewrite IH.
Qed.

Lemma prefix_app (p x : string) : String.prefix p (p +:+ x) = true.
Proof.
  induction p as [|c p IH]; [by destruct x|].
  change (String c p +:+ x) with (String c (p +:+ x)). simpl.
  destruct (ascii_dec c c); [exact IH | done].
Qed.

Lemma includes_app_prefix (a b needle : string) :
  String.prefix needle b = true -> JsString.includes (a +:+ b) needle = true.
Proof.
  intros Hb. induction a as [|c a IH].
  - change ("" +:+ b) with b. destruct b; cbn [JsString.includes]; by rewrite Hb.
  - change (String c a +:+ b) with (String c (a +:+ b)). cbn [JsString.includes].
    by rewrite IH, orb_true_r.
Qed.

(** X19. [ensureReferences] never changes the text of the answer, which stays
    the beginning of the result, and it is idempotent. When the answer
    is not empty and there is a citation, the result holds a references
    section, so that a second pass finds it and adds nothing. *)
Theorem ensureReferences_is_idempotent (response : string) (citations : option (list Citation)) :
  ensureReferences (ensureReferences response citations) citations
    = ensureReferences response citations
  /\ String.prefix response (ensureReferences response citations) = true
  /\ (response <> "" -> (exists c cs, citations = Some (c :: cs)) ->
        hasReferencesSection (ensureReferences response citations) = true)
  /\ (ensureReferences response citations = "" <-> response = "").
Proof.
  assert (Hself : String.prefix response response = true).
  { rewrite <- (string_app_nil_r response) at 2. apply prefix_app. }
  destruct (JsString.truthy response) eqn:Htruthy.
  2:{ unfold JsString.truthy in Htruthy. apply negb_false_iff, String.eqb_eq in Htruthy.
      subst response. repeat split; done. }
  assert (Hne : response <> "") by (by intros ->).
  assert (Hsame : ensureReferences response citations = response ->
            ensureReferences (ensureReferences response citations) citations
              = ensureReferences response citations
            /\ String.prefix response (ensureReferences response citations) = true
            /\ (ensureReferences response citations = "" <-> response = "")).
  { intros Heq. rewrite !Heq. split; [done|]. split; [done|]. done. }
  destruct (hasReferencesSection response) eqn:Hhas.
  { assert (Heq : ensureReferences response citations = response).
    { unfold ensureReferences. by rewrite Htruthy, Hhas. }
    destruct (Hsame Heq) as (H1 & H2 & H3).
    split; [done|]. split; [done|]. split; [|done]. intros _ _. by rewrite Heq. }
  assert (Hnone : forall cites, (forall c cs, cites <> Some (c :: cs)) ->
            ensureReferences response cites = response).
  { intros cites Hcites. unfold ensureReferences. rewrite Htruthy, Hhas. cbn [negb].
    destruct cites as [[|c cs]|]; try done. by destruct (Hcites c cs). }
  destruct citations as [[|c cs]|].
  1:{ destruct (Hsame (Hnone (Some []) ltac:(intros ? ? H; discriminate H)))
        as (H1 & H2 & H3).
      split; [done|]. split; [done|]. split; [by intros _ (? & ? & ?) | done]. }
  2:{ destruct (Hsame (Hnone None ltac:(intros ? ? H; discriminate H)))
        as (H1 & H2 & H3).
      split; [done|]. split; [done|]. split; [by intros _ (? & ? & ?) | done]. }
  set (lines := JsString.join JsString.nl
                  (JsObject.values (collectSources (c :: cs) 0 JsObject.empty))).
  set (result := response +:+ JsString.nl +:+ JsString.nl +:+ "REFERENSI:" +:+ JsString.nl
                 +:+ lines).
  assert (Heq : ensureReferences response (Some (c :: cs)) = result).
  { unfold ensureReferences. by rewrite Htruthy, Hhas. }
  assert (Hsection : hasReferencesSection result = true).
  { unfold hasReferencesSection, referencePatterns. cbn [existsb]. apply orb_true_iff. left.
    unfold result, JsString.canonicalize. rewrite mapChars_app.
    apply includes_app_prefix. clearbody lines. vm_compute. reflexivity. }
  assert (Hresult : result <> "").
  { unfold result. by apply string_app_nonempty. }
  rewrite !Heq. split.
  { unfold ensureReferences. rewrite Hsection.
    assert (Ht : JsString.truthy result = true).
    { unfold JsString.truthy. apply negb_true_iff. by apply String.eqb_neq. }
    by rewrite Ht. }
  split; [apply prefix_app|]. split; [done|].
  split; [intros H; by destruct (Hresult H) | by intros ->].
Qed.

(** ** Instances of the conditional properties *)

(** Of 60 chunks of one document followed by 5 of another, the first
    chunk of the second document (position 60) is written in the second
    call, under the identifier of the first document and index 10. *)
Lemma storeChunkBatches_keys_restart_in_every_batch_witness :
  exists call row,
    fst (storeChunkBatches sanitizeString (fun _ => "{}") (Some "user-1") sampleEmbedBatch
           (sampleChunks "doc-A" 60 ++ sampleChunks "doc-B" 5)) !! 1 = Some call
    /\ call_rows call !! 10 = Some row
    /\ row_document_id row = "doc-A"
    /\ row_chunk_index row = 10
    /\ row_content row = "chunk 0".
Proof.
  destruct (storeChunkBatches_keys_restart_in_every_batch
              sanitizeString (fun _ => "{}") sampleEmbedBatch "user-1"
              (sampleChunks "doc-A" 60 ++ sampleChunks "doc-B" 5))
    as (calls & Hrun & _ & Hpos).
  { intros i batch. eexists. reflexivity. }
  destruct (Hpos 60 (sampleChunk "doc-B" 0) eq_refl)
    as (call & row & first & Hcall & Hrow & _ & Hfirst & _ & Hdoc & Hindex & Hcontent).
  exists call, row. rewrite Hrun.
  change (60 / 50) with 1 in Hcall, Hfirst. change (60 mod 50) with 10 in Hrow, Hindex.
  assert (Hfirst' : first = sampleChunk "doc-A" 50).
  { vm_compute in Hfirst. injection Hfirst as <-. reflexivity. }
  subst first.
  split; [exact Hcall|]. split; [exact Hrow|]. split; [exact Hdoc|]. split; [exact Hindex|].
  rewrite Hcontent. vm_compute. reflexivity.
Defined.

(** Of a document of 51 chunks, the table holds one row in the end: the
    last chunk, under index 0. *)
Lemma storeChunkBatches_keeps_only_the_last_batch_witness :
  let run := storeChunkBatches sanitizeString (fun _ => "{}") (Some "user-1")
               sampleEmbedBatch (sampleChunks "doc-A" 51) in
  let final := tableAfter (fst run) ∅ in
  snd run = Resolved tt
  /\ (exists row, final !! ("doc-A", 0) = Some row /\ row_content row = "chunk 50")
  /\ final !! ("doc-A", 1) = None.
Proof.
  pose proof (storeChunkBatches_keeps_only_the_last_batch
                sanitizeString (fun _ => "{}") sampleEmbedBatch "user-1" "doc-A"
                (sampleChunks "doc-A" 51) ∅) as H.
  cbv zeta in H |- *.
  destruct H as (Hrun & Hkept & Hgone & _).
  - intros i batch. eexists. reflexivity.
  - unfold sampleChunks. apply List.Forall_map, List.Forall_forall. intros p _. reflexivity.
  - discriminate.
  - split; [exact Hrun|]. split.
    + destruct (Hkept 0 (sampleChunk "doc-A" 50) eq_refl) as (row & Hrow & _ & Hcontent).
      exists row. split; [exact Hrow|]. rewrite Hcontent. vm_compute. reflexivity.
    + apply (Hgone 1). vm_compute. lia.
Defined.

(** An operation that fails twice returns at its third invocation,
    after two waits. *)
Lemma retryWithBackoff_retries_every_error_witness :
  let r := retryWithBackoff failsTwice (fun _ => 0.5%Q) 3 in
  run_result r = Returned 2 /\ run_calls r = 3 /\ length (run_delays r) = 2.
Proof.
  pose proof (retryWithBackoff_retries_every_error failsTwice (fun _ => 0.5%Q) 3) as H.
  cbv zeta in H |- *.
  destruct H as (_ & Hfirst & _).
  - intros a. split; [discriminate | reflexivity].
  - apply (Hfirst 2 2); [lia | | reflexivity].
    intros a Ha. exists (newError "busy").
    destruct a as [|[|a]]; [reflexivity | reflexivity | lia].
Defined.

(** With the default configuration (initial size 10, minimum 2) the
    batch size after an iteration that threw is between 2 and 10. *)
Lemma batch_size_stays_between_minimum_and_initial_witness :
  2 <= currentBatchSize
         (batchStateAt (fun _ => "chunk") refusesSecondChunk (fun _ => 0.5%Q)
            (fun t => (t =? 0)%nat) defaultBatchConfig [0; 1; 2] 1) <= 10.
Proof.
  pose proof (batch_size_stays_between_minimum_and_initial
                (fun _ => "chunk") refusesSecondChunk (fun _ => 0.5%Q)
                (fun t => (t =? 0)%nat) defaultBatchConfig [0; 1; 2] 1) as H.
  cbv zeta in H. apply H. simpl. lia.
Defined.
